(** * chan-quectel: the SMS store (smsdb.c) and the device monitor (monitor_thread.c)

    A shallow embedding of the two engines of the channel driver, and of
    the opening and closing of the store:

    - [Smsdb]: the SQLite-backed store of incoming multi-part SMS fragments
      and outgoing delivery tracking.  Tables become lists of row records in
      rowid order ([outgoing_ref], a plain key/value table, becomes a finite
      map), every prepared statement becomes a query on those lists and every
      exported function is written statement by statement after its C body,
      threading the database explicitly.
    - [Monitor]: one iteration of the monitor thread's loop as a function
      from what the iteration observes to the trace of serializer pushes and
      waits it performs, and the body of the command-timeout task.
    - [Lifecycle]: [smsdb_init], [smsdb_atexit] and the functions under
      them, as computations on the file-scope variables of smsdb.c that
      record their calls to the engine.

    Conventions.  A C [int] is a [Z].  The narrowing of a wider integer to
    an [int] is written out ([c_int]) where the code itself can drive a
    value out of the range of an [int]: the [++res] of [smsdb_get_refid] on
    the reference it has read, and the 64-bit rowid that
    [smsdb_outgoing_add] returns through [int res].  Row counts, statuses
    and the rowids of [outgoing_part] are read as they are stored.  A C
    string is a [string] (its bytes up to the terminating NUL); a possibly
    NULL text column is an [option string].  [CURRENT_TIMESTAMP] is a
    parameter [now] counting seconds, so that
    [datetime(julianday(CURRENT_TIMESTAMP) + ttl / 86400.0)] is [now + ttl]
    and the textual comparison of two timestamps is [<] on [Z].  Output
    parameters ([out], [dst], [status_all], [*uid]) are returned as options,
    [None] when the function did not write to them; their capacity is the
    caller's concern.  Memory allocation is taken to succeed, so the exits
    on a failed [ast_str_set] do not appear.  The process-wide lock and the
    BEGIN/COMMIT around every function make each call one step on the
    database. *)

From Stdlib Require Import ZArith String Ascii List Lia DecimalString DecimalZ DecimalPos.
From stdpp Require Import base list gmap strings.

Open Scope Z_scope.

(** ** The SQLite engine as seen by smsdb.c *)

Module Sqlite.

(** The prepared statements ([DEFINE_SQL_STATEMENT]) that the exported
    functions execute. *)
Inductive stmt : Type :=
| get_full_message_stmt
| put_message_stmt
| clear_messages_stmt
| get_cnt_stmt
| ins_outgoingref_stmt
| set_outgoingref_stmt
| get_outgoingref_stmt
| put_outgoingmsg_stmt
| put_outgoingpart_stmt
| del_outgoingmsg_stmt
| del_outgoingpart_stmt
| get_outgoingmsg_stmt
| set_outgoingpart_stmt
| get_outgoingpart_stmt
| cnt_outgoingpart_stmt
| cnt_all_outgoingpart_stmt
| get_dst_stmt
| get_all_status_stmt
| get_expired_stmt.

(** The two engine calls that can report an error on a statement:
    [sqlite3_bind_*] on parameter [n], and [sqlite3_step]. *)
Inductive call : Type :=
| Bind (n : nat)
| Step.

(** Which engine calls fail (I/O error, busy, full disk, ...).  A failing
    bind binds nothing; a failing step changes nothing and yields no row. *)
Definition oracle : Type := stmt -> call -> bool.

(** The engine that never fails. *)
Definition healthy : oracle := fun _ _ => false.

(** An engine on which exactly one call fails. *)
Definition call_eqb (a b : call) : bool :=
  match a, b with
  | Bind n, Bind m => Nat.eqb n m
  | Step, Step => true
  | _, _ => false
  end.

Definition stmt_eqb (a b : stmt) : bool :=
  match a, b with
  | get_full_message_stmt, get_full_message_stmt
  | put_message_stmt, put_message_stmt
  | clear_messages_stmt, clear_messages_stmt
  | get_cnt_stmt, get_cnt_stmt
  | ins_outgoingref_stmt, ins_outgoingref_stmt
  | set_outgoingref_stmt, set_outgoingref_stmt
  | get_outgoingref_stmt, get_outgoingref_stmt
  | put_outgoingmsg_stmt, put_outgoingmsg_stmt
  | put_outgoingpart_stmt, put_outgoingpart_stmt
  | del_outgoingmsg_stmt, del_outgoingmsg_stmt
  | del_outgoingpart_stmt, del_outgoingpart_stmt
  | get_outgoingmsg_stmt, get_outgoingmsg_stmt
  | set_outgoingpart_stmt, set_outgoingpart_stmt
  | get_outgoingpart_stmt, get_outgoingpart_stmt
  | cnt_outgoingpart_stmt, cnt_outgoingpart_stmt
  | cnt_all_outgoingpart_stmt, cnt_all_outgoingpart_stmt
  | get_dst_stmt, get_dst_stmt
  | get_all_status_stmt, get_all_status_stmt
  | get_expired_stmt, get_expired_stmt => true
  | _, _ => false
  end.

Definition failing (s : stmt) (c : call) : oracle :=
  fun s' c' => stmt_eqb s s' && call_eqb c c'.

(** [sqlite3_column_int] on the current row of a statement: the integer of
    the column, and 0 when the column is NULL or the statement has no
    current row (what the engine reads there, although its manual leaves the
    second case open). *)
Definition sqlite3_column_int (col : option Z) : Z :=
  match col with
  | Some v => v
  | None => 0
  end.

End Sqlite.

(** ** The SMS store *)

Module Smsdb.

Import Sqlite.

Definition DBKEY_MAX_LEN : nat := 256.

(** The value an [int] holds of a wider integer: its low 32 bits, read in
    two's complement.  It is what [sqlite3_column_int] returns of a stored
    64-bit integer, what the assignment of a [sqlite3_int64] to an [int]
    leaves, and what [++] leaves of INT_MAX on the targets of the driver
    (the C standard leaves that last case open). *)
Definition INT_MAX : Z := 2147483647.

Definition c_int (z : Z) : Z := (z + 2147483648) mod 4294967296 - 2147483648.

(** [ast_str_set(&buf, max_len, fmt, ...)] of the Asterisk string API, on the
    already formatted text: a buffer that starts shorter than [max_len] grows
    up to [max_len] bytes, so the text is kept up to [max_len - 1]
    characters; [max_len = 0] sets no bound. *)
Definition ast_str_set (max_len : nat) (formatted : string) : string :=
  match max_len with
  | O => formatted
  | S n => String.substring 0 n formatted
  end.

(** The [%d] conversion. *)
Definition fmt_d (n : Z) : string := NilZero.string_of_int (Z.to_int n).

(** ["%s/%s/%d/%d"]: the key of an incoming message in [smsdb_put]. *)
Definition incoming_key (id addr : string) (ref parts : Z) : string :=
  ast_str_set DBKEY_MAX_LEN
    (id +:+ "/" +:+ addr +:+ "/" +:+ fmt_d ref +:+ "/" +:+ fmt_d parts).

(** ["%s/%s"]: the key of [outgoing_ref] in [smsdb_get_refid]. *)
Definition ref_key (id addr : string) : string :=
  ast_str_set DBKEY_MAX_LEN (id +:+ "/" +:+ addr).

(** ["%s/%s/%d"]: the key of [outgoing_part]. *)
Definition part_key_of (dev dst : string) (refid : Z) : string :=
  ast_str_set DBKEY_MAX_LEN (dev +:+ "/" +:+ dst +:+ "/" +:+ fmt_d refid).

Arguments incoming_key : simpl never.
Arguments ref_key : simpl never.
Arguments part_key_of : simpl never.

(** *** Tables *)

(** [incoming (key, seqorder, expiration, message)], PRIMARY KEY (key, seqorder). *)
Record incoming_row : Type := IncomingRow {
  in_key : string;
  in_seqorder : Z;
  in_expiration : Z;
  in_message : option string
}.

(** [outgoing_msg (uid AUTOINCREMENT, dev, dst, cnt, expiration, srr)]. *)
Record outgoing_msg_row : Type := OutgoingMsg {
  msg_uid : Z;
  msg_dev : string;
  msg_dst : string;
  msg_cnt : Z;
  msg_expiration : Z;
  msg_srr : Z
}.

(** [outgoing_part (key, msg, status)], PRIMARY KEY (key), with its implicit
    rowid; [status] is NULL until a report arrives. *)
Record outgoing_part_row : Type := OutgoingPart {
  part_rowid : Z;
  part_key : string;
  part_msg : Z;
  part_status : option Z
}.

(** The database.  Each list holds a table's rows in rowid order;
    [outgoing_msg_seq] is the largest uid ever given out (AUTOINCREMENT). *)
Record db : Type := Db {
  incoming : list incoming_row;
  outgoing_ref : gmap string Z;
  outgoing_msg : list outgoing_msg_row;
  outgoing_msg_seq : Z;
  outgoing_part : list outgoing_part_row
}.

Definition empty_db : db := Db [] ∅ [] 0 [].

Definition with_incoming (s : db) (t : list incoming_row) : db :=
  Db t (outgoing_ref s) (outgoing_msg s) (outgoing_msg_seq s) (outgoing_part s).

Definition with_outgoing_ref (s : db) (t : gmap string Z) : db :=
  Db (incoming s) t (outgoing_msg s) (outgoing_msg_seq s) (outgoing_part s).

Definition with_outgoing_msg (s : db) (t : list outgoing_msg_row) (seq : Z) : db :=
  Db (incoming s) (outgoing_ref s) t seq (outgoing_part s).

Definition with_outgoing_part (s : db) (t : list outgoing_part_row) : db :=
  Db (incoming s) (outgoing_ref s) (outgoing_msg s) (outgoing_msg_seq s) t.

(** *** ORDER BY on an integer column *)

Section OrderBy.
Context {A : Type} (col : A -> Z).

Fixpoint insert_by (x : A) (l : list A) : list A :=
  match l with
  | [] => [x]
  | y :: l' => if col x <? col y then x :: y :: l' else y :: insert_by x l'
  end.

Fixpoint order_by (l : list A) : list A :=
  match l with
  | [] => []
  | x :: l' => insert_by x (order_by l')
  end.

(** Ascending along the list, no two rows equal on the column. *)
Fixpoint ascending (l : list A) : Prop :=
  match l with
  | [] => True
  | x :: l' => Forall (fun y => col x < col y) l' /\ ascending l'
  end.

End OrderBy.

(** *** Statements on [incoming] *)

(** [INSERT OR REPLACE INTO incoming (key, seqorder, expiration, message)]:
    a row with the same primary key is deleted, the new row is appended. *)
Definition put_message (s : db) (key : string) (order expiration : Z)
    (msg : option string) : db :=
  with_incoming s
    (filter (fun r => ~ (in_key r = key /\ in_seqorder r = order)) (incoming s)
     ++ [IncomingRow key order expiration msg]).

(** [SELECT COUNT(seqorder) FROM incoming WHERE key = ?]. *)
Definition get_cnt (s : db) (key : string) : Z :=
  Z.of_nat (length (filter (fun r => in_key r = key) (incoming s))).

(** [SELECT message FROM incoming WHERE key = ? ORDER BY seqorder]. *)
Definition get_full_message (s : db) (key : string) : list (option string) :=
  in_message <$> order_by in_seqorder (filter (fun r => in_key r = key) (incoming s)).

(** [DELETE FROM incoming WHERE key = ?]. *)
Definition clear_messages (s : db) (key : string) : db :=
  with_incoming s (filter (fun r => in_key r <> key) (incoming s)).

(** The loop of [smsdb_put] over the rows of [get_full_message]: each part
    is copied behind the previous one ([stpncpy]); a NULL text sets
    [res = -1] and leaves the loop. *)
Fixpoint copy_parts (rows : list (option string)) (res : Z) (out : string)
    : Z * string :=
  match rows with
  | [] => (res, out)
  | None :: _ => (-1, out)
  | Some part :: rows' => copy_parts rows' res (out +:+ part)
  end.

(** [smsdb_put(id, addr, ref, parts, order, msg, out)].  [ttl] is the
    configured [csms_ttl].  The result is the returned [int], what was
    written to [out] ([None]: the buffer was not touched), and the database
    after the transaction. *)
Definition smsdb_put (flt : oracle) (now ttl : Z) (s : db)
    (id addr : string) (ref parts order : Z) (msg : option string)
    : Z * option string * db :=
  let res := 0 in
  let fullkey := incoming_key id addr ref parts in
  (* put_message *)
  let '(res, s) :=
    if flt put_message_stmt (Bind 1) then (-1, s)
    else if flt put_message_stmt (Bind 2) then (-1, s)
    else if flt put_message_stmt (Bind 3) then (-1, s)
    else if flt put_message_stmt (Bind 4) then (-1, s)
    else if flt put_message_stmt Step then (-1, s)
    else (res, put_message s fullkey order (now + ttl) msg) in
  (* get_cnt *)
  let '(res, row) :=
    if flt get_cnt_stmt (Bind 1) then (-1, None)
    else if flt get_cnt_stmt Step then (-1, None)
    else (res, Some (get_cnt s fullkey)) in
  let res := sqlite3_column_int row in
  if (0 <? res) && (order =? parts) then
    (* get_full_message *)
    let '(res, out) :=
      if flt get_full_message_stmt (Bind 1) then (-1, EmptyString)
      else
        copy_parts
          (if flt get_full_message_stmt Step then [] else get_full_message s fullkey)
          res EmptyString in
    (* clear_messages *)
    let '(res, s) :=
      if 0 <=? res then
        if flt clear_messages_stmt (Bind 1) then (-1, s)
        else if flt clear_messages_stmt Step then (res, s)
        else (res, clear_messages s fullkey)
      else (res, s) in
    (res, Some out, s)
  else (res, None, s).

(** *** Statements on [outgoing_ref] *)

(** [SELECT refid FROM outgoing_ref WHERE key = ?]. *)
Definition get_outgoingref (s : db) (key : string) : option Z :=
  outgoing_ref s !! key.

(** [INSERT INTO outgoing_ref (refid, key) VALUES (?, ?)]: refused on an
    existing key (PRIMARY KEY). *)
Definition ins_outgoingref (s : db) (refid : Z) (key : string) : option db :=
  match outgoing_ref s !! key with
  | Some _ => None
  | None => Some (with_outgoing_ref s (<[key := refid]> (outgoing_ref s)))
  end.

(** [UPDATE outgoing_ref SET refid = ? WHERE key = ?]: no row, no change. *)
Definition set_outgoingref (s : db) (refid : Z) (key : string) : option db :=
  Some (with_outgoing_ref s (alter (fun _ => refid) key (outgoing_ref s))).

(** [smsdb_get_refid(id, addr)].  [res] is read from an INTEGER column
    with [sqlite3_column_int] and incremented as an [int]; the wrap of the
    reference at 256 follows as in the source. *)
Definition smsdb_get_refid (flt : oracle) (s : db) (id addr : string) : Z * db :=
  let res := 0 in
  let fullkey := ref_key id addr in
  let use_insert := false in
  (* get_outgoingref *)
  let '(res, use_insert) :=
    if flt get_outgoingref_stmt (Bind 1) then (-1, use_insert)
    else
      match (if flt get_outgoingref_stmt Step then None else get_outgoingref s fullkey) with
      | None => (255, true)
      | Some refid => (c_int refid, use_insert)
      end in
  if 0 <=? res then
    let res := c_int (res + 1) in
    let res := if 256 <=? res then 0 else res in
    let outgoingref_stmt := if use_insert then ins_outgoingref_stmt else set_outgoingref_stmt in
    let outgoingref := if use_insert then ins_outgoingref else set_outgoingref in
    if flt outgoingref_stmt (Bind 1) then (-1, s)
    else if flt outgoingref_stmt (Bind 2) then (-1, s)
    else
      match (if flt outgoingref_stmt Step then None else outgoingref s res fullkey) with
      | None => (-1, s)
      | Some s' => (res, s')
      end
  else (res, s).

(** *** Statements on [outgoing_msg] and [outgoing_part] *)

(** [INSERT INTO outgoing_msg (dev, dst, cnt, expiration, srr)]; the result
    carries [sqlite3_last_insert_rowid], the uid AUTOINCREMENT gives: one
    more than the largest ever given. *)
Definition put_outgoingmsg (s : db) (dev dst : string) (cnt expiration srr : Z)
    : Z * db :=
  let uid := outgoing_msg_seq s + 1 in
  (uid, with_outgoing_msg s
          (outgoing_msg s ++ [OutgoingMsg uid dev dst cnt expiration srr]) uid).

(** [SELECT dev, dst, srr FROM outgoing_msg WHERE uid = ?]; also serves
    [SELECT dst FROM outgoing_msg WHERE uid = ?] ([get_dst]). *)
Definition get_outgoingmsg (s : db) (uid : Z) : option outgoing_msg_row :=
  head (filter (fun m => msg_uid m = uid) (outgoing_msg s)).

Definition get_dst (s : db) (uid : Z) : option string :=
  msg_dst <$> get_outgoingmsg s uid.

(** The rowid SQLite gives a new row of a table without AUTOINCREMENT: one
    more than the largest in the table, 1 for the empty table. *)
Definition next_rowid (t : list outgoing_part_row) : Z :=
  foldr Z.max 0 (part_rowid <$> t) + 1.

(** [INSERT INTO outgoing_part (key, msg, status) VALUES (?, ?, NULL)]:
    refused on an existing key (PRIMARY KEY). *)
Definition put_outgoingpart (s : db) (key : string) (uid : Z) : option db :=
  match filter (fun p => part_key p = key) (outgoing_part s) with
  | _ :: _ => None
  | [] =>
      Some (with_outgoing_part s
              (outgoing_part s
               ++ [OutgoingPart (next_rowid (outgoing_part s)) key uid None]))
  end.

(** [DELETE FROM outgoing_msg WHERE uid = ?]. *)
Definition del_outgoingmsg (s : db) (uid : Z) : db :=
  with_outgoing_msg s (filter (fun m => msg_uid m <> uid) (outgoing_msg s))
    (outgoing_msg_seq s).

(** [DELETE FROM outgoing_part WHERE msg = ?]. *)
Definition del_outgoingpart (s : db) (uid : Z) : db :=
  with_outgoing_part s (filter (fun p => part_msg p <> uid) (outgoing_part s)).

(** [UPDATE outgoing_part SET status = ? WHERE rowid = ?]. *)
Definition with_status (st partid : Z) (p : outgoing_part_row) : outgoing_part_row :=
  if decide (part_rowid p = partid)
  then OutgoingPart (part_rowid p) (part_key p) (part_msg p) (Some st)
  else p.

Definition set_outgoingpart (s : db) (st partid : Z) : db :=
  with_outgoing_part s (with_status st partid <$> outgoing_part s).

(** [SELECT rowid, msg FROM outgoing_part WHERE key = ?]. *)
Definition get_outgoingpart (s : db) (key : string) : option outgoing_part_row :=
  head (filter (fun p => part_key p = key) (outgoing_part s)).

(** [p.status & 64 != 0 OR p.status & 32 = 0] ([&] binds tighter than the
    comparisons in SQL); not true of a NULL status. *)
Definition terminal (status : option Z) : bool :=
  match status with
  | None => false
  | Some st => negb (Z.land st 64 =? 0) || (Z.land st 32 =? 0)
  end.

(** The rows of [outgoing_part] with [msg = uid]. *)
Definition parts_of (s : db) (uid : Z) : list outgoing_part_row :=
  filter (fun p => part_msg p = uid) (outgoing_part s).

(** [SELECT m.cnt, (SELECT COUNT(p.rowid) FROM outgoing_part p WHERE
    p.msg = m.rowid AND (terminal)) FROM outgoing_msg m WHERE m.rowid = ?]. *)
Definition cnt_outgoingpart (s : db) (uid : Z) : option (Z * Z) :=
  (fun m =>
     (msg_cnt m,
      Z.of_nat (length (filter (fun p => terminal (part_status p) = true)
                          (parts_of s (msg_uid m))))))
  <$> get_outgoingmsg s uid.

(** [SELECT m.cnt, (SELECT COUNT(p.rowid) FROM outgoing_part p WHERE
    p.msg = m.uid) FROM outgoing_msg m WHERE m.uid = ?]. *)
Definition cnt_all_outgoingpart (s : db) (uid : Z) : option (Z * Z) :=
  (fun m => (msg_cnt m, Z.of_nat (length (parts_of s (msg_uid m)))))
  <$> get_outgoingmsg s uid.

(** [SELECT status FROM outgoing_part WHERE msg = ? ORDER BY rowid]. *)
Definition get_all_status (s : db) (uid : Z) : list (option Z) :=
  part_status <$> order_by part_rowid (parts_of s uid).

(** [SELECT uid, dst FROM outgoing_msg WHERE expiration < CURRENT_TIMESTAMP
    LIMIT 1]: the first such row of the table scan. *)
Definition get_expired (s : db) (now : Z) : option outgoing_msg_row :=
  head (filter (fun m => msg_expiration m < now) (outgoing_msg s)).

(** [smsdb_outgoing_add(id, addr, cnt, ttl, srr)]: the rowid of the new
    message comes back through [int res]. *)
Definition smsdb_outgoing_add (flt : oracle) (now : Z) (s : db)
    (id addr : string) (cnt ttl srr : Z) : Z * db :=
  if flt put_outgoingmsg_stmt (Bind 1) then (-1, s)
  else if flt put_outgoingmsg_stmt (Bind 2) then (-1, s)
  else if flt put_outgoingmsg_stmt (Bind 3) then (-1, s)
  else if flt put_outgoingmsg_stmt (Bind 4) then (-1, s)
  else if flt put_outgoingmsg_stmt (Bind 5) then (-1, s)
  else if flt put_outgoingmsg_stmt Step then (-1, s)
  else
    let x := put_outgoingmsg s id addr cnt (now + ttl) srr in
    (c_int x.1, x.2).

(** [smsdb_outgoing_clear_nolock(uid)]: both deletes are attempted. *)
Definition smsdb_outgoing_clear_nolock (flt : oracle) (s : db) (uid : Z) : Z * db :=
  let res := 0 in
  let '(res, s) :=
    if flt del_outgoingmsg_stmt (Bind 1) then (-1, s)
    else if flt del_outgoingmsg_stmt Step then (-1, s)
    else (res, del_outgoingmsg s uid) in
  let '(res, s) :=
    if flt del_outgoingpart_stmt (Bind 1) then (-1, s)
    else if flt del_outgoingpart_stmt Step then (-1, s)
    else (res, del_outgoingpart s uid) in
  (res, s).

(** [if (res >= 0 && smsdb_outgoing_clear_nolock(uid) < 0) res = -1]. *)
Definition clear_if_finished (flt : oracle) (res : Z) (s : db) (uid : Z) : Z * db :=
  if 0 <=? res then
    let '(r, s') := smsdb_outgoing_clear_nolock flt s uid in
    (if r <? 0 then -1 else res, s')
  else (res, s).

Section Outgoing.

(** The bound of the destination buffer, a constant of smsdb.h. *)
Variable SMSDB_DST_MAX_LEN : nat.

(** [smsdb_outgoing_clear(uid, dst)].  The second component is what was
    written to [dst]. *)
Definition smsdb_outgoing_clear (flt : oracle) (s : db) (uid : Z)
    : Z * option string * db :=
  let res := 0 in
  let '(res, dst) :=
    if flt get_dst_stmt (Bind 1) then (-1, None)
    else
      match (if flt get_dst_stmt Step then None else get_dst s uid) with
      | None => (-1, None)
      | Some d => (res, Some (ast_str_set SMSDB_DST_MAX_LEN d))
      end in
  let '(res, s) := clear_if_finished flt res s uid in
  (res, dst, s).

(** [smsdb_outgoing_part_put(uid, refid, dst)]. *)
Definition smsdb_outgoing_part_put (flt : oracle) (s : db) (uid refid : Z)
    : Z * option string * db :=
  let res := 0 in
  let srr := 0 in
  let fullkey := EmptyString in
  (* get_outgoingmsg *)
  let '(res, srr, fullkey) :=
    if flt get_outgoingmsg_stmt (Bind 1) then (-1, srr, fullkey)
    else
      match (if flt get_outgoingmsg_stmt Step then None else get_outgoingmsg s uid) with
      | None => (-2, srr, fullkey)
      | Some m => (res, msg_srr m, part_key_of (msg_dev m) (msg_dst m) refid)
      end in
  (* put_outgoingpart *)
  let '(res, s) :=
    if 0 <=? res then
      if flt put_outgoingpart_stmt (Bind 1) then (-1, s)
      else if flt put_outgoingpart_stmt (Bind 2) then (-1, s)
      else
        match (if flt put_outgoingpart_stmt Step then None
               else put_outgoingpart s fullkey uid) with
        | None => (-1, s)
        | Some s' => (res, s')
        end
    else (res, s) in
  let res := if srr =? 0 then -2 else res in
  (* cnt_all_outgoingpart *)
  let res :=
    if 0 <=? res then
      if flt cnt_all_outgoingpart_stmt (Bind 1) then -1
      else
        match (if flt cnt_all_outgoingpart_stmt Step then None
               else cnt_all_outgoingpart s uid) with
        | None => -1
        | Some (cur, cnt) => if cur =? cnt then res else -2
        end
    else res in
  (* get_dst *)
  let '(res, dst) :=
    if 0 <=? res then
      if flt get_dst_stmt (Bind 1) then (-1, None)
      else
        match (if flt get_dst_stmt Step then None else get_dst s uid) with
        | None => (-1, None)
        | Some d => (res, Some (ast_str_set SMSDB_DST_MAX_LEN d))
        end
    else (res, None) in
  (* clear if everything is finished *)
  let '(res, s) := clear_if_finished flt res s uid in
  (res, dst, s).

(** [smsdb_outgoing_purge_one(uid, dst)].  The second component is what was
    written to [*uid] and [dst]; when no row is found [*uid] is not set, and
    [res] is negative there. *)
Definition smsdb_outgoing_purge_one (flt : oracle) (now : Z) (s : db)
    : Z * option (Z * string) * db :=
  let res := -1 in
  (* get_expired *)
  let '(res, found) :=
    match (if flt get_expired_stmt Step then None else get_expired s now) with
    | None => (-1, None)
    | Some m => (res, Some (msg_uid m, ast_str_set SMSDB_DST_MAX_LEN (msg_dst m)))
    end in
  let '(res, s) :=
    match found with
    | Some (uid, _) => clear_if_finished flt res s uid
    | None => (res, s)
    end in
  (res, found, s).

End Outgoing.

(** [smsdb_outgoing_part_status(id, addr, mr, st, status_all)].  The second
    component is what was written to [status_all]. *)
Definition smsdb_outgoing_part_status (flt : oracle) (s : db)
    (id addr : string) (mr st : Z) : Z * option (list Z) * db :=
  let res := 0 in
  let fullkey := part_key_of id addr mr in
  (* get_outgoingpart; partid and uid are only read when res >= 0 *)
  let '(res, partid, uid) :=
    if flt get_outgoingpart_stmt (Bind 1) then (-1, 0, 0)
    else
      match (if flt get_outgoingpart_stmt Step then None
             else get_outgoingpart s fullkey) with
      | None => (-1, 0, 0)
      | Some p => (res, part_rowid p, part_msg p)
      end in
  (* set status *)
  let '(res, s) :=
    if 0 <=? res then
      if flt set_outgoingpart_stmt (Bind 1) then (-1, s)
      else if flt set_outgoingpart_stmt (Bind 2) then (-1, s)
      else if flt set_outgoingpart_stmt Step then (-1, s)
      else (res, set_outgoingpart s st partid)
    else (res, s) in
  (* get count *)
  let res :=
    if 0 <=? res then
      if flt cnt_outgoingpart_stmt (Bind 1) then -1
      else
        match (if flt cnt_outgoingpart_stmt Step then None
               else cnt_outgoingpart s uid) with
        | None => -1
        | Some (cur, cnt) => if cur =? cnt then res else -2
        end
    else res in
  (* get status array *)
  let '(res, status_all) :=
    if 0 <=? res then
      if flt get_all_status_stmt (Bind 1) then (-1, Some [-1])
      else
        (res,
         Some ((sqlite3_column_int
                  <$> (if flt get_all_status_stmt Step then [] else get_all_status s uid))
               ++ [-1]))
    else (res, None) in
  (* clear if everything is finished *)
  let '(res, s) := clear_if_finished flt res s uid in
  (res, status_all, s).

(** *** Invariants of the tables and derived notions used in the statements *)

(** Every stored reference id is a byte: [outgoing_ref] is only written by
    [smsdb_get_refid]. *)
Definition refs_in_range (s : db) : Prop :=
  map_Forall (fun _ r => 0 <= r <= 255) (outgoing_ref s).

(** The reference stored for a pair, an absent row read as 255. *)
Definition prev_refid (s : db) (id addr : string) : Z :=
  default 255 (outgoing_ref s !! ref_key id addr).

(** The values returned by [n] successive calls of [smsdb_get_refid] for one
    pair on a healthy engine. *)
Fixpoint refid_calls (n : nat) (s : db) (id addr : string) : list Z :=
  match n with
  | O => []
  | S n' =>
      let x := smsdb_get_refid healthy s id addr in
      x.1 :: refid_calls n' x.2 id addr
  end.

(** The rows of [incoming] with a given primary key. *)
Definition rows_at (s : db) (key : string) (order : Z) : list incoming_row :=
  filter (fun r => in_key r = key /\ in_seqorder r = order) (incoming s).

(** Successive calls of [smsdb_put] for one message on a healthy engine,
    each call given as (now, order, text): what every call returned and wrote
    to [out], and the database after the last one. *)
Fixpoint put_calls (ttl : Z) (s : db) (id addr : string) (ref parts : Z)
    (calls : list (Z * Z * option string)) : list (Z * option string) * db :=
  match calls with
  | [] => ([], s)
  | (now, order, msg) :: calls' =>
      let x := smsdb_put healthy now ttl s id addr ref parts order msg in
      let y := put_calls ttl x.2 id addr ref parts calls' in
      (x.1 :: y.1, y.2)
  end.

(** A part of a message as (now, order, text), the call that stores it and
    the row it becomes under [key]. *)
Definition part_order (c : Z * Z * string) : Z := c.1.2.

Definition part_call (c : Z * Z * string) : Z * Z * option string :=
  (c.1.1, c.1.2, Some c.2).

Definition part_row (key : string) (ttl : Z) (c : Z * Z * string) : incoming_row :=
  IncomingRow key c.1.2 (c.1.1 + ttl) (Some c.2).

(** The table [incoming] while parts of the message [key] are outstanding:
    the rows [others] of other messages, then one row per part stored so far,
    oldest first. *)
Definition stored (key : string) (ttl : Z) (s : db) (others : list incoming_row)
    (got : list (Z * Z * string)) : Prop :=
  incoming s = others ++ (part_row key ttl <$> got)
  /\ Forall (fun r => in_key r <> key) others.

(** Texts joined one behind the other. *)
Definition join (texts : list string) : string :=
  foldr String.append EmptyString texts.

(** A second [smsdb_put] of the same part replaces the first: one row is
    left for the part, carrying the second text, and the second call returns
    the row count the first one returned. *)
Definition duplicate_replaces (now1 now2 ttl : Z) (s : db) (id addr : string)
    (ref parts order : Z) (m1 m2 : option string) : Prop :=
  let key := incoming_key id addr ref parts in
  let x1 := smsdb_put healthy now1 ttl s id addr ref parts order m1 in
  let x2 := smsdb_put healthy now2 ttl x1.2 id addr ref parts order m2 in
  rows_at x2.2 key order = [IncomingRow key order (now2 + ttl) m2]
  /\ x2.1.1 = x1.1.1.

(** [outgoing_part] has PRIMARY KEY (key). *)
Definition part_keys_unique (s : db) : Prop :=
  NoDup (part_key <$> outgoing_part s).

(** The rows of [outgoing_part] stand in the order of their rowids. *)
Definition part_rowids_ascending (s : db) : Prop :=
  ascending part_rowid (outgoing_part s).



(** A message of [cnt] parts from device [dev] to [dst] without status
    report request, in an otherwise empty database, with its parts stored
    under the references [refs]. *)
Definition untracked_message (dev dst : string) (cnt : Z) (refs : list Z) : db :=
  foldl (fun s refid => (smsdb_outgoing_part_put 256 healthy s 1 refid).2)
    (smsdb_outgoing_add healthy 0 empty_db dev dst cnt 60 0).2 refs.

(** The invariant of [outgoing_part] as a table: unique keys, rows in
    rowid order. *)
Definition parts_ok (t : list outgoing_part_row) : Prop :=
  NoDup (part_key <$> t) /\ ascending part_rowid t.

(** The invariant of the database. *)
Definition db_ok (s : db) : Prop :=
  refs_in_range s /\ part_keys_unique s /\ part_rowids_ascending s.

(** The exported functions as requests to the store. *)
Inductive request : Type :=
| Put (now ttl : Z) (id addr : string) (ref parts order : Z) (msg : option string)
| GetRefid (id addr : string)
| OutgoingAdd (now : Z) (id addr : string) (cnt ttl srr : Z)
| OutgoingClear (uid : Z)
| OutgoingPartPut (uid refid : Z)
| OutgoingPartStatus (id addr : string) (mr st : Z)
| OutgoingPurgeOne (now : Z).

(** The database a request leaves. *)
Definition serve (dst_max : nat) (flt : oracle) (s : db) (r : request) : db :=
  match r with
  | Put now ttl id addr ref parts order msg =>
      (smsdb_put flt now ttl s id addr ref parts order msg).2
  | GetRefid id addr => (smsdb_get_refid flt s id addr).2
  | OutgoingAdd now id addr cnt ttl srr =>
      (smsdb_outgoing_add flt now s id addr cnt ttl srr).2
  | OutgoingClear uid => (smsdb_outgoing_clear dst_max flt s uid).2
  | OutgoingPartPut uid refid => (smsdb_outgoing_part_put dst_max flt s uid refid).2
  | OutgoingPartStatus id addr mr st =>
      (smsdb_outgoing_part_status flt s id addr mr st).2
  | OutgoingPurgeOne now => (smsdb_outgoing_purge_one dst_max flt now s).2
  end.

(** A request that stores no row in [outgoing_part]. *)
Definition stores_no_part (r : request) : Prop :=
  match r with
  | OutgoingPartPut _ _ => False
  | _ => True
  end.

(** Successive requests, each with the engine it meets. *)
Definition run (dst_max : nat) (s : db) (rs : list (oracle * request)) : db :=
  foldl (fun s0 fr => serve dst_max fr.1 s0 fr.2) s rs.



(** *** Uids and keys *)

(** [outgoing_msg.uid] is AUTOINCREMENT, and [outgoing_part.msg] is the uid
    of a message that was stored when the part was: the uids in the table
    are positive, and neither a message nor a part carries a uid above the
    largest ever given. *)
Definition uids_given (s : db) : Prop :=
  0 <= outgoing_msg_seq s
  /\ Forall (fun m => 0 < msg_uid m <= outgoing_msg_seq s) (outgoing_msg s)
  /\ Forall (fun p => part_msg p <= outgoing_msg_seq s) (outgoing_part s).

(** What a request other than [smsdb_outgoing_add] does to [outgoing_msg]:
    the counter stays, and the messages left are messages that were there,
    in their order. *)
Definition msgs_kept (s s' : db) : Prop :=
  outgoing_msg_seq s' = outgoing_msg_seq s
  /\ sublist (outgoing_msg s') (outgoing_msg s).

(** A text in which the separator of the keys does not occur. *)
Fixpoint slash_free (s : string) : bool :=
  match s with
  | EmptyString => true
  | String c s' => negb (Ascii.eqb c "/") && slash_free s'
  end.


(** A pair whose key is its own: the id holds no separator, and the key
    ["id/addr"] is not cut at [DBKEY_MAX_LEN - 1] characters. *)
Definition well_keyed (id addr : string) : Prop :=
  slash_free id = true
  /\ (String.length id + String.length addr + 1 < DBKEY_MAX_LEN)%nat.

(** A request that is not a call of [smsdb_get_refid] for the pair
    [(id, addr)]: a call of another function, or a call of [smsdb_get_refid]
    for another pair with a key of its own. *)
Definition other_pair (id addr : string) (r : request) : Prop :=
  match r with
  | GetRefid id' addr' => well_keyed id' addr' /\ (id', addr') <> (id, addr)
  | _ => True
  end.

(** The values returned by the calls of [smsdb_get_refid] for one pair on a
    healthy engine, the call number [i] made after the requests [gaps !! i]. *)
Fixpoint refid_calls_among (dst_max : nat) (s : db) (id addr : string)
    (gaps : list (list (oracle * request))) : list Z :=
  match gaps with
  | [] => []
  | g :: gaps' =>
      let x := smsdb_get_refid healthy (run dst_max s g) id addr in
      x.1 :: refid_calls_among dst_max x.2 id addr gaps'
  end.

(** References are kept per pair, for every pair: a call for one pair
    leaves what is stored for every other pair. *)
Definition refid_per_pair : Prop :=
  forall (s : db) (id addr id' addr' : string),
    (id', addr') <> (id, addr) ->
    prev_refid (smsdb_get_refid healthy s id' addr').2 id addr = prev_refid s id addr.
End Smsdb.

(** ** The device monitor *)

Module Monitor.

Definition TASKPROCESSOR_HIGH_WATER : Z := 400.
Definition RESPONSE_READ_TIMEOUT : Z := 10000.
Definition UNHANDLED_COMMAND_TIMEOUT : Z := 500.

(** The task functions the monitor pushes onto the device's serializer. *)
Inductive task : Type :=
| handle_expired_reports_taskproc
| at_enqueue_ping_taskproc
| restart_monitor_taskproc
| cmd_timeout_taskproc
| at_response_taskproc (result : string).

(** What one loop iteration does that is visible outside the thread:
    [ast_taskprocessor_push] of a task (accepted or not), [at_wait] with its
    timeout in milliseconds, and [at_read]. *)
Inductive event : Type :=
| Push (t : task)
| Wait (timeout_ms : Z)
| Read.

(** How the iteration ends: [continue] (or the end of the loop body),
    [break] after a failed read, [goto e_cleanup], [goto e_restart]. *)
Inductive next : Type :=
| Continue
| Break
| Cleanup
| Restart.

Inductive tribool : Type :=
| TRIBOOL_FALSE
| TRIBOOL_TRUE
| TRIBOOL_NONE.

(** What [check_dev_status] reads: a nonzero [tty_status] of the data and
    audio descriptors, the configured [uac], whether [reopen_audio_port]
    got a descriptor, and a nonzero [pcm_status]. *)
Record dev_health : Type := DevHealth {
  data_lost : bool;
  uac : tribool;
  audio_lost : bool;
  audio_reopened : bool;
  pcm_lost : bool
}.

Definition check_dev_status (h : dev_health) : Z :=
  if data_lost h then -1
  else
    match uac h with
    | TRIBOOL_FALSE =>
        if audio_lost h then (if audio_reopened h then 0 else -1) else 0
    | TRIBOOL_TRUE => 0
    | TRIBOOL_NONE => if pcm_lost h then -1 else 0
    end.

(** [check_taskprocessor(tps, dev)] on the size [ast_taskprocessor_size]
    reports. *)
Definition check_taskprocessor (size : Z) : bool :=
  TASKPROCESSOR_HIGH_WATER <=? size.

(** What one iteration of the loop of [monitor_threadproc_pvt] observes of
    the device and of its collaborators. *)
Record observation : Type := Observation {
  (** [ast_mutex_trylock(&pvt->lock)] is nonzero: the lock is held elsewhere *)
  trylock_busy : bool;
  health : dev_health;
  (** [pvt->terminate_monitor], read under the lock *)
  terminate_requested : bool;
  (** [at_queue_timeout(pvt, &t)]: [Some t] when it returns 0 *)
  queue_timeout : option Z;
  tps_size : Z;
  (** [at_wait(fd, &t)] is nonzero: data is ready before the timeout *)
  fd_ready : bool;
  (** [at_read(dev, fd, &rb)] *)
  read_iovcnt : Z;
  (** the results [at_read_result_iov] extracts from the ring buffer *)
  results : list string;
  (** [ast_taskprocessor_push(tps, task, ...)] is nonzero *)
  push_rejected : task -> bool
}.

(** The drain loop: one response task per non-empty result (the task data
    is taken to be allocated); a rejected push leaves through [e_restart]. *)
Fixpoint dispatch_results (rejected : task -> bool) (rs : list string)
    (ev : list event) : list event * next :=
  match rs with
  | [] => (ev, Continue)
  | r :: rs' =>
      if Nat.eqb (String.length r) 0 then dispatch_results rejected rs' ev
      else
        let t := at_response_taskproc r in
        if rejected t then (ev ++ [Push t], Restart)
        else dispatch_results rejected rs' (ev ++ [Push t])
  end.

(** From [at_read] to the end of the loop body. *)
Definition read_and_dispatch (o : observation) (ev : list event)
    : list event * next :=
  if read_iovcnt o <? 0 then (ev ++ [Read], Break)
  else dispatch_results (push_rejected o) (results o) (ev ++ [Read]).

(** One iteration of [while (1)] in [monitor_threadproc_pvt]. *)
Definition monitor_iteration (o : observation) : list event * next :=
  let ev := [Push handle_expired_reports_taskproc] in
  if trylock_busy o then
    let t := RESPONSE_READ_TIMEOUT in
    if negb (fd_ready o) then
      (ev ++ [Wait t; Push at_enqueue_ping_taskproc], Continue)
    else read_and_dispatch o (ev ++ [Wait t])
  else if negb (check_dev_status (health o) =? 0) then (ev, Cleanup)
  else if terminate_requested o then (ev, Restart)
  else
    match queue_timeout o with
    | Some t =>
        if t <=? 0 then
          let ev :=
            ev ++ (if check_taskprocessor (tps_size o)
                   then [Push restart_monitor_taskproc] else []) in
          let ev := ev ++ [Push cmd_timeout_taskproc] in
          let t := UNHANDLED_COMMAND_TIMEOUT in
          if negb (fd_ready o) then (ev ++ [Wait t], Continue)
          else read_and_dispatch o (ev ++ [Wait t])
        else if negb (fd_ready o) then
          (ev ++ [Wait t; Push cmd_timeout_taskproc], Continue)
        else read_and_dispatch o (ev ++ [Wait t])
    | None =>
        let t := RESPONSE_READ_TIMEOUT in
        if negb (fd_ready o) then
          (ev ++ [Wait t]
              ++ (if check_taskprocessor (tps_size o)
                  then [Push restart_monitor_taskproc] else [])
              ++ [Push at_enqueue_ping_taskproc], Continue)
        else read_and_dispatch o (ev ++ [Wait t])
    end.

(** The device lock was acquired, the head command's deadline has elapsed
    and the serializer backlog has reached the high-water mark. *)
Definition overdue_and_backlogged (o : observation) : Prop :=
  trylock_busy o = false
  /\ (exists t, queue_timeout o = Some t /\ t <= 0)
  /\ TASKPROCESSOR_HIGH_WATER <= tps_size o.

(** The pushes and the wait of an iteration that finds the command overdue
    and the backlog high. *)
Definition restart_then_timeout : list event :=
  [Push handle_expired_reports_taskproc;
   Push restart_monitor_taskproc;
   Push cmd_timeout_taskproc;
   Wait UNHANDLED_COMMAND_TIMEOUT].

(** The task bodies that run on the serializer with the device locked. *)
Section Tasks.

(** The fields of [struct pvt] other than the terminate flag. *)
Variable dev : Type.

Record pvt : Type := Pvt {
  terminate_monitor : bool;
  pvt_dev : dev
}.

(** The fields of [struct at_queue_cmd] that [cmd_timeout] reads. *)
Record at_queue_cmd : Type := AtQueueCmd {
  cmd_length : Z;
  cmd_flags : Z
}.

(** Collaborators of at_queue.h and at_response.h: the ignore bit of the
    command flags, the head of the command queue, and
    [at_response(pvt, &pvt->empty_str, RES_TIMEOUT)] as its result and the
    device it leaves. *)
Variable ATQ_CMD_FLAG_IGNORE : Z.
Variable at_queue_head_cmd : pvt -> option at_queue_cmd.
Variable at_response_timeout : pvt -> Z * pvt.

Definition set_terminate_monitor (p : pvt) : pvt := Pvt true (pvt_dev p).

Definition restart_monitor (p : pvt) : pvt := set_terminate_monitor p.

Definition cmd_timeout (p : pvt) : pvt :=
  match at_queue_head_cmd p with
  | None => p
  | Some ecmd =>
      if negb (cmd_length ecmd =? 0) then p
      else
        let '(rc, p) := at_response_timeout p in
        if negb (rc =? 0) then set_terminate_monitor p
        else if negb (Z.land (cmd_flags ecmd) ATQ_CMD_FLAG_IGNORE =? 0) then p
        else set_terminate_monitor p
  end.

End Tasks.

Arguments Pvt {dev}.
Arguments terminate_monitor {dev}.
Arguments pvt_dev {dev}.
Arguments set_terminate_monitor {dev}.
Arguments restart_monitor {dev}.
Arguments cmd_timeout {dev}.

(** *** Notions used in the statements about the loop *)

(** The iteration holds the device lock, finds the device in order and no
    stop requested: it goes on to the deadline of the head command. *)
Definition proceeds_locked (o : observation) : Prop :=
  trylock_busy o = false
  /\ check_dev_status (health o) = 0
  /\ terminate_requested o = false.

(** The iteration reaches [at_read]: its wait ended with data ready. *)
Definition reads (o : observation) : Prop :=
  fd_ready o = true /\ (trylock_busy o = true \/ proceeds_locked o).

(** The timeouts of the waits of a trace, in order. *)
Definition waits (ev : list event) : list Z :=
  omap (fun e => match e with Wait t => Some t | _ => None end) ev.

(** The timeout the iteration gives [at_wait]: ten seconds when the device
    lock is busy or no command waits for its response, half a second when
    the head command is overdue, else the time the command has left. *)
Definition wait_timeout (o : observation) : Z :=
  if trylock_busy o then RESPONSE_READ_TIMEOUT
  else
    match queue_timeout o with
    | Some t => if t <=? 0 then UNHANDLED_COMMAND_TIMEOUT else t
    | None => RESPONSE_READ_TIMEOUT
    end.

(** The response tasks the drain loop has to push for the results it is
    given: one per non-empty result, in their order. *)
Definition response_tasks (rs : list string) : list task :=
  at_response_taskproc <$> filter (fun r => String.length r <> 0%nat) rs.

End Monitor.

(** ** Opening and closing the store *)

(** [smsdb_init] and [smsdb_atexit] with the functions under them, as
    computations on the file-scope variables of smsdb.c that record the
    calls they make to the engine.  The engine decides which calls succeed;
    on a NULL object it does what its manual says: a failed
    [sqlite3_prepare] leaves the statement NULL, [sqlite3_step] of a NULL
    statement does not answer SQLITE_DONE, [sqlite3_finalize] and
    [sqlite3_close] of NULL do nothing and succeed.  [sqlite3_close] of a
    handle that was closed before has no defined answer; the engine's
    answer is taken as for any other handle. *)

Module Lifecycle.

Import Sqlite.

(** Every statement of [DEFINE_SQL_STATEMENT]: those the exported functions
    execute, [purge_messages], and the six that create the schema. *)
Inductive sql : Type :=
| Query (s : stmt)
| purge_messages_stmt
| create_incoming_stmt
| create_index_stmt
| create_outgoingref_stmt
| create_outgoingmsg_stmt
| create_outgoingpart_stmt
| create_outgoingmsg_index_stmt.

#[global] Instance stmt_eq_dec : EqDecision stmt.
Proof. solve_decision. Defined.

#[global] Instance sql_eq_dec : EqDecision sql.
Proof. solve_decision. Defined.

(** The static [sqlite3* smsdb]: NULL, the connection [sqlite3_open] gave
    for a name, or the handle of a refused open, on which [sqlite3_close]
    has been called. *)
Inductive handle : Type :=
| NULL
| Live (dbname : string)
| Stale (dbname : string).

(** The file-scope variables of smsdb.c: the handle, and for every
    statement whether its [s##_stmt] is set. *)
Record statics : Type := Statics {
  smsdb : handle;
  prepared : sql -> bool
}.

(** The variables as the program starts. *)
Definition unloaded : statics := Statics NULL (fun _ => false).

Definition with_stmt (c : statics) (s : sql) (set : bool) : statics :=
  Statics (smsdb c) (fun s' => if decide (s' = s) then set else prepared c s').

(** What [sqlite3_open] answers: SQLITE_OK, or an error, with or without a
    handle written to [smsdb] (none when the engine has no memory for it). *)
Inductive opened : Type :=
| Opened
| Refused (handle_left : bool).

(** The engine under the life-cycle functions: which calls succeed
    ([sqlite3_step] is asked for a set statement only and succeeds with
    SQLITE_DONE). *)
Record engine : Type := Engine {
  sqlite3_open : string -> opened;
  sqlite3_prepare : sql -> bool;
  sqlite3_step : sql -> bool;
  sqlite3_finalize : sql -> bool;
  sqlite3_close : bool
}.

(** The calls made to the engine, in order (the reads of its error
    message for the log are left out). *)
Inductive engine_call : Type :=
| Opens (dbname : string)
| Closes
| Prepares (s : sql)
| Steps (s : sql)
| Resets (s : sql)
| Finalizes (s : sql).

(** A computation on the statics that calls the engine. *)
Definition M (A : Type) : Type :=
  engine -> statics -> A * statics * list engine_call.

Definition ret {A : Type} (a : A) : M A := fun _ c => (a, c, []).

Definition bind {A B : Type} (m : M A) (k : A -> M B) : M B :=
  fun e c =>
    let x := m e c in
    let y := k x.1.1 e x.1.2 in
    (y.1.1, y.1.2, x.2 ++ y.2).

Notation "x <- m ;; k" := (bind m (fun x => k))
  (at level 100, m at next level, right associativity).

(** [a || b || ...]: the operands are evaluated in order up to the first
    that is nonzero; the value is 1 then, and 0 when all are zero. *)
Fixpoint or_chain (ms : list (M Z)) : M Z :=
  match ms with
  | [] => ret 0
  | m :: ms' => r <- m ;; if r =? 0 then or_chain ms' else ret 1
  end.

(** Statements run one after the other, their results dropped. *)
Fixpoint for_each (f : sql -> M Z) (l : list sql) : M unit :=
  match l with
  | [] => ret tt
  | s :: l' => _ <- f s ;; for_each f l'
  end.

(** [init_stmt(&s##_stmt, s##_sql, sizeof(s##_sql))]: [sqlite3_prepare]
    sets the statement, or leaves it NULL when it fails. *)
Definition init_stmt (s : sql) : M Z :=
  fun e c =>
    if sqlite3_prepare e s then (0, with_stmt c s true, [Prepares s])
    else (-1, with_stmt c s false, [Prepares s]).

(** [clean_stmt(&s##_stmt, s##_sql)]: [sqlite3_finalize] of a NULL
    statement does nothing and succeeds. *)
Definition clean_stmt (s : sql) : M Z :=
  fun e c =>
    (if negb (prepared c s) || sqlite3_finalize e s then 0 else -1,
     with_stmt c s false,
     [Finalizes s]).

(** The statements in the order of [clean_statements]. *)
Definition all_statements : list sql :=
  [Query get_full_message_stmt; Query put_message_stmt; Query clear_messages_stmt;
   purge_messages_stmt; Query get_cnt_stmt;
   create_incoming_stmt; create_index_stmt; create_outgoingref_stmt;
   create_outgoingmsg_stmt; create_outgoingpart_stmt; create_outgoingmsg_index_stmt;
   Query ins_outgoingref_stmt; Query set_outgoingref_stmt; Query get_outgoingref_stmt;
   Query put_outgoingmsg_stmt; Query put_outgoingpart_stmt;
   Query del_outgoingmsg_stmt; Query del_outgoingpart_stmt;
   Query get_outgoingmsg_stmt; Query set_outgoingpart_stmt;
   Query get_outgoingpart_stmt; Query cnt_outgoingpart_stmt;
   Query cnt_all_outgoingpart_stmt; Query get_dst_stmt; Query get_all_status_stmt;
   Query get_expired_stmt].

Definition clean_statements : M unit := for_each clean_stmt all_statements.

(** The statements in the order of [init_statements]. *)
Definition runtime_statements : list sql :=
  [Query get_full_message_stmt; Query put_message_stmt; Query clear_messages_stmt;
   purge_messages_stmt; Query get_cnt_stmt;
   Query ins_outgoingref_stmt; Query set_outgoingref_stmt; Query get_outgoingref_stmt;
   Query put_outgoingmsg_stmt; Query put_outgoingpart_stmt;
   Query del_outgoingmsg_stmt; Query del_outgoingpart_stmt;
   Query get_outgoingmsg_stmt; Query get_outgoingpart_stmt;
   Query set_outgoingpart_stmt; Query cnt_outgoingpart_stmt;
   Query cnt_all_outgoingpart_stmt; Query get_dst_stmt; Query get_all_status_stmt;
   Query get_expired_stmt].

Definition init_statements : M Z := or_chain (init_stmt <$> runtime_statements).

(** One block of [db_create_smsdb]: the statement is prepared if it is not
    set (the result of [INIT_STMT] is dropped), then stepped; a step that
    does not end in SQLITE_DONE, as on a statement left NULL, sets
    [res = -1].  Leaving the block resets a set statement
    ([smsdb_stmt_end]). *)
Definition create_step (s : sql) (res : Z) : M Z :=
  fun e c =>
    let x := if prepared c s then (0, c, []) else init_stmt s e c in
    let c := x.1.2 in
    (if prepared c s && sqlite3_step e s then res else -1,
     c,
     x.2 ++ [Steps s] ++ (if prepared c s then [Resets s] else [])).

(** The statements in the order of [db_create_smsdb]. *)
Definition schema_statements : list sql :=
  [create_incoming_stmt; create_index_stmt; create_outgoingref_stmt;
   create_outgoingmsg_stmt; create_outgoingpart_stmt; create_outgoingmsg_index_stmt].

Definition db_create_smsdb : M Z :=
  res <- create_step create_incoming_stmt 0 ;;
  res <- create_step create_index_stmt res ;;
  res <- create_step create_outgoingref_stmt res ;;
  res <- create_step create_outgoingmsg_stmt res ;;
  res <- create_step create_outgoingpart_stmt res ;;
  create_step create_outgoingmsg_index_stmt res.

(** [strncmp(a, b, n) == 0]: the texts agree on their first [n] characters,
    or wholly when both end before. *)
Definition strncmp_eq (a b : string) (n : nat) : bool :=
  String.eqb (String.substring 0 n a) (String.substring 0 n b).

Section Open.

(** The macro [STRLEN] of the driver's headers and the configured
    [CONF_GLOBAL(sms_db)]. *)
Variable STRLEN : string -> nat.
Variable sms_db : string.

Definition db_name_in_memory (db : option string) : bool :=
  match db with
  | None => false
  | Some name => strncmp_eq name ":memory:" (STRLEN ":memory:")
  end.

Definition db_name_temporary (db : option string) : bool :=
  match db with
  | None => false
  | Some name => strncmp_eq name ":temporary:" (STRLEN ":temporary:")
  end.

(** The name [db_open] hands to [sqlite3_open]. *)
Definition dbname : string :=
  if db_name_in_memory (Some sms_db) then sms_db
  else if db_name_temporary (Some sms_db) then EmptyString
  else sms_db +:+ ".sqlite3".

(** [db_open()]: a refused open is followed by [sqlite3_close] on what it
    left in [smsdb], which stays there. *)
Definition db_open : M Z :=
  fun e c =>
    match sqlite3_open e dbname with
    | Opened => (0, Statics (Live dbname) (prepared c), [Opens dbname])
    | Refused handle_left =>
        (-1,
         Statics (if handle_left then Stale dbname else NULL) (prepared c),
         [Opens dbname; Closes])
    end.

(** [db_init()]. *)
Definition db_init : M Z :=
  fun e c =>
    match smsdb c with
    | NULL =>
        (r <- or_chain [db_open; db_create_smsdb; init_statements] ;;
         ret (if r =? 0 then 0 else -1)) e c
    | _ => (0, c, [])
    end.

(** [smsdb_init()]. *)
Definition smsdb_init : M Z :=
  r <- db_init ;; ret (if r =? 0 then 0 else -1).

End Open.

(** [smsdb_atexit()]: the handle is cleared only when the close succeeds;
    [sqlite3_close] of NULL does nothing and succeeds. *)
Definition smsdb_atexit : M unit :=
  _ <- clean_statements ;;
  fun e c =>
    let closed := match smsdb c with NULL => true | _ => sqlite3_close e end in
    (tt, if closed then Statics NULL (prepared c) else c, [Closes]).

(** *** Notions used in the statements *)

(** The statement of a block of [db_create_smsdb] can be stepped: it was
    set before, or [INIT_STMT] prepares it now. *)
Definition usable (e : engine) (c : statics) (s : sql) : bool :=
  prepared c s || sqlite3_prepare e s.

(** The blocks of [db_create_smsdb] for a list of statements, one after the
    other. *)
Fixpoint create_steps (l : list sql) (res : Z) : M Z :=
  match l with
  | [] => ret res
  | s :: l' => res' <- create_step s res ;; create_steps l' res'
  end.

(** The engine on which every call succeeds, and the engines on which one
    statement cannot be prepared, or cannot be stepped. *)
Definition sound : engine :=
  Engine (fun _ => Opened) (fun _ => true) (fun _ => true) (fun _ => true) true.

Definition failing_prepare (s : sql) : engine :=
  Engine (fun _ => Opened) (fun s' => negb (bool_decide (s' = s)))
    (fun _ => true) (fun _ => true) true.

Definition failing_step (s : sql) : engine :=
  Engine (fun _ => Opened) (fun _ => true)
    (fun s' => negb (bool_decide (s' = s))) (fun _ => true) true.

End Lifecycle.

(** ** Properties of the SMS store *)

Module SmsdbFacts.

Import Sqlite Smsdb.

(** *** Lists as tables *)

Section Tables.
Context {A : Type}.
Implicit Types (P : A -> Prop) (col : A -> Z) (l : list A).

Lemma filter_none P `{!forall x, Decision (P x)} l :
  Forall (fun x => ~ P x) l -> filter P l = [].
Proof.
  induction 1 as [|x l Hx _ IH]; [done|].
  by rewrite filter_cons_False.
Qed.

Lemma filter_all P `{!forall x, Decision (P x)} l :
  Forall P l -> filter P l = l.
Proof.
  induction 1 as [|x l Hx _ IH]; [done|].
  rewrite filter_cons_True by done. by f_equal.
Qed.

Lemma filter_nil_Forall P `{!forall x, Decision (P x)} l :
  filter P l = [] -> Forall (fun x => ~ P x) l.
Proof.
  intros Hnil. apply Forall_forall. intros x Hx HP.
  by eapply filter_nil_not_elem_of.
Qed.

(** A WHERE clause keeps the order of the rows. *)
Lemma ascending_filter col P `{!forall x, Decision (P x)} l :
  ascending col l -> ascending col (filter P l).
Proof.
  induction l as [|x l IH]; [done|]. intros [Hx Hl].
  rewrite filter_cons. destruct (decide (P x)); [|by apply IH].
  split; [|by apply IH].
  apply Forall_forall. intros y Hy. apply list_elem_of_filter in Hy as [_ Hy].
  rewrite Forall_forall in Hx. by apply Hx.
Qed.

(** A row appended behind smaller ones keeps the table ascending. *)
Lemma ascending_snoc col l x :
  ascending col l -> Forall (fun y => col y < col x) l -> ascending col (l ++ [x]).
Proof.
  induction l as [|y l IH]; [done|]. intros [Hy Hl] Hx.
  apply Forall_cons in Hx as [Hyx Hx].
  split; [|by apply IH].
  apply Forall_app. split; [done|]. by apply Forall_singleton.
Qed.




Lemma ascending_fmap_preserving (f : A -> A) col l :
  (forall x, col (f x) = col x) -> ascending col l -> ascending col (f <$> l).
Proof.
  intros Hf. induction l as [|x l IH]; [done|]. intros [Hx Hl].
  split; [|by apply IH].
  rewrite Forall_fmap. eapply Forall_impl; [exact Hx|].
  intros y Hy. cbn. by rewrite !Hf.
Qed.

(** ORDER BY returns the rows it is given, each once. *)
Lemma insert_by_perm col x l : insert_by col x l ≡ₚ x :: l.
Proof.
  induction l as [|y l IH]; [done|]. cbn.
  destruct (col x <? col y); [done|].
  rewrite IH. apply Permutation_swap.
Qed.

Lemma order_by_perm col l : order_by col l ≡ₚ l.
Proof.
  induction l as [|x l IH]; [done|]. cbn.
  by rewrite insert_by_perm, IH.
Qed.

(** ORDER BY on a column without repeated values returns the rows ascending. *)
Lemma insert_by_ascending col x l :
  Forall (fun y => col y <> col x) l ->
  ascending col l -> ascending col (insert_by col x l).
Proof.
  induction l as [|y l IH]; [by repeat constructor|].
  intros Hne [Hy Hl]. apply Forall_cons in Hne as [Hyx Hne]. cbn.
  destruct (Z.ltb_spec (col x) (col y)) as [Hlt|Hge].
  - split; [|by split]. constructor; [done|].
    eapply Forall_impl; [exact Hy|]. cbn. intros z Hz. lia.
  - split; [|by apply IH].
    apply Forall_forall. intros z Hz.
    rewrite insert_by_perm in Hz. apply elem_of_cons in Hz as [->|Hz]; [lia|].
    rewrite Forall_forall in Hy. by apply Hy.
Qed.

Lemma order_by_sorted col l :
  NoDup (col <$> l) -> ascending col (order_by col l).
Proof.
  induction l as [|x l IH]; [done|].
  rewrite fmap_cons, NoDup_cons. intros [Hx Hl]. cbn.
  apply insert_by_ascending; [|by apply IH].
  apply Forall_forall. intros y Hy Heq. apply Hx. rewrite <- Heq.
  apply list_elem_of_fmap_2. by rewrite <- (order_by_perm col l).
Qed.

End Tables.

(** ORDER BY commutes with a mapping of rows that carries the column along. *)
Lemma order_by_fmap {A B : Type} (f : A -> B) (colA : A -> Z) (colB : B -> Z)
    (l : list A) :
  (forall x, colB (f x) = colA x) ->
  order_by colB (f <$> l) = f <$> order_by colA l.
Proof.
  intros Hcol.
  assert (Hins : forall x l', insert_by colB (f x) (f <$> l')
                              = f <$> insert_by colA x l').
  { intros x l'. induction l' as [|y l' IH]; [done|]. cbn.
    rewrite !Hcol. destruct (colA x <? colA y); [done|].
    cbn. by rewrite IH. }
  induction l as [|x l IH]; [done|]. cbn. by rewrite IH, Hins.
Qed.

(** *** Reference ids ([smsdb_get_refid]) *)

(** An [int] holds a value of its range as it is. *)
Lemma c_int_small (z : Z) : - 2147483648 <= z <= INT_MAX -> c_int z = z.
Proof.
  unfold c_int, INT_MAX. intros Hz. rewrite Z.mod_small; lia.
Qed.

Lemma c_int_range (z : Z) : - 2147483648 <= c_int z <= INT_MAX.
Proof.
  unfold c_int, INT_MAX.
  pose proof (Z.mod_pos_bound (z + 2147483648) 4294967296 ltac:(lia)). lia.
Qed.

Lemma wrap_256 (r : Z) :
  0 <= r <= 255 -> (if 256 <=? r + 1 then 0 else r + 1) = (r + 1) mod 256.
Proof.
  intros Hr. destruct (Z.leb_spec 256 (r + 1)) as [H|H].
  - assert (r = 255) as -> by lia. reflexivity.
  - symmetry. apply Z.mod_small. lia.
Qed.

(** On a healthy engine and a table of bytes the call is an upsert of the
    successor modulo 256. *)
Lemma smsdb_get_refid_healthy (s : db) (id addr : string) :
  refs_in_range s ->
  smsdb_get_refid healthy s id addr =
    let r := (prev_refid s id addr + 1) mod 256 in
    (r, with_outgoing_ref s (<[ref_key id addr := r]> (outgoing_ref s))).
Proof.
  intros Hwf. unfold smsdb_get_refid, prev_refid, get_outgoingref, healthy.
  destruct (outgoing_ref s !! ref_key id addr) as [r|] eqn:Hk; cbn.
  - pose proof (Hwf _ _ Hk) as Hr. cbn in Hr.
    rewrite (c_int_small r) by (unfold INT_MAX; lia).
    destruct (Z.leb_spec 0 r) as [_|?]; [|lia].
    rewrite (c_int_small (r + 1)) by (unfold INT_MAX; lia).
    rewrite wrap_256 by lia.
    unfold set_outgoingref. do 3 f_equal.
    apply map_eq. intros j. rewrite lookup_alter, lookup_insert.
    destruct (decide (ref_key id addr = j)) as [<-|]; [by rewrite Hk|done].
  - unfold ins_outgoingref. rewrite Hk. reflexivity.
Qed.

(** [refs_in_range] is kept by the call, whatever the engine does. *)
Lemma smsdb_get_refid_in_range (flt : oracle) (s : db) (id addr : string) :
  refs_in_range s -> refs_in_range (smsdb_get_refid flt s id addr).2.
Proof.
  intros Hwf. unfold smsdb_get_refid.
  destruct (flt get_outgoingref_stmt (Bind 1)); [exact Hwf|].
  set (found := if flt get_outgoingref_stmt Step then None
                else get_outgoingref s (ref_key id addr)).
  assert (Hfound : forall r, found = Some r -> 0 <= r <= 255).
  { intros r. unfold found, get_outgoingref.
    destruct (flt get_outgoingref_stmt Step); [done|]. apply Hwf. }
  destruct found as [r|].
  - specialize (Hfound r eq_refl).
    rewrite (c_int_small r) by (unfold INT_MAX; lia).
    rewrite (c_int_small (r + 1)) by (unfold INT_MAX; lia).
    destruct (Z.leb_spec 0 r); [|lia]. cbn [fst snd].
    destruct (flt set_outgoingref_stmt (Bind 1)); [exact Hwf|].
    destruct (flt set_outgoingref_stmt (Bind 2)); [exact Hwf|].
    destruct (flt set_outgoingref_stmt Step); [exact Hwf|].
    unfold set_outgoingref, with_outgoing_ref. intros k v. cbn.
    rewrite lookup_alter.
    destruct (decide (ref_key id addr = k)) as [<-|]; [|apply Hwf].
    destruct (outgoing_ref s !! ref_key id addr); [|done].
    cbn. intros [= <-]. destruct (Z.leb_spec 256 (r + 1)); lia.
  - cbn.
    destruct (flt ins_outgoingref_stmt (Bind 1)); [exact Hwf|].
    destruct (flt ins_outgoingref_stmt (Bind 2)); [exact Hwf|].
    destruct (flt ins_outgoingref_stmt Step); [exact Hwf|].
    unfold ins_outgoingref.
    destruct (outgoing_ref s !! ref_key id addr) eqn:Hk; [exact Hwf|].
    unfold with_outgoing_ref, refs_in_range. cbn.
    apply map_Forall_insert_2; [|exact Hwf].
    change (c_int (255 + 1)) with 256.
    destruct (Z.leb_spec 256 256); lia.
Qed.

(** A value returned as a success is a byte, on every engine and table. *)
Lemma smsdb_get_refid_success_range (flt : oracle) (s : db) (id addr : string) :
  0 <= (smsdb_get_refid flt s id addr).1 -> (smsdb_get_refid flt s id addr).1 <= 255.
Proof.
  unfold smsdb_get_refid.
  destruct (flt get_outgoingref_stmt (Bind 1)); [cbn; lia|].
  destruct (if flt get_outgoingref_stmt Step then None
            else get_outgoingref s (ref_key id addr)) as [r|].
  - destruct (Z.leb_spec 0 (c_int r)); [|cbn; lia].
    destruct (flt set_outgoingref_stmt (Bind 1)); [cbn; lia|].
    destruct (flt set_outgoingref_stmt (Bind 2)); [cbn; lia|].
    destruct (flt set_outgoingref_stmt Step); [cbn; lia|].
    cbn [set_outgoingref fst snd]. generalize (c_int (c_int r + 1)). intros w.
    destruct (Z.leb_spec 256 w); cbn; lia.
  - cbn.
    destruct (flt ins_outgoingref_stmt (Bind 1)); [cbn; lia|].
    destruct (flt ins_outgoingref_stmt (Bind 2)); [cbn; lia|].
    destruct (flt ins_outgoingref_stmt Step); [cbn; lia|].
    change (if 256 <=? c_int (255 + 1) then 0 else c_int (255 + 1)) with 0.
    destruct (ins_outgoingref s 0 (ref_key id addr)); cbn; lia.
Qed.

(** The [i]-th of [n] successive calls returns the stored value advanced by
    [i + 1], modulo 256. *)
Lemma refid_calls_closed (n : nat) : forall (s : db) (id addr : string),
  refs_in_range s ->
  refid_calls n s id addr =
    (fun i => (prev_refid s id addr + 1 + Z.of_nat i) mod 256) <$> seq 0 n.
Proof.
  induction n as [|n IH]; intros s id addr Hwf; [reflexivity|].
  cbn [refid_calls]. cbn zeta.
  rewrite IH by (by apply smsdb_get_refid_in_range).
  rewrite smsdb_get_refid_healthy by assumption. cbn zeta. cbn [fst snd].
  cbn [seq fmap list_fmap]. f_equal.
  - f_equal. lia.
  - rewrite <- fmap_S_seq, <- list_fmap_compose. apply list_fmap_ext. intros _ i _.
    unfold prev_refid at 1, with_outgoing_ref. cbn. rewrite lookup_insert_eq. cbn.
    rewrite <- Z.add_assoc, Zplus_mod_idemp_l. f_equal. lia.
Qed.

Lemma cycle_nodup (c : Z) (n : nat) :
  (n <= 256)%nat -> NoDup ((fun i => (c + Z.of_nat i) mod 256) <$> seq 0 n).
Proof.
  intros Hn. apply NoDup_fmap_2_strong; [|apply NoDup_seq].
  intros i j Hi Hj Heq. apply elem_of_seq in Hi, Hj.
  rewrite !Z.mod_eq in Heq by lia.
  assert (Z.of_nat i - Z.of_nat j
          = 256 * ((c + Z.of_nat i) / 256 - (c + Z.of_nat j) / 256)) by lia.
  lia.
Qed.

Lemma cycle_covers (c v : Z) :
  0 <= v <= 255 -> v ∈ (fun i => (c + Z.of_nat i) mod 256) <$> seq 0 256.
Proof.
  intros Hv. apply list_elem_of_fmap.
  exists (Z.to_nat ((v - c) mod 256)).
  pose proof (Z.mod_pos_bound (v - c) 256 ltac:(lia)) as Hb.
  split.
  - rewrite Z2Nat.id by lia. rewrite Zplus_mod_idemp_r.
    replace (c + (v - c)) with v by lia. symmetry. apply Z.mod_small. lia.
  - apply elem_of_seq. lia.
Qed.

(** *** Incoming parts ([smsdb_put]) *)

(** [smsdb_put] on a healthy engine. *)
Lemma smsdb_put_healthy (now ttl : Z) (s : db) (id addr : string)
    (ref parts order : Z) (msg : option string) :
  smsdb_put healthy now ttl s id addr ref parts order msg =
    let key := incoming_key id addr ref parts in
    let s1 := put_message s key order (now + ttl) msg in
    let cnt := get_cnt s1 key in
    if (0 <? cnt) && (order =? parts) then
      let y := copy_parts (get_full_message s1 key) cnt EmptyString in
      (y.1, Some y.2, if 0 <=? y.1 then clear_messages s1 key else s1)
    else (cnt, None, s1).
Proof.
  unfold smsdb_put, healthy. cbn -[Z.ltb Z.leb Z.eqb].
  destruct (_ && _); [|reflexivity].
  destruct (copy_parts _ _ _) as [r out]. cbn [fst snd].
  by destruct (0 <=? r).
Qed.

Lemma get_cnt_put_message (s : db) (key : string) (order e : Z) (m : option string) :
  get_cnt (put_message s key order e m) key =
    Z.of_nat (length (filter (fun r => in_key r = key /\ in_seqorder r <> order)
                        (incoming s))) + 1.
Proof.
  unfold get_cnt, put_message, with_incoming. cbn.
  rewrite filter_app, length_app, list_filter_filter.
  rewrite filter_cons_True by done. cbn.
  rewrite Nat2Z.inj_add. f_equal. do 2 f_equal.
  apply list_filter_iff. intros r. tauto.
Qed.

Lemma get_cnt_put_message_pos (s : db) (key : string) (order e : Z) (m : option string) :
  0 < get_cnt (put_message s key order e m) key.
Proof. rewrite get_cnt_put_message. lia. Qed.

(** INSERT OR REPLACE twice on one primary key is the second one alone. *)
Lemma put_message_twice (s : db) (key : string) (order e1 e2 : Z)
    (m1 m2 : option string) :
  put_message (put_message s key order e1 m1) key order e2 m2 =
  put_message s key order e2 m2.
Proof.
  unfold put_message, with_incoming. cbn. f_equal.
  rewrite filter_app, list_filter_filter.
  rewrite filter_cons_False by (cbn; tauto). rewrite filter_nil, app_nil_r.
  f_equal. apply list_filter_iff. tauto.
Qed.

Lemma rows_at_put_message (s : db) (key : string) (order e : Z) (m : option string) :
  rows_at (put_message s key order e m) key order = [IncomingRow key order e m].
Proof.
  unfold rows_at, put_message, with_incoming. cbn.
  rewrite filter_app, list_filter_filter.
  rewrite filter_cons_True by done. rewrite filter_nil.
  rewrite filter_none; [done|]. apply Forall_forall. tauto.
Qed.

(** On a healthy engine the concatenate-and-delete step runs exactly when
    [order = parts]: the inserted row makes the count positive, and the count
    is compared with nothing else. *)
Lemma smsdb_put_writes_out_iff (now ttl : Z) (s : db) (id addr : string)
    (ref parts order : Z) (msg : option string) :
  (smsdb_put healthy now ttl s id addr ref parts order msg).1.2 = None
  <-> order <> parts.
Proof.
  rewrite smsdb_put_healthy. cbn zeta.
  pose proof (get_cnt_put_message_pos s (incoming_key id addr ref parts)
                order (now + ttl) msg) as Hpos.
  destruct (Z.ltb_spec 0 (get_cnt (put_message s (incoming_key id addr ref parts)
                                     order (now + ttl) msg)
                            (incoming_key id addr ref parts))); [|lia].
  destruct (Z.eqb_spec order parts); cbn; split; intros; done.
Qed.

(** *** A message whose last part arrives last *)

Lemma append_nil_r (s : string) : s +:+ EmptyString = s.
Proof. induction s as [|c s IH]; [done|]. exact (f_equal (String c) IH). Qed.

Lemma append_assoc (a b c : string) : (a +:+ b) +:+ c = a +:+ (b +:+ c).
Proof. induction a as [|x a IH]; [done|]. exact (f_equal (String x) IH). Qed.

Lemma copy_parts_texts (texts : list string) (res : Z) (out : string) :
  copy_parts (Some <$> texts) res out = (res, out +:+ join texts).
Proof.
  revert out. induction texts as [|t texts IH]; intros out.
  - cbn. unfold join. cbn. by rewrite append_nil_r.
  - cbn [fmap list_fmap copy_parts]. rewrite IH.
    unfold join. cbn [foldr]. by rewrite append_assoc.
Qed.

Lemma with_incoming_id (s : db) : with_incoming s (incoming s) = s.
Proof. by destruct s. Qed.

(** [smsdb_put] touches no table but [incoming]. *)
Lemma smsdb_put_frame (now ttl : Z) (s : db) (id addr : string)
    (ref parts order : Z) (msg : option string) (t : list incoming_row) :
  with_incoming (smsdb_put healthy now ttl s id addr ref parts order msg).2 t
  = with_incoming s t.
Proof.
  rewrite smsdb_put_healthy. cbn zeta.
  destruct (_ && _); [|reflexivity]. cbn [snd].
  by destruct (0 <=? _).
Qed.

Section OneMessage.
Variables (ttl : Z) (id addr : string) (ref parts : Z).
Let key := incoming_key id addr ref parts.

Lemma stored_filter_key (s : db) others got :
  stored key ttl s others got ->
  filter (fun r => in_key r = key) (incoming s) = part_row key ttl <$> got.
Proof.
  intros [-> Hothers]. rewrite filter_app, filter_none, filter_all; [done| |].
  - apply Forall_fmap, Forall_forall. by intros c _.
  - eapply Forall_impl; [exact Hothers|]. cbn. tauto.
Qed.

Lemma stored_get_cnt (s : db) others got :
  stored key ttl s others got -> get_cnt s key = Z.of_nat (length got).
Proof.
  intros Hs. unfold get_cnt. by rewrite (stored_filter_key _ _ _ Hs), length_fmap.
Qed.

Lemma stored_empty (s : db) :
  get_cnt s key = 0 -> stored key ttl s (incoming s) [].
Proof.
  unfold get_cnt. intros Hcnt. split; [by rewrite app_nil_r|].
  apply (filter_nil_Forall (fun r => in_key r = key)), nil_length_inv. lia.
Qed.

Lemma stored_put_message (s : db) others got (now order : Z) (text : string) :
  stored key ttl s others got ->
  order ∉ part_order <$> got ->
  stored key ttl (put_message s key order (now + ttl) (Some text)) others
    (got ++ [(now, order, text)]).
Proof.
  intros [Hs Hothers] Hnew. split; [|done].
  unfold put_message, with_incoming. cbn [incoming]. rewrite Hs.
  rewrite filter_all, fmap_app, <- app_assoc; [done|].
  apply Forall_app. split.
  - eapply Forall_impl; [exact Hothers|]. cbn. tauto.
  - apply Forall_fmap, Forall_forall. intros c' Hc' [_ Ho]. cbn in Ho.
    apply Hnew. apply list_elem_of_fmap. by exists c'.
Qed.

(** A part other than the last is stored and counted. *)
Lemma smsdb_put_stores (now : Z) (s : db) others got (order : Z) (text : string) :
  stored key ttl s others got ->
  order ∉ part_order <$> got ->
  order <> parts ->
  let x := smsdb_put healthy now ttl s id addr ref parts order (Some text) in
  x.1 = (Z.of_nat (length got) + 1, None)
  /\ stored key ttl x.2 others (got ++ [(now, order, text)]).
Proof.
  intros Hs Hnew Hne. cbn zeta. rewrite smsdb_put_healthy. cbn zeta. fold key.
  apply Z.eqb_neq in Hne. rewrite Hne, andb_false_r. cbn [fst snd].
  pose proof (stored_put_message s others got now order text Hs Hnew) as Hs1.
  split; [|exact Hs1].
  rewrite (stored_get_cnt _ _ _ Hs1), length_app. cbn. do 2 f_equal. lia.
Qed.

(** The last part takes all parts out, ascending by order. *)
Lemma smsdb_put_completes (now : Z) (s : db) others got (text : string) :
  stored key ttl s others got ->
  parts ∉ part_order <$> got ->
  smsdb_put healthy now ttl s id addr ref parts parts (Some text)
  = (Z.of_nat (length got) + 1,
     Some (join (snd <$> order_by part_order (got ++ [(now, parts, text)]))),
     with_incoming s others).
Proof.
  intros Hs Hnew. rewrite smsdb_put_healthy. cbn zeta. fold key.
  pose proof (stored_put_message s others got now parts text Hs Hnew) as Hs1.
  set (s1 := put_message s key _ _ _) in *.
  assert (Hcnt : get_cnt s1 key = Z.of_nat (length got) + 1).
  { rewrite (stored_get_cnt _ _ _ Hs1), length_app. cbn. lia. }
  rewrite Hcnt, Z.eqb_refl.
  destruct (Z.ltb_spec 0 (Z.of_nat (length got) + 1)); [|lia]. cbn [andb].
  unfold get_full_message. rewrite (stored_filter_key _ _ _ Hs1).
  rewrite (order_by_fmap (part_row key ttl) part_order in_seqorder) by done.
  rewrite <- list_fmap_compose.
  change (in_message ∘ part_row key ttl) with (Some ∘ (snd : Z * Z * string -> string)).
  rewrite list_fmap_compose, copy_parts_texts. cbn [fst snd].
  destruct (Z.leb_spec 0 (Z.of_nat (length got) + 1)); [|lia].
  f_equal. unfold clear_messages, with_incoming.
  destruct Hs1 as [-> Hothers]. f_equal.
  rewrite filter_app, filter_all, filter_none; [by rewrite app_nil_r| |done].
  apply Forall_fmap, Forall_forall. intros c _ Hc. by apply Hc.
Qed.

Lemma put_calls_last_part_last_from (cs : list (Z * Z * string)) :
  forall (s : db) others got (now : Z) (text : string),
    stored key ttl s others got ->
    NoDup (part_order <$> got ++ cs) ->
    parts ∉ part_order <$> got ++ cs ->
    put_calls ttl s id addr ref parts (part_call <$> cs ++ [(now, parts, text)])
    = (((fun i => (Z.of_nat i + 1, None)) <$> seq (length got) (length cs))
       ++ [(Z.of_nat (length (got ++ cs)) + 1,
            Some (join (snd <$> order_by part_order
                                  (got ++ cs ++ [(now, parts, text)]))))],
       with_incoming s others).
Proof.
  induction cs as [|[[now0 order0] text0] cs IH];
    intros s others got now text Hs Hnodup Hparts.
  - rewrite app_nil_r in *. cbn [app fmap list_fmap put_calls part_call fst snd].
    rewrite (smsdb_put_completes now s others got text Hs Hparts). reflexivity.
  - cbn [app fmap list_fmap put_calls part_call fst snd length seq].
    assert (Hnew : order0 ∉ part_order <$> got).
    { rewrite fmap_app, fmap_cons in Hnodup.
      apply NoDup_app in Hnodup as (_ & Hdisj & _).
      intros Hin. apply (Hdisj _ Hin). by left. }
    assert (Hne : order0 <> parts).
    { intros ->. apply Hparts. rewrite fmap_app, fmap_cons.
      apply elem_of_app. right. by left. }
    destruct (smsdb_put_stores now0 s others got order0 text0 Hs Hnew Hne)
      as [Hres Hs1].
    rewrite Hres.
    rewrite (IH _ others (got ++ [(now0, order0, text0)]) now text Hs1).
    + rewrite smsdb_put_frame, <- !app_assoc. cbn [app].
      rewrite length_app, Nat.add_1_r. reflexivity.
    + by rewrite <- app_assoc.
    + by rewrite <- app_assoc.
Qed.

End OneMessage.

(** X2.  When all parts but the last arrive, in any order and each once,
    and the last part arrives last, the completing call returns the number
    of parts stored, writes their texts joined in ascending order of
    sequence, and leaves the database as it was before the first part. *)
Theorem smsdb_put_last_part_last (ttl : Z) (s : db) (id addr : string)
    (ref parts : Z) (cs : list (Z * Z * string)) (now : Z) (text : string) :
  get_cnt s (incoming_key id addr ref parts) = 0 ->
  NoDup (part_order <$> cs) ->
  parts ∉ part_order <$> cs ->
  put_calls ttl s id addr ref parts (part_call <$> cs ++ [(now, parts, text)])
  = (((fun i => (Z.of_nat i + 1, None)) <$> seq 0 (length cs))
     ++ [(Z.of_nat (length cs) + 1,
          Some (join (snd <$> order_by part_order (cs ++ [(now, parts, text)]))))],
     s).
Proof.
  intros Hcnt Hnodup Hparts.
  rewrite (put_calls_last_part_last_from ttl id addr ref parts cs s (incoming s) []
             now text) by (try apply stored_empty; done).
  by rewrite with_incoming_id.
Qed.

(** Three parts arriving as 2, 1, 3. *)
Lemma smsdb_put_last_part_last_witness :
  put_calls 60 empty_db "A" "B" 7 3
    [(0, 2, Some "l"); (0, 1, Some "Hel"); (0, 3, Some "o")]
  = ([(1, None); (2, None); (3, Some "Hello")], empty_db).
Proof.
  assert (Hnodup : NoDup (part_order <$> [(0, 2, "l"); (0, 1, "Hel")])).
  { apply (bool_decide_unpack _). vm_compute. exact I. }
  assert (Hparts : 3 ∉ part_order <$> [(0, 2, "l"); (0, 1, "Hel")]).
  { apply (bool_decide_unpack _). vm_compute. exact I. }
  exact (smsdb_put_last_part_last 60 empty_db "A" "B" 7 3
           [(0, 2, "l"); (0, 1, "Hel")] 0 "o" eq_refl Hnodup Hparts).
Defined.

(** C6, as amended.  On a healthy engine, when a call of [smsdb_put] does not
    run the concatenate-and-delete step (nothing is written to [out]), a
    second call with the same key and order and a new text writes nothing to
    [out] either, leaves exactly one row for that key and order, carrying the
    new text, and returns the row count the first call returned; the database
    is the one the second call alone would have left. *)
Theorem smsdb_put_duplicate_replaces (now1 now2 ttl : Z) (s : db)
    (id addr : string) (ref parts order : Z) (m1 m2 : option string) :
  (smsdb_put healthy now1 ttl s id addr ref parts order m1).1.2 = None ->
  duplicate_replaces now1 now2 ttl s id addr ref parts order m1 m2
  /\ (let x1 := smsdb_put healthy now1 ttl s id addr ref parts order m1 in
      let x2 := smsdb_put healthy now2 ttl x1.2 id addr ref parts order m2 in
      x2.1.2 = None
      /\ get_cnt x2.2 (incoming_key id addr ref parts)
         = get_cnt x1.2 (incoming_key id addr ref parts)
      /\ x2.2 = (smsdb_put healthy now2 ttl s id addr ref parts order m2).2).
Proof.
  intros Hnone. apply smsdb_put_writes_out_iff, Z.eqb_neq in Hnone.
  set (key := incoming_key id addr ref parts).
  assert (Hput : forall now s0 m,
             smsdb_put healthy now ttl s0 id addr ref parts order m =
             (get_cnt (put_message s0 key order (now + ttl) m) key, None,
              put_message s0 key order (now + ttl) m)).
  { intros now s0 m. rewrite smsdb_put_healthy. cbn zeta.
    by rewrite Hnone, andb_false_r. }
  unfold duplicate_replaces. cbn zeta. fold key.
  rewrite !Hput. cbn [fst snd].
  rewrite put_message_twice, rows_at_put_message, !get_cnt_put_message.
  done.
Qed.

(** The theorem at the first part of a two-part message, stored twice. *)
Lemma smsdb_put_duplicate_replaces_witness :
  (smsdb_put healthy 0 60 empty_db "A" "B" 7 2 1 (Some "Hel")).1.2 = None
  /\ duplicate_replaces 0 5 60 empty_db "A" "B" 7 2 1 (Some "Hel") (Some "HEL").
Proof.
  assert (H : (smsdb_put healthy 0 60 empty_db "A" "B" 7 2 1 (Some "Hel")).1.2 = None)
    by reflexivity.
  split; [exact H|].
  exact (proj1 (smsdb_put_duplicate_replaces 0 5 60 empty_db "A" "B" 7 2 1
                  (Some "Hel") (Some "HEL") H)).
Defined.

(** C6, as stated, fails when the first call completes the message: a
    single-part message stored twice is concatenated and deleted twice, and no
    row is left for its key and order; and the last part of a two-part
    message stored twice counts two rows the first time and one the second. *)
Lemma smsdb_put_duplicate_after_completion :
  ~ duplicate_replaces 0 0 60 empty_db "A" "B" 7 1 1 (Some "a") (Some "b")
  /\ ~ duplicate_replaces 0 0 60
        (smsdb_put healthy 0 60 empty_db "A" "B" 7 2 1 (Some "a")).2
        "A" "B" 7 2 2 (Some "b") (Some "c")
  /\ put_calls 60 empty_db "A" "B" 7 1 [(0, 1, Some "a"); (0, 1, Some "b")]
     = ([(1, Some "a"); (1, Some "b")], empty_db)
  /\ put_calls 60 empty_db "A" "B" 7 2
       [(0, 1, Some "a"); (0, 2, Some "b"); (0, 2, Some "c")]
     = ([(1, None); (2, Some "ab"); (1, Some "c")], empty_db).
Proof.
  split; [intros [Hrows _]; vm_compute in Hrows; discriminate|].
  split; [intros [Hrows _]; vm_compute in Hrows; discriminate|].
  split; vm_compute; reflexivity.
Qed.

(** C2 does not hold of the code.  With an empty table, the call for order
    2 of a two-part message counts one row, not two, and still writes the
    lone part to [out] and deletes the row: the count is compared with 0,
    never with [parts]. *)
Theorem smsdb_put_completes_on_last_order :
  smsdb_put healthy 0 60 empty_db "A" "B" 7 2 2 (Some "lo")
  = (1, Some "lo", empty_db).
Proof. vm_compute. reflexivity. Qed.

(** C1 does not hold of the code.  The two parts of a message arrive last
    part first: the first call hands out the lone second part and deletes
    it; the call that supplies the remaining part returns 1, writes nothing,
    and leaves its row behind. *)
Theorem smsdb_put_last_part_first :
  put_calls 60 empty_db "A" "B" 7 2 [(0, 2, Some "lo"); (0, 1, Some "Hel")]
  = ([(1, Some "lo"); (1, None)],
     with_incoming empty_db [IncomingRow "A/B/7/2" 1 60 (Some "Hel")]).
Proof. vm_compute. reflexivity. Qed.

(** The scenario of the specification, parts in order. *)
Example smsdb_put_hello :
  put_calls 60 empty_db "A" "B" 7 2 [(0, 1, Some "Hel"); (0, 2, Some "lo")]
  = ([(1, None); (2, Some "Hello")], empty_db).
Proof. vm_compute. reflexivity. Qed.

(** C8 does not hold of the code.  One part of a three-part message is
    stored and the insert of the second fails in [sqlite3_step]: the [-1] is
    overwritten by the row count, and the call returns 1. *)
Theorem smsdb_put_masks_insert_failure :
  let s := (smsdb_put healthy 0 60 empty_db "A" "B" 7 3 1 (Some "a")).2 in
  smsdb_put (failing put_message_stmt Step) 0 60 s "A" "B" 7 3 2 (Some "b")
  = (1, None, s).
Proof. vm_compute. reflexivity. Qed.

(** X16.  Whatever fails in the insert or in the row count, the value
    [smsdb_put] returns without entering the concatenation step is the
    column read of line 429, never negative. *)
Lemma smsdb_put_row_count_nonneg (flt : oracle) (now ttl : Z) (s : db)
    (id addr : string) (ref parts order : Z) (msg : option string) :
  order <> parts ->
  0 <= (smsdb_put flt now ttl s id addr ref parts order msg).1.1.
Proof.
  intros Hne. apply Z.eqb_neq in Hne. unfold smsdb_put.
  set (ins := if flt put_message_stmt (Bind 1) then _ else _).
  destruct ins as [res s1].
  set (cnt := if flt get_cnt_stmt (Bind 1) then _ else _).
  destruct cnt as [res' row] eqn:Hcnt.
  rewrite Hne, andb_false_r. cbn [fst].
  assert (Hrow : row = None \/ row = Some (get_cnt s1 (incoming_key id addr ref parts))).
  { subst cnt. destruct (flt get_cnt_stmt (Bind 1)); [left; congruence|].
    destruct (flt get_cnt_stmt Step); [left; congruence|right; congruence]. }
  destruct Hrow as [-> | ->]; cbn; [lia|]. unfold get_cnt. lia.
Qed.

(** *** The table of parts under every request *)

Lemma get_outgoingmsg_uid (s : db) (uid : Z) (m : outgoing_msg_row) :
  get_outgoingmsg s uid = Some m -> msg_uid m = uid.
Proof.
  unfold get_outgoingmsg. intros Hm. apply head_Some_elem_of in Hm.
  by apply list_elem_of_filter in Hm as [? _].
Qed.



(** The UPDATE of a status touches neither keys, nor rowids, nor owners. *)
Lemma with_status_key st partid p : part_key (with_status st partid p) = part_key p.
Proof. unfold with_status. by destruct (decide _). Qed.

Lemma with_status_msg st partid p : part_msg (with_status st partid p) = part_msg p.
Proof. unfold with_status. by destruct (decide _). Qed.

Lemma with_status_rowid st partid p : part_rowid (with_status st partid p) = part_rowid p.
Proof. unfold with_status. by destruct (decide _). Qed.

Lemma outgoing_part_set (s : db) (st partid : Z) :
  outgoing_part (set_outgoingpart s st partid)
  = with_status st partid <$> outgoing_part s.
Proof. reflexivity. Qed.

Lemma outgoing_part_del (s : db) (uid : Z) :
  outgoing_part (del_outgoingpart (del_outgoingmsg s uid) uid)
  = filter (fun q => part_msg q <> uid) (outgoing_part s).
Proof. reflexivity. Qed.

Lemma outgoing_msg_del (s : db) (uid : Z) :
  outgoing_msg (del_outgoingpart (del_outgoingmsg s uid) uid)
  = filter (fun m => msg_uid m <> uid) (outgoing_msg s).
Proof. reflexivity. Qed.

Lemma next_rowid_above (t : list outgoing_part_row) :
  Forall (fun p => part_rowid p < next_rowid t) t.
Proof.
  unfold next_rowid. induction t as [|p t IH]; [done|]. cbn.
  constructor; [lia|]. eapply Forall_impl; [exact IH|]. cbn. lia.
Qed.

(** [smsdb_put] touches no table but [incoming], on any engine. *)
Lemma smsdb_put_outgoing (flt : oracle) (now ttl : Z) (s : db) (id addr : string)
    (ref parts order : Z) (msg : option string) (t : list incoming_row) :
  with_incoming (smsdb_put flt now ttl s id addr ref parts order msg).2 t
  = with_incoming s t.
Proof.
  unfold smsdb_put.
  set (ins := if flt put_message_stmt (Bind 1) then _ else _).
  assert (Hins : with_incoming ins.2 t = with_incoming s t).
  { subst ins. by repeat (destruct (flt put_message_stmt _); [done|]). }
  destruct ins as [res s1]. cbn [snd] in Hins.
  set (cnt := if flt get_cnt_stmt (Bind 1) then _ else _).
  destruct cnt as [res' row].
  destruct (_ && _); [|done].
  set (full := if flt get_full_message_stmt (Bind 1) then _ else _).
  destruct full as [res2 out].
  destruct (0 <=? res2); [|done].
  by repeat (destruct (flt clear_messages_stmt _); [done|]).
Qed.

Lemma smsdb_get_refid_parts (flt : oracle) (s : db) (id addr : string) :
  outgoing_part (smsdb_get_refid flt s id addr).2 = outgoing_part s.
Proof.
  unfold smsdb_get_refid.
  destruct (flt get_outgoingref_stmt (Bind 1)); [done|].
  destruct (if flt get_outgoingref_stmt Step then None else _) as [r|].
  - destruct (0 <=? c_int r); [|done].
    by repeat (destruct (flt set_outgoingref_stmt _); [done|]).
  - cbn [Z.leb Z.compare].
    repeat (destruct (flt ins_outgoingref_stmt _); [done|]).
    unfold ins_outgoingref. by destruct (outgoing_ref s !! _).
Qed.

Lemma smsdb_outgoing_add_parts (flt : oracle) (now : Z) (s : db)
    (id addr : string) (cnt ttl srr : Z) :
  outgoing_part (smsdb_outgoing_add flt now s id addr cnt ttl srr).2 = outgoing_part s
  /\ outgoing_ref (smsdb_outgoing_add flt now s id addr cnt ttl srr).2 = outgoing_ref s.
Proof.
  unfold smsdb_outgoing_add.
  by repeat (destruct (flt put_outgoingmsg_stmt _); [done|]).
Qed.

Lemma clear_if_finished_refs (flt : oracle) (res : Z) (s : db) (uid : Z) :
  outgoing_ref (clear_if_finished flt res s uid).2 = outgoing_ref s.
Proof.
  unfold clear_if_finished, smsdb_outgoing_clear_nolock.
  destruct (0 <=? res); [|done].
  by destruct (flt del_outgoingmsg_stmt (Bind 1)), (flt del_outgoingmsg_stmt Step),
    (flt del_outgoingpart_stmt (Bind 1)), (flt del_outgoingpart_stmt Step).
Qed.

(** A property of the table of parts that deleting rows and writing a
    status keep is kept by every request that stores no part; if storing a
    part under a free key keeps it too, it is kept by every request. *)
Section PartTable.
Variable Q : list outgoing_part_row -> Prop.
Hypothesis Q_filter :
  forall (P : outgoing_part_row -> Prop) (dec : forall p, Decision (P p)) t,
    Q t -> Q (filter P t).
Hypothesis Q_status : forall st partid t, Q t -> Q (with_status st partid <$> t).

Lemma clear_if_finished_parts (flt : oracle) (res : Z) (s : db) (uid : Z) :
  Q (outgoing_part s) -> Q (outgoing_part (clear_if_finished flt res s uid).2).
Proof.
  intros Hq. unfold clear_if_finished, smsdb_outgoing_clear_nolock.
  destruct (0 <=? res); [|done].
  destruct (flt del_outgoingmsg_stmt (Bind 1)), (flt del_outgoingmsg_stmt Step),
    (flt del_outgoingpart_stmt (Bind 1)), (flt del_outgoingpart_stmt Step);
    cbn; try done; by apply Q_filter.
Qed.

Lemma smsdb_outgoing_part_status_parts (flt : oracle) (s : db)
    (id addr : string) (mr st : Z) :
  Q (outgoing_part s) ->
  Q (outgoing_part (smsdb_outgoing_part_status flt s id addr mr st).2)
  /\ outgoing_ref (smsdb_outgoing_part_status flt s id addr mr st).2 = outgoing_ref s.
Proof.
  intros Hq. unfold smsdb_outgoing_part_status.
  set (got := if flt get_outgoingpart_stmt (Bind 1) then _ else _).
  destruct got as [[res partid] uid].
  set (upd := if 0 <=? res then _ else _).
  assert (Hupd : Q (outgoing_part upd.2) /\ outgoing_ref upd.2 = outgoing_ref s).
  { subst upd. destruct (0 <=? res); [|done].
    repeat (destruct (flt set_outgoingpart_stmt _); [done|]).
    split; [|done]. by apply Q_status. }
  destruct upd as [res1 s1]. cbn [snd] in Hupd. destruct Hupd as [Hupd Hrefs].
  set (res2 := if 0 <=? res1 then _ else res1).
  set (all := if 0 <=? res2 then _ else _).
  destruct all as [res3 status_all].
  pose proof (clear_if_finished_parts flt res3 s1 uid Hupd) as Hclear.
  pose proof (clear_if_finished_refs flt res3 s1 uid) as Hclear'.
  destruct (clear_if_finished flt res3 s1 uid). cbn [snd] in *.
  split; [done|congruence].
Qed.

Lemma smsdb_outgoing_clear_parts (dst_max : nat) (flt : oracle) (s : db) (uid : Z) :
  Q (outgoing_part s) ->
  Q (outgoing_part (smsdb_outgoing_clear dst_max flt s uid).2)
  /\ outgoing_ref (smsdb_outgoing_clear dst_max flt s uid).2 = outgoing_ref s.
Proof.
  intros Hq. unfold smsdb_outgoing_clear.
  set (dst := if flt get_dst_stmt (Bind 1) then _ else _). destruct dst as [res d].
  pose proof (clear_if_finished_parts flt res s uid Hq) as Hclear.
  pose proof (clear_if_finished_refs flt res s uid) as Hclear'.
  by destruct (clear_if_finished flt res s uid).
Qed.

Lemma smsdb_outgoing_purge_one_parts (dst_max : nat) (flt : oracle) (now : Z) (s : db) :
  Q (outgoing_part s) ->
  Q (outgoing_part (smsdb_outgoing_purge_one dst_max flt now s).2)
  /\ outgoing_ref (smsdb_outgoing_purge_one dst_max flt now s).2 = outgoing_ref s.
Proof.
  intros Hq. unfold smsdb_outgoing_purge_one.
  destruct (if flt get_expired_stmt Step then None else _) as [m|]; [|done].
  cbn [fst snd].
  pose proof (clear_if_finished_parts flt (-1) s (msg_uid m) Hq) as Hclear.
  pose proof (clear_if_finished_refs flt (-1) s (msg_uid m)) as Hclear'.
  by destruct (clear_if_finished flt (-1) s (msg_uid m)).
Qed.

Lemma serve_parts (dst_max : nat) (flt : oracle) (s : db) (r : request) :
  stores_no_part r ->
  Q (outgoing_part s) -> Q (outgoing_part (serve dst_max flt s r)).
Proof.
  intros Hr Hq. destruct r; cbn [serve]; [| | | | done | |].
  - pose proof (smsdb_put_outgoing flt now ttl s id addr ref parts order msg []) as Hf.
    injection Hf as _ _ _ Hpart. by rewrite Hpart.
  - by rewrite smsdb_get_refid_parts.
  - by rewrite (proj1 (smsdb_outgoing_add_parts _ _ _ _ _ _ _ _)).
  - by apply smsdb_outgoing_clear_parts.
  - by apply smsdb_outgoing_part_status_parts.
  - by apply smsdb_outgoing_purge_one_parts.
Qed.

Lemma run_parts (dst_max : nat) (rs : list (oracle * request)) :
  forall s : db,
    Forall (fun fr => stores_no_part fr.2) rs ->
    Q (outgoing_part s) -> Q (outgoing_part (run dst_max s rs)).
Proof.
  induction rs as [|[flt r] rs IH]; intros s Hrs Hq; [done|].
  apply Forall_cons in Hrs as [Hr Hrs]. cbn. apply IH; [done|].
  by apply serve_parts.
Qed.

Hypothesis Q_put :
  forall s s' key uid,
    put_outgoingpart s key uid = Some s' ->
    Q (outgoing_part s) -> Q (outgoing_part s').

Lemma smsdb_outgoing_part_put_parts (dst_max : nat) (flt : oracle) (s : db)
    (uid refid : Z) :
  Q (outgoing_part s) ->
  Q (outgoing_part (smsdb_outgoing_part_put dst_max flt s uid refid).2)
  /\ outgoing_ref (smsdb_outgoing_part_put dst_max flt s uid refid).2 = outgoing_ref s.
Proof.
  intros Hq. unfold smsdb_outgoing_part_put.
  set (got := if flt get_outgoingmsg_stmt (Bind 1) then _ else _).
  destruct got as [[res srr] fullkey].
  set (put := if 0 <=? res then _ else _).
  assert (Hput : Q (outgoing_part put.2) /\ outgoing_ref put.2 = outgoing_ref s).
  { subst put. destruct (0 <=? res); [|done].
    destruct (flt put_outgoingpart_stmt (Bind 1)); [done|].
    destruct (flt put_outgoingpart_stmt (Bind 2)); [done|].
    destruct (flt put_outgoingpart_stmt Step); [done|].
    destruct (put_outgoingpart s fullkey uid) as [s'|] eqn:Hs'; [|done].
    split; [by eapply Q_put|].
    unfold put_outgoingpart in Hs'. destruct (filter _ _); [|done].
    by injection Hs' as <-. }
  destruct put as [res1 s1]. cbn [snd] in Hput. destruct Hput as [Hput Hrefs].
  set (res2 := if srr =? 0 then -2 else res1).
  set (res3 := if 0 <=? res2 then _ else res2).
  set (dst := if 0 <=? res3 then _ else _).
  destruct dst as [res4 d].
  pose proof (clear_if_finished_parts flt res4 s1 uid Hput) as Hclear.
  pose proof (clear_if_finished_refs flt res4 s1 uid) as Hclear'.
  destruct (clear_if_finished flt res4 s1 uid). cbn [snd] in *.
  split; [done|congruence].
Qed.

End PartTable.

(** *** The invariant of the database *)

Lemma parts_ok_filter (P : outgoing_part_row -> Prop) (dec : forall p, Decision (P p)) t :
  parts_ok t -> parts_ok (filter P t).
Proof.
  intros [Hk Ha]. split; [|by apply ascending_filter].
  eapply sublist_NoDup; [exact Hk|]. by apply fmap_sublist, sublist_filter.
Qed.

Lemma parts_ok_status (st partid : Z) t :
  parts_ok t -> parts_ok (with_status st partid <$> t).
Proof.
  intros [Hk Ha]. split.
  - rewrite <- list_fmap_compose.
    erewrite list_fmap_ext; [exact Hk|].
    intros _ p _. apply with_status_key.
  - apply ascending_fmap_preserving; [apply with_status_rowid|done].
Qed.

Lemma parts_ok_put (s s' : db) (key : string) (uid : Z) :
  put_outgoingpart s key uid = Some s' ->
  parts_ok (outgoing_part s) -> parts_ok (outgoing_part s').
Proof.
  unfold put_outgoingpart.
  destruct (filter _ (outgoing_part s)) as [|? ?] eqn:Hfree; [|done].
  intros [= <-] [Hk Ha]. cbn. split.
  - rewrite fmap_app. apply NoDup_app. split; [done|]. split; [|apply NoDup_singleton].
    intros k Hk1 Hk2. apply list_elem_of_singleton in Hk2 as ->.
    apply list_elem_of_fmap in Hk1 as (p & Hp & Hin).
    eapply (filter_nil_not_elem_of _ _ p Hfree); done.
  - apply ascending_snoc; [done|]. apply next_rowid_above.
Qed.

Lemma db_ok_parts (s s' : db) :
  parts_ok (outgoing_part s') ->
  outgoing_ref s' = outgoing_ref s ->
  db_ok s -> db_ok s'.
Proof.
  unfold db_ok, refs_in_range, part_keys_unique, part_rowids_ascending.
  intros [? ?] -> (? & _ & _). done.
Qed.

Lemma db_ok_parts_ok (s : db) : db_ok s -> parts_ok (outgoing_part s).
Proof. by intros (_ & ? & ?). Qed.

(** X1.  The empty database satisfies [db_ok] (stored references are
    bytes, the keys of [outgoing_part] are unique, its rows stand in rowid
    order), and every request keeps it, whatever the engine does. *)
Theorem db_ok_invariant :
  db_ok empty_db
  /\ forall dst_max flt s r, db_ok s -> db_ok (serve dst_max flt s r).
Proof.
  split.
  { split; [apply map_Forall_empty|]. split; [apply NoDup_nil_2|done]. }
  intros dst_max flt s r Hok.
  pose proof (db_ok_parts_ok _ Hok) as Hparts.
  destruct r; cbn [serve].
  - pose proof (smsdb_put_outgoing flt now ttl s id addr ref parts order msg []) as Hf.
    injection Hf as Href _ _ Hpart. apply (db_ok_parts s); [|done|done].
    by rewrite Hpart.
  - destruct Hok as (Hrefs & Hk & Ha). split; [by apply smsdb_get_refid_in_range|].
    unfold part_keys_unique, part_rowids_ascending.
    by rewrite smsdb_get_refid_parts.
  - destruct (smsdb_outgoing_add_parts flt now s id addr cnt ttl srr) as [Hp Hr].
    apply (db_ok_parts s); [|done|done]. by rewrite Hp.
  - eapply (db_ok_parts s); [| |done];
      by apply (smsdb_outgoing_clear_parts parts_ok parts_ok_filter).
  - eapply (db_ok_parts s); [| |done];
      by apply (smsdb_outgoing_part_put_parts parts_ok parts_ok_filter parts_ok_put).
  - eapply (db_ok_parts s); [| |done];
      by apply (smsdb_outgoing_part_status_parts parts_ok parts_ok_filter
                  parts_ok_status).
  - eapply (db_ok_parts s); [| |done];
      by apply (smsdb_outgoing_purge_one_parts parts_ok parts_ok_filter).
Qed.

(** *** Outgoing messages *)

(** [smsdb_outgoing_clear_nolock] on a healthy engine. *)
Lemma clear_if_finished_healthy (res : Z) (s : db) (uid : Z) :
  0 <= res ->
  clear_if_finished healthy res s uid
  = (res, del_outgoingpart (del_outgoingmsg s uid) uid).
Proof.
  intros Hres. unfold clear_if_finished, smsdb_outgoing_clear_nolock, healthy.
  by destruct (Z.leb_spec 0 res); [|lia].
Qed.

(** [smsdb_outgoing_part_status] on a healthy engine. *)
Lemma smsdb_outgoing_part_status_healthy (s : db) (id addr : string) (mr st : Z) :
  smsdb_outgoing_part_status healthy s id addr mr st =
    match get_outgoingpart s (part_key_of id addr mr) with
    | None => (-1, None, s)
    | Some p =>
        let uid := part_msg p in
        let s1 := set_outgoingpart s st (part_rowid p) in
        match cnt_outgoingpart s1 uid with
        | None => (-1, None, s1)
        | Some (cur, cnt) =>
            if cur =? cnt then
              (0, Some ((sqlite3_column_int <$> get_all_status s1 uid) ++ [-1]),
               del_outgoingpart (del_outgoingmsg s1 uid) uid)
            else (-2, None, s1)
        end
    end.
Proof.
  unfold smsdb_outgoing_part_status, healthy.
  destruct (get_outgoingpart s (part_key_of id addr mr)) as [p|]; [|reflexivity].
  cbn -[Z.eqb]. destruct (cnt_outgoingpart _ _) as [[cur cnt]|]; [|reflexivity].
  by destruct (cur =? cnt).
Qed.





(** Only a settling call deletes: a call that does not return 0 leaves
    [outgoing_msg] and the keys of [outgoing_part] as they were. *)
Lemma smsdb_outgoing_part_status_unsettled (s : db) (id addr : string) (mr st : Z) :
  let x := smsdb_outgoing_part_status healthy s id addr mr st in
  x.1.1 <> 0 ->
  outgoing_msg x.2 = outgoing_msg s
  /\ part_key <$> outgoing_part x.2 = part_key <$> outgoing_part s.
Proof.
  cbn zeta. rewrite smsdb_outgoing_part_status_healthy.
  assert (Hset : forall partid,
             part_key <$> outgoing_part (set_outgoingpart s st partid)
             = part_key <$> outgoing_part s).
  { intros partid. rewrite outgoing_part_set, <- list_fmap_compose.
    apply list_fmap_ext. intros _ q _. apply with_status_key. }
  destruct (get_outgoingpart s (part_key_of id addr mr)) as [p|]; [|done].
  cbn zeta.
  destruct (cnt_outgoingpart _ _) as [[cur cnt]|];
    [|intros _; split; [done|apply Hset]].
  destruct (cur =? cnt); [|intros _; split; [done|apply Hset]].
  cbn [fst]. intros Hne. by destruct Hne.
Qed.


(** C3 does not hold of the code: [res] starts at -1 and the branch that
    finds an expired row never raises it, so on every engine and for every
    table, expired rows or not, [smsdb_outgoing_purge_one] returns -1 and
    deletes nothing. *)
Theorem smsdb_outgoing_purge_one_never_purges (dst_max : nat) (flt : oracle)
    (now : Z) (s : db) :
  (smsdb_outgoing_purge_one dst_max flt now s).1.1 = -1
  /\ (smsdb_outgoing_purge_one dst_max flt now s).2 = s.
Proof.
  unfold smsdb_outgoing_purge_one.
  destruct (if flt get_expired_stmt Step then None else get_expired s now) as [m|];
    by split.
Qed.

(** One message that expired at 60, swept at 1000: it is found, and kept. *)
Example smsdb_outgoing_purge_one_expired :
  let s := (smsdb_outgoing_add healthy 0 empty_db "dev" "dst" 1 60 1).2 in
  get_expired s 1000 = Some (OutgoingMsg 1 "dev" "dst" 1 60 1)
  /\ smsdb_outgoing_purge_one 256 healthy 1000 s = (-1, Some (1, "dst"), s).
Proof. split; vm_compute; reflexivity. Qed.

(** [smsdb_outgoing_part_put] on a healthy engine: the part is stored; a
    message without status report request then gets -2, and a message with
    one is deleted as soon as it has as many parts as it declares. *)
Lemma smsdb_outgoing_part_put_healthy (dst_max : nat) (s : db) (uid refid : Z) :
  smsdb_outgoing_part_put dst_max healthy s uid refid =
    match get_outgoingmsg s uid with
    | None => (-2, None, s)
    | Some m =>
        match put_outgoingpart s (part_key_of (msg_dev m) (msg_dst m) refid) uid with
        | None => (if msg_srr m =? 0 then -2 else -1, None, s)
        | Some s1 =>
            if msg_srr m =? 0 then (-2, None, s1)
            else
              match cnt_all_outgoingpart s1 uid with
              | None => (-1, None, s1)
              | Some (cur, cnt) =>
                  if cur =? cnt then
                    match get_dst s1 uid with
                    | None => (-1, None, s1)
                    | Some d =>
                        (0, Some (ast_str_set dst_max d),
                         del_outgoingpart (del_outgoingmsg s1 uid) uid)
                    end
                  else (-2, None, s1)
              end
        end
    end.
Proof.
  unfold smsdb_outgoing_part_put, healthy.
  destruct (get_outgoingmsg s uid) as [m|]; [|reflexivity].
  cbn -[Z.eqb].
  destruct (put_outgoingpart s _ uid) as [s1|]; cbn -[Z.eqb].
  - destruct (msg_srr m =? 0); [reflexivity|]. cbn -[Z.eqb].
    destruct (cnt_all_outgoingpart s1 uid) as [[cur cnt]|]; [|reflexivity].
    destruct (cur =? cnt); [|reflexivity]. cbn.
    by destruct (get_dst s1 uid).
  - by destruct (msg_srr m =? 0).
Qed.

(** A message that requests no status report is never deleted by
    [smsdb_outgoing_part_put]. *)
Lemma smsdb_outgoing_part_put_untracked (dst_max : nat) (s : db) (uid refid : Z)
    (m : outgoing_msg_row) :
  get_outgoingmsg s uid = Some m ->
  msg_srr m = 0 ->
  (smsdb_outgoing_part_put dst_max healthy s uid refid).1.1 = -2
  /\ outgoing_msg (smsdb_outgoing_part_put dst_max healthy s uid refid).2
     = outgoing_msg s.
Proof.
  intros Hm Hsrr. rewrite smsdb_outgoing_part_put_healthy, Hm, Hsrr. cbn.
  unfold put_outgoingpart. by destruct (filter _ _).
Qed.

(** C4 does not hold of the code.  Take a one-part message that requests a
    status report (srr = 1) and expires at 60.  Storing its part, whose
    status is NULL and so not terminal, makes [smsdb_outgoing_part_put]
    return 0 with the destination and delete the message and the part; the
    same call for a message without request (srr = 0) returns -2 and deletes
    nothing.  The test on [srr] is the reverse of what the comment in the
    code says. *)
Theorem smsdb_outgoing_part_put_purges_tracked :
  let tracked := (smsdb_outgoing_add healthy 0 empty_db "dev" "dst" 1 60 1).2 in
  let untracked := (smsdb_outgoing_add healthy 0 empty_db "dev" "dst" 1 60 0).2 in
  terminal None = false
  /\ smsdb_outgoing_part_put 256 healthy tracked 1 7
     = (0, Some "dst", with_outgoing_msg empty_db [] 1)
  /\ smsdb_outgoing_part_put 256 healthy untracked 1 7
     = (-2, None,
        with_outgoing_part untracked [OutgoingPart 1 "dev/dst/7" 1 None]).
Proof. repeat split; vm_compute; reflexivity. Qed.

(** *** Messages of other keys under [smsdb_put] *)

Lemma filter_other_key_put (s : db) (key : string) (order e : Z) (m : option string) :
  filter (fun r => in_key r <> key) (incoming (put_message s key order e m))
  = filter (fun r => in_key r <> key) (incoming s).
Proof.
  unfold put_message. cbn. rewrite filter_app, filter_cons_False by (cbn; tauto).
  rewrite filter_nil, app_nil_r, list_filter_filter.
  apply list_filter_iff. intros r. tauto.
Qed.

Lemma filter_other_key_clear (s : db) (key : string) :
  filter (fun r => in_key r <> key) (incoming (clear_messages s key))
  = filter (fun r => in_key r <> key) (incoming s).
Proof.
  unfold clear_messages. cbn. rewrite list_filter_filter.
  apply list_filter_iff. intros r. tauto.
Qed.

(** X3.  Whatever the engine does, [smsdb_put] for one message leaves the
    rows of every other key of [incoming] as they were, in their order, and
    touches no table of the outgoing side. *)
Theorem smsdb_put_other_messages (flt : oracle) (now ttl : Z) (s : db)
    (id addr : string) (ref parts order : Z) (msg : option string) :
  let key := incoming_key id addr ref parts in
  let s' := (smsdb_put flt now ttl s id addr ref parts order msg).2 in
  filter (fun r => in_key r <> key) (incoming s')
  = filter (fun r => in_key r <> key) (incoming s)
  /\ outgoing_ref s' = outgoing_ref s
  /\ outgoing_msg s' = outgoing_msg s
  /\ outgoing_msg_seq s' = outgoing_msg_seq s
  /\ outgoing_part s' = outgoing_part s.
Proof.
  intros key s'.
  pose proof (smsdb_put_outgoing flt now ttl s id addr ref parts order msg []) as Hf.
  fold s' in Hf. injection Hf as Href Hmsg Hseq Hpart.
  split; [|done]. subst s'. unfold smsdb_put. fold key.
  set (ins := if flt put_message_stmt (Bind 1) then _ else _).
  assert (Hins : filter (fun r => in_key r <> key) (incoming ins.2)
                 = filter (fun r => in_key r <> key) (incoming s)).
  { subst ins. repeat (destruct (flt put_message_stmt _); [done|]).
    apply filter_other_key_put. }
  destruct ins as [res s1]. cbn [snd] in Hins.
  set (cnt := if flt get_cnt_stmt (Bind 1) then _ else _).
  destruct cnt as [res' row].
  destruct (_ && _); [|done].
  set (full := if flt get_full_message_stmt (Bind 1) then _ else _).
  destruct full as [res2 out].
  destruct (0 <=? res2); [|done].
  repeat (destruct (flt clear_messages_stmt _); [done|]).
  cbn [snd]. by rewrite filter_other_key_clear.
Qed.

(** A call with an order other than the part count on an engine whose
    insert fails. *)
Lemma smsdb_put_row_count_nonneg_witness :
  0 <= (smsdb_put (failing put_message_stmt Step) 0 60 empty_db
          "A" "B" 7 3 1 (Some "Hel")).1.1.
Proof.
  apply (smsdb_put_row_count_nonneg (failing put_message_stmt Step) 0 60 empty_db
           "A" "B" 7 3 1 (Some "Hel")).
  discriminate.
Defined.

(** *** The reference a call of [smsdb_get_refid] stores *)

(** [smsdb_get_refid] touches no table but [outgoing_ref], on any engine. *)
Lemma smsdb_get_refid_frame (flt : oracle) (s : db) (id addr : string) :
  with_outgoing_ref (smsdb_get_refid flt s id addr).2 (outgoing_ref s) = s.
Proof.
  assert (Hs : with_outgoing_ref s (outgoing_ref s) = s) by by destruct s.
  unfold smsdb_get_refid.
  destruct (flt get_outgoingref_stmt (Bind 1)); [done|].
  destruct (if flt get_outgoingref_stmt Step then None else _) as [r|].
  - destruct (0 <=? c_int r); [|done].
    by repeat (destruct (flt set_outgoingref_stmt _); [done|]).
  - cbn [Z.leb Z.compare].
    repeat (destruct (flt ins_outgoingref_stmt _); [done|]).
    unfold ins_outgoingref. by destruct (outgoing_ref s !! _).
Qed.

(** It leaves the row of every other key as it is, on any engine. *)
Lemma smsdb_get_refid_other (flt : oracle) (s : db) (id addr k : string) :
  k <> ref_key id addr ->
  outgoing_ref (smsdb_get_refid flt s id addr).2 !! k = outgoing_ref s !! k.
Proof.
  intros Hne. unfold smsdb_get_refid.
  destruct (flt get_outgoingref_stmt (Bind 1)); [done|].
  destruct (if flt get_outgoingref_stmt Step then None else _) as [r|].
  - destruct (0 <=? c_int r); [|done].
    repeat (destruct (flt set_outgoingref_stmt _); [done|]).
    unfold set_outgoingref. cbn. by rewrite lookup_alter_ne.
  - cbn [Z.leb Z.compare].
    repeat (destruct (flt ins_outgoingref_stmt _); [done|]).
    unfold ins_outgoingref. destruct (outgoing_ref s !! _); [done|].
    cbn. by rewrite lookup_insert_ne.
Qed.

(** The increment of an [int]: a successor below INT_MAX, INT_MIN at it. *)
Lemma c_int_succ (v : Z) :
  - 2147483648 <= v <= INT_MAX ->
  c_int (v + 1) = if v =? INT_MAX then - 2147483648 else v + 1.
Proof.
  unfold INT_MAX. intros Hv. destruct (Z.eqb_spec v 2147483647) as [->|Hne].
  - reflexivity.
  - apply c_int_small. unfold INT_MAX. lia.
Qed.

(** What a call can do: fail and change nothing; return a stored value that
    reads as negative, unchanged; store and return the successor it has
    computed; or insert 0 for a pair that had no row. *)
Lemma smsdb_get_refid_cases (flt : oracle) (s : db) (id addr : string) :
  let key := ref_key id addr in
  let x := smsdb_get_refid flt s id addr in
  x = (-1, s)
  \/ (exists r, outgoing_ref s !! key = Some r /\ c_int r < 0 /\ x = (c_int r, s))
  \/ (exists r, outgoing_ref s !! key = Some r /\ 0 <= c_int r
        /\ let w := c_int (c_int r + 1) in
           let v := if 256 <=? w then 0 else w in
           x = (v, with_outgoing_ref s (alter (fun _ => v) key (outgoing_ref s))))
  \/ (outgoing_ref s !! key = None
        /\ x = (0, with_outgoing_ref s (<[key := 0]> (outgoing_ref s)))).
Proof.
  intros key x. subst x. unfold smsdb_get_refid, get_outgoingref. fold key.
  destruct (flt get_outgoingref_stmt (Bind 1)); [by left|].
  destruct (if flt get_outgoingref_stmt Step then None
            else outgoing_ref s !! key) as [r|] eqn:Hf.
  - assert (Hk : outgoing_ref s !! key = Some r)
      by (by destruct (flt get_outgoingref_stmt Step)).
    destruct (Z.leb_spec 0 (c_int r)); [|right; left; by exists r].
    repeat (destruct (flt set_outgoingref_stmt _); [by left|]).
    right; right; left. exists r. done.
  - cbn [Z.leb Z.compare].
    repeat (destruct (flt ins_outgoingref_stmt _); [by left|]).
    unfold ins_outgoingref.
    destruct (outgoing_ref s !! key) eqn:Hk; [by left|].
    right; right; right. done.
Qed.

(** X4.  Whatever the engine does and whatever the table holds: a reference
    [smsdb_get_refid] returns (a value that is not negative) is a byte and is
    the one it has stored for the pair; a call that returns a negative value
    has changed nothing, unless the stored reference reads as INT_MAX: then
    the increment has left INT_MIN, which the call has stored and returns;
    on a table of reference bytes a negative value is -1 and the call has
    changed nothing; and no call changes the reference of another pair, or a
    table other than [outgoing_ref]. *)
Theorem smsdb_get_refid_stores (flt : oracle) (s : db) (id addr : string) :
  let key := ref_key id addr in
  let x := smsdb_get_refid flt s id addr in
  (0 <= x.1 -> x.1 <= 255 /\ outgoing_ref x.2 !! key = Some x.1)
  /\ (x.1 < 0 ->
      x.2 = s
      \/ exists r, outgoing_ref s !! key = Some r /\ c_int r = INT_MAX
                   /\ x.1 = - 2147483648
                   /\ outgoing_ref x.2 !! key = Some x.1)
  /\ (refs_in_range s -> x.1 < 0 -> x.1 = -1 /\ x.2 = s)
  /\ (forall k, k <> key -> outgoing_ref x.2 !! k = outgoing_ref s !! k)
  /\ with_outgoing_ref x.2 (outgoing_ref s) = s.
Proof.
  intros key x.
  split; [|split; [|split; [|split; [|apply smsdb_get_refid_frame]]]].
  4: { intros k Hne. by apply smsdb_get_refid_other. }
  1, 2: intros Hx.
  3: intros Hwf Hx.
  all: destruct (smsdb_get_refid_cases flt s id addr)
         as [Hc|[(r & Hk & Hr & Hc)|[(r & Hk & Hr & Hc)|[Hk Hc]]]];
       cbn zeta in Hc; fold key in Hc; fold x in Hc;
       rewrite Hc in Hx |- *; cbn [fst snd] in Hx |- *; try lia; auto.
  all: try (pose proof (Hwf _ r Hk) as Hb; cbn in Hb;
            rewrite (c_int_small r) in * by (unfold INT_MAX; lia); try lia).
  all: try pose proof (c_int_succ _ (c_int_range r)) as Hw.
  all: fold key in Hk.
  all: unfold with_outgoing_ref; cbn [outgoing_ref];
       rewrite ?lookup_alter_eq, ?lookup_insert_eq, ?Hk;
       cbn [fmap option_fmap option_map].
  - split; [|done]. destruct (Z.leb_spec 256 (c_int (c_int r + 1))); lia.
  - split; [lia|done].
  - right. exists r. split; [done|].
    destruct (Z.eqb_spec (c_int r) INT_MAX) as [Hmax|Hmax];
      destruct (Z.leb_spec 256 (c_int (c_int r + 1))); try lia.
    rewrite Hw. done.
  - rewrite (c_int_small (r + 1)) in Hx by (unfold INT_MAX; lia).
    destruct (Z.leb_spec 256 (r + 1)); lia.
Qed.

(** A stored reference of INT_MAX, which no call stores: the increment
    leaves INT_MIN, and the call stores it and returns it. *)
Example smsdb_get_refid_at_int_max :
  let s := with_outgoing_ref empty_db {[ "A/B" := INT_MAX ]} in
  let x := smsdb_get_refid healthy s "A" "B" in
  x.1 = - 2147483648 /\ outgoing_ref x.2 !! "A/B" = Some (- 2147483648).
Proof. split; vm_compute; reflexivity. Qed.
(** *** The table of messages under every request *)

(** The requests other than [smsdb_outgoing_add] keep the messages of
    [outgoing_msg] or delete some, and leave the uid counter alone. *)

Lemma msgs_kept_refl (s : db) : msgs_kept s s.
Proof. by split. Qed.

Lemma msgs_kept_trans (s1 s2 s3 : db) :
  msgs_kept s1 s2 -> msgs_kept s2 s3 -> msgs_kept s1 s3.
Proof.
  intros [Hq1 Hm1] [Hq2 Hm2]. split; [congruence|]. by etrans.
Qed.

Lemma clear_if_finished_msgs (flt : oracle) (res : Z) (s : db) (uid : Z) :
  msgs_kept s (clear_if_finished flt res s uid).2.
Proof.
  unfold clear_if_finished, smsdb_outgoing_clear_nolock.
  destruct (0 <=? res); [|apply msgs_kept_refl].
  destruct (flt del_outgoingmsg_stmt (Bind 1)), (flt del_outgoingmsg_stmt Step),
    (flt del_outgoingpart_stmt (Bind 1)), (flt del_outgoingpart_stmt Step);
    (split; [done|]); cbn; first [reflexivity|apply sublist_filter].
Qed.

Lemma smsdb_outgoing_clear_msgs (dst_max : nat) (flt : oracle) (s : db) (uid : Z) :
  msgs_kept s (smsdb_outgoing_clear dst_max flt s uid).2.
Proof.
  unfold smsdb_outgoing_clear.
  set (dst := if flt get_dst_stmt (Bind 1) then _ else _). destruct dst as [res d].
  pose proof (clear_if_finished_msgs flt res s uid) as Hclear.
  by destruct (clear_if_finished flt res s uid).
Qed.

Lemma smsdb_outgoing_purge_one_msgs (dst_max : nat) (flt : oracle) (now : Z) (s : db) :
  msgs_kept s (smsdb_outgoing_purge_one dst_max flt now s).2.
Proof.
  unfold smsdb_outgoing_purge_one.
  destruct (if flt get_expired_stmt Step then None else _) as [m|];
    [|apply msgs_kept_refl].
  cbn [fst snd].
  pose proof (clear_if_finished_msgs flt (-1) s (msg_uid m)) as Hclear.
  by destruct (clear_if_finished flt (-1) s (msg_uid m)).
Qed.

Lemma smsdb_outgoing_part_status_msgs (flt : oracle) (s : db)
    (id addr : string) (mr st : Z) :
  msgs_kept s (smsdb_outgoing_part_status flt s id addr mr st).2.
Proof.
  unfold smsdb_outgoing_part_status.
  set (got := if flt get_outgoingpart_stmt (Bind 1) then _ else _).
  destruct got as [[res partid] uid].
  set (upd := if 0 <=? res then _ else _).
  assert (Hupd : msgs_kept s upd.2).
  { subst upd. destruct (0 <=? res); [|apply msgs_kept_refl].
    repeat (destruct (flt set_outgoingpart_stmt _); [apply msgs_kept_refl|]).
    by split. }
  destruct upd as [res1 s1]. cbn [snd] in Hupd.
  set (res2 := if 0 <=? res1 then _ else res1).
  set (all := if 0 <=? res2 then _ else _).
  destruct all as [res3 status_all].
  pose proof (clear_if_finished_msgs flt res3 s1 uid) as Hclear.
  destruct (clear_if_finished flt res3 s1 uid). cbn [snd] in *.
  by eapply msgs_kept_trans.
Qed.

Lemma owned_filter (n : Z) (P : outgoing_part_row -> Prop)
    (dec : forall p, Decision (P p)) (t : list outgoing_part_row) :
  Forall (fun p => part_msg p <= n) t ->
  Forall (fun p => part_msg p <= n) (filter P t).
Proof.
  rewrite !Forall_forall. intros Ht p Hp.
  apply list_elem_of_filter in Hp as [_ Hp]. by apply Ht.
Qed.

Lemma owned_status (n st partid : Z) (t : list outgoing_part_row) :
  Forall (fun p => part_msg p <= n) t ->
  Forall (fun p => part_msg p <= n) (with_status st partid <$> t).
Proof.
  intros Ht. rewrite Forall_fmap. eapply Forall_impl; [exact Ht|].
  intros p Hp. cbn. by rewrite with_status_msg.
Qed.

(** [smsdb_outgoing_part_put] stores a part only for a message it found. *)
Lemma smsdb_outgoing_part_put_msgs (dst_max : nat) (flt : oracle) (s : db)
    (uid refid : Z) (n : Z) :
  Forall (fun m => msg_uid m <= n) (outgoing_msg s) ->
  Forall (fun p => part_msg p <= n) (outgoing_part s) ->
  msgs_kept s (smsdb_outgoing_part_put dst_max flt s uid refid).2
  /\ Forall (fun p => part_msg p <= n)
       (outgoing_part (smsdb_outgoing_part_put dst_max flt s uid refid).2).
Proof.
  intros Hm Hp. unfold smsdb_outgoing_part_put.
  set (got := if flt get_outgoingmsg_stmt (Bind 1) then _ else _).
  assert (Hgot : 0 <= got.1.1 -> uid <= n).
  { subst got. destruct (flt get_outgoingmsg_stmt (Bind 1)); [cbn; lia|].
    destruct (flt get_outgoingmsg_stmt Step); [cbn; lia|].
    destruct (get_outgoingmsg s uid) as [m|] eqn:Hmsg; [|cbn; lia].
    intros _. rewrite <- (get_outgoingmsg_uid _ _ _ Hmsg).
    unfold get_outgoingmsg in Hmsg. apply head_Some_elem_of in Hmsg.
    apply list_elem_of_filter in Hmsg as [_ Hin].
    rewrite Forall_forall in Hm. by apply Hm. }
  destruct got as [[res srr] fullkey]. cbn [fst] in Hgot.
  set (put := if 0 <=? res then _ else _).
  assert (Hput : msgs_kept s put.2
                 /\ Forall (fun p => part_msg p <= n) (outgoing_part put.2)).
  { subst put. destruct (Z.leb_spec 0 res); [|split; [apply msgs_kept_refl|done]].
    repeat (destruct (flt put_outgoingpart_stmt _);
            [split; [apply msgs_kept_refl|done]|]).
    unfold put_outgoingpart.
    destruct (filter _ (outgoing_part s)); [|split; [apply msgs_kept_refl|done]].
    cbn. split; [by split|].
    apply Forall_app. split; [done|]. apply Forall_singleton. cbn. by apply Hgot. }
  destruct put as [res1 s1]. cbn [snd] in Hput. destruct Hput as [Hput Hparts].
  set (res2 := if srr =? 0 then -2 else res1).
  set (res3 := if 0 <=? res2 then _ else res2).
  set (dst := if 0 <=? res3 then _ else _).
  destruct dst as [res4 d].
  pose proof (clear_if_finished_msgs flt res4 s1 uid) as Hclear.
  pose proof (clear_if_finished_parts (Forall (fun p => part_msg p <= n))) as Hclear'.
  specialize (Hclear' (owned_filter n) flt res4 s1 uid Hparts).
  destruct (clear_if_finished flt res4 s1 uid). cbn [snd] in *.
  split; [by eapply msgs_kept_trans|done].
Qed.

Lemma uids_given_kept (s s' : db) :
  msgs_kept s s' ->
  Forall (fun p => part_msg p <= outgoing_msg_seq s) (outgoing_part s') ->
  uids_given s -> uids_given s'.
Proof.
  intros [Hseq Hsub] Hparts (Hpos & Hm & _). unfold uids_given.
  rewrite Hseq. split; [done|]. split; [|done].
  rewrite Forall_forall in Hm. apply Forall_forall. intros m Hin.
  apply Hm. by eapply elem_of_sublist.
Qed.

Lemma smsdb_outgoing_add_cases (flt : oracle) (now : Z) (s : db)
    (id addr : string) (cnt ttl srr : Z) :
  smsdb_outgoing_add flt now s id addr cnt ttl srr = (-1, s)
  \/ smsdb_outgoing_add flt now s id addr cnt ttl srr
     = (c_int (outgoing_msg_seq s + 1),
        (put_outgoingmsg s id addr cnt (now + ttl) srr).2).
Proof.
  unfold smsdb_outgoing_add.
  repeat (destruct (flt put_outgoingmsg_stmt _); [by left|]). by right.
Qed.

(** Below INT_MAX the uid comes back through [int res] as it is stored. *)
Lemma c_int_uid (s : db) :
  uids_given s -> outgoing_msg_seq s < INT_MAX ->
  c_int (outgoing_msg_seq s + 1) = outgoing_msg_seq s + 1.
Proof.
  intros (Hpos & _) Hfit. apply c_int_small. lia.
Qed.

Lemma put_outgoingmsg_uids (s : db) (dev dst : string) (cnt e srr : Z) :
  uids_given s -> uids_given (put_outgoingmsg s dev dst cnt e srr).2.
Proof.
  intros (Hpos & Hm & Hp). unfold uids_given, put_outgoingmsg. cbn.
  split; [lia|]. split.
  - apply Forall_app. split; [|apply Forall_singleton; cbn; lia].
    eapply Forall_impl; [exact Hm|]. cbn. lia.
  - eapply Forall_impl; [exact Hp|]. cbn. lia.
Qed.

Lemma uids_given_msgs (s : db) :
  uids_given s -> Forall (fun m => msg_uid m <= outgoing_msg_seq s) (outgoing_msg s).
Proof.
  intros (_ & Hm & _). eapply Forall_impl; [exact Hm|]. cbn. lia.
Qed.

(** Every request keeps [uids_given] and never lowers the counter,
    whatever the engine does. *)
Lemma serve_uids (dst_max : nat) (flt : oracle) (s : db) (r : request) :
  uids_given s ->
  uids_given (serve dst_max flt s r)
  /\ outgoing_msg_seq s <= outgoing_msg_seq (serve dst_max flt s r).
Proof.
  intros Hok.
  assert (Hkept : forall s',
             msgs_kept s s' ->
             Forall (fun p => part_msg p <= outgoing_msg_seq s) (outgoing_part s') ->
             uids_given s' /\ outgoing_msg_seq s <= outgoing_msg_seq s').
  { intros s' Hk Hp. split; [by eapply uids_given_kept|]. destruct Hk as [-> _]. lia. }
  pose proof Hok as (_ & _ & Hparts).
  pose proof (owned_filter (outgoing_msg_seq s)) as Hfilter.
  pose proof (owned_status (outgoing_msg_seq s)) as Hstatus.
  destruct r; cbn [serve].
  - pose proof (smsdb_put_outgoing flt now ttl s id addr ref parts order msg []) as Hf.
    injection Hf as _ Hmsg Hseq Hpart. apply Hkept; [|by rewrite Hpart].
    split; [done|]. by rewrite Hmsg.
  - pose proof (smsdb_get_refid_frame flt s id addr) as Hf.
    destruct (smsdb_get_refid flt s id addr) as [res s']. cbn [snd] in *.
    destruct s, s'. injection Hf as _ Hmsg Hseq Hpart. cbn in *. subst.
    apply Hkept; [by split|done].
  - destruct (smsdb_outgoing_add_cases flt now s id addr cnt ttl srr) as [-> | ->].
    + split; [done|cbn; lia].
    + split; [by apply put_outgoingmsg_uids|cbn; lia].
  - apply Hkept; [apply smsdb_outgoing_clear_msgs|].
    by apply (smsdb_outgoing_clear_parts _ Hfilter).
  - pose proof (smsdb_outgoing_part_put_msgs dst_max flt s uid refid
                  (outgoing_msg_seq s) (uids_given_msgs s Hok) Hparts) as [Hk Hp].
    by apply Hkept.
  - apply Hkept; [apply smsdb_outgoing_part_status_msgs|].
    by apply (smsdb_outgoing_part_status_parts _ Hfilter Hstatus).
  - apply Hkept; [apply smsdb_outgoing_purge_one_msgs|].
    by apply (smsdb_outgoing_purge_one_parts _ Hfilter).
Qed.

Lemma run_uids (dst_max : nat) (rs : list (oracle * request)) :
  forall s : db,
    uids_given s ->
    uids_given (run dst_max s rs)
    /\ outgoing_msg_seq s <= outgoing_msg_seq (run dst_max s rs).
Proof.
  induction rs as [|[flt r] rs IH]; intros s Hok; [split; [done|reflexivity]|].
  change (run dst_max s ((flt, r) :: rs))
    with (run dst_max (serve dst_max flt s r) rs).
  destruct (serve_uids dst_max flt s r Hok) as [Hok' Hle].
  destruct (IH _ Hok') as [Hok'' Hle']. split; [done|lia].
Qed.

Lemma uids_given_empty : uids_given empty_db.
Proof. split; [done|]. split; constructor. Qed.

(** X5.  A uid is not given twice while the counter of uids fits an [int].
    From a database whose uids are as AUTOINCREMENT gives them
    ([uids_given]), a call of [smsdb_outgoing_add] that succeeds returns a
    uid above every uid stored, and a later call that succeeds, after any
    requests on whatever engine (also requests that delete the first
    message), returns a larger one, provided the counter is below INT_MAX
    when that later call is made. *)
Theorem smsdb_outgoing_add_fresh (dst_max : nat) (s : db)
    (flt1 : oracle) (now1 : Z) (id1 addr1 : string) (cnt1 ttl1 srr1 : Z)
    (rs : list (oracle * request))
    (flt2 : oracle) (now2 : Z) (id2 addr2 : string) (cnt2 ttl2 srr2 : Z) :
  let x1 := smsdb_outgoing_add flt1 now1 s id1 addr1 cnt1 ttl1 srr1 in
  let x2 := smsdb_outgoing_add flt2 now2 (run dst_max x1.2 rs)
              id2 addr2 cnt2 ttl2 srr2 in
  uids_given s ->
  outgoing_msg_seq (run dst_max x1.2 rs) < INT_MAX ->
  0 < x1.1 ->
  0 < x2.1 ->
  Forall (fun m => msg_uid m < x1.1) (outgoing_msg s) /\ x1.1 < x2.1.
Proof.
  intros x1 x2 Hok Hfit H1 H2. subst x1 x2.
  destruct (smsdb_outgoing_add_cases flt1 now1 s id1 addr1 cnt1 ttl1 srr1)
    as [Hx1 | Hx1]; rewrite Hx1 in *; [cbn in H1; lia|].
  cbn [fst snd] in *.
  pose proof (put_outgoingmsg_uids s id1 addr1 cnt1 (now1 + ttl1) srr1 Hok) as Hok1.
  destruct (run_uids dst_max rs _ Hok1) as [Hok2 Hle].
  assert (Hseq1 : outgoing_msg_seq (put_outgoingmsg s id1 addr1 cnt1 (now1 + ttl1) srr1).2
                  = outgoing_msg_seq s + 1) by reflexivity.
  rewrite (c_int_uid s) in * by (done || lia).
  split.
  { eapply Forall_impl; [exact (uids_given_msgs s Hok)|]. cbn. lia. }
  destruct (smsdb_outgoing_add_cases flt2 now2
              (run dst_max (put_outgoingmsg s id1 addr1 cnt1 (now1 + ttl1) srr1).2 rs)
              id2 addr2 cnt2 ttl2 srr2)
    as [Hx2 | Hx2]; rewrite Hx2 in *; [cbn in H2; lia|].
  cbn [fst snd] in *. rewrite c_int_uid by done. lia.
Qed.

(** Two messages added around the deletion of the first. *)
Lemma smsdb_outgoing_add_fresh_witness :
  (smsdb_outgoing_add healthy 0 empty_db "dev" "dst" 1 60 0).1
  < (smsdb_outgoing_add healthy 5
       (run 256 (smsdb_outgoing_add healthy 0 empty_db "dev" "dst" 1 60 0).2
          [(healthy, OutgoingClear 1)])
       "dev" "dst" 1 60 0).1.
Proof.
  refine (proj2 (smsdb_outgoing_add_fresh 256 empty_db healthy 0 "dev" "dst" 1 60 0
                   [(healthy, OutgoingClear 1)] healthy 5 "dev" "dst" 1 60 0
                   uids_given_empty _ _ _)); vm_compute; reflexivity.
Defined.

(** *** Adding and clearing a message *)

Lemma get_outgoingmsg_put (s : db) (dev dst : string) (cnt e srr : Z) :
  uids_given s ->
  get_outgoingmsg (put_outgoingmsg s dev dst cnt e srr).2 (outgoing_msg_seq s + 1)
  = Some (OutgoingMsg (outgoing_msg_seq s + 1) dev dst cnt e srr)
  /\ forall uid,
       uid <> outgoing_msg_seq s + 1 ->
       get_outgoingmsg (put_outgoingmsg s dev dst cnt e srr).2 uid
       = get_outgoingmsg s uid.
Proof.
  intros Hok. unfold get_outgoingmsg, put_outgoingmsg. cbn. split.
  - rewrite filter_app, filter_cons_True by done.
    rewrite (filter_none (fun m => msg_uid m = outgoing_msg_seq s + 1)); [done|].
    eapply Forall_impl; [exact (uids_given_msgs s Hok)|]. cbn. lia.
  - intros uid Hne. rewrite filter_app, filter_cons_False by (cbn; congruence).
    by rewrite filter_nil, app_nil_r.
Qed.

(** X6.  On a database whose uids are as AUTOINCREMENT gives them and whose
    counter of uids is below INT_MAX (the next uid fits the [int] it is
    returned in), and
    whatever the engine does, [smsdb_outgoing_add] either fails with -1 and
    changes nothing, or returns the next uid, which is positive, and the
    message row read back under that uid carries the device, the
    destination, the part count, the expiration [now + ttl] and the report
    flag it was given; the rows of other uids and the other tables are as
    before. *)
Theorem smsdb_outgoing_add_lookup (flt : oracle) (now : Z) (s : db)
    (id addr : string) (cnt ttl srr : Z) :
  uids_given s ->
  outgoing_msg_seq s < INT_MAX ->
  let x := smsdb_outgoing_add flt now s id addr cnt ttl srr in
  (x.1 = -1 /\ x.2 = s)
  \/ (x.1 = outgoing_msg_seq s + 1
      /\ 0 < x.1
      /\ get_outgoingmsg x.2 x.1 = Some (OutgoingMsg x.1 id addr cnt (now + ttl) srr)
      /\ (forall uid, uid <> x.1 -> get_outgoingmsg x.2 uid = get_outgoingmsg s uid)
      /\ incoming x.2 = incoming s
      /\ outgoing_ref x.2 = outgoing_ref s
      /\ outgoing_part x.2 = outgoing_part s).
Proof.
  intros Hok Hfit x. subst x.
  destruct (smsdb_outgoing_add_cases flt now s id addr cnt ttl srr) as [-> | ->];
    [by left|right].
  rewrite c_int_uid by done.
  destruct (get_outgoingmsg_put s id addr cnt (now + ttl) srr Hok) as [Hnew Hold].
  destruct Hok as (Hpos & _). cbn [put_outgoingmsg fst snd] in *.
  split; [done|]. split; [lia|]. done.
Qed.

(** With the counter at INT_MAX the message is stored under the uid
    2147483648, and the call returns what an [int] holds of it. *)
Example smsdb_outgoing_add_at_int_max :
  let s := with_outgoing_msg empty_db [] INT_MAX in
  let x := smsdb_outgoing_add healthy 100 s "dev" "dst" 2 60 1 in
  uids_given s
  /\ x.1 = - 2147483648
  /\ get_outgoingmsg x.2 2147483648
     = Some (OutgoingMsg 2147483648 "dev" "dst" 2 160 1)
  /\ smsdb_outgoing_clear 256 healthy x.2 x.1 = (-1, None, x.2).
Proof.
  split; [split; [done|split; constructor]|]. repeat split; vm_compute; reflexivity.
Qed.

(** A message added to the empty database and read back. *)
Lemma smsdb_outgoing_add_lookup_witness :
  get_outgoingmsg (smsdb_outgoing_add healthy 100 empty_db "dev" "dst" 2 60 1).2 1
  = Some (OutgoingMsg 1 "dev" "dst" 2 160 1).
Proof.
  destruct (smsdb_outgoing_add_lookup healthy 100 empty_db "dev" "dst" 2 60 1
              uids_given_empty eq_refl) as [[Hfail _] | (_ & _ & Hget & _)].
  - discriminate Hfail.
  - exact Hget.
Defined.

Lemma parts_of_del (s : db) (uid uid' : Z) :
  parts_of (del_outgoingpart (del_outgoingmsg s uid) uid) uid'
  = if decide (uid' = uid) then [] else parts_of s uid'.
Proof.
  unfold parts_of. rewrite outgoing_part_del, list_filter_filter.
  destruct (decide (uid' = uid)) as [-> | Hne].
  - apply filter_none, Forall_forall. intros p _. tauto.
  - apply list_filter_iff. intros p. split; [tauto|]. intros Hp. split; congruence.
Qed.

Lemma get_outgoingmsg_del (s : db) (uid uid' : Z) :
  get_outgoingmsg (del_outgoingpart (del_outgoingmsg s uid) uid) uid'
  = if decide (uid' = uid) then None else get_outgoingmsg s uid'.
Proof.
  unfold get_outgoingmsg. rewrite outgoing_msg_del, list_filter_filter.
  destruct (decide (uid' = uid)) as [-> | Hne].
  - rewrite filter_none; [done|]. apply Forall_forall. intros p _. tauto.
  - f_equal. apply list_filter_iff. intros p. split; [tauto|]. intros Hp.
    split; congruence.
Qed.

(** [smsdb_outgoing_clear] on a healthy engine. *)
Lemma smsdb_outgoing_clear_healthy (dst_max : nat) (s : db) (uid : Z) :
  smsdb_outgoing_clear dst_max healthy s uid =
    match get_outgoingmsg s uid with
    | None => (-1, None, s)
    | Some m =>
        (0, Some (ast_str_set dst_max (msg_dst m)),
         del_outgoingpart (del_outgoingmsg s uid) uid)
    end.
Proof.
  unfold smsdb_outgoing_clear, get_dst, healthy.
  by destruct (get_outgoingmsg s uid).
Qed.

(** X7.  On a healthy engine [smsdb_outgoing_clear] of a uid that is not
    stored returns -1, writes no destination and changes nothing.  For a
    stored uid it returns 0 and the destination of the message; afterwards
    the message and all its parts are gone, the messages and parts of every
    other uid and the other tables are as before, and a second call for the
    same uid returns -1. *)
Theorem smsdb_outgoing_clear_removes (dst_max : nat) (s : db) (uid : Z) :
  let x := smsdb_outgoing_clear dst_max healthy s uid in
  match get_outgoingmsg s uid with
  | None => x = (-1, None, s)
  | Some m =>
      x.1 = (0, Some (ast_str_set dst_max (msg_dst m)))
      /\ get_outgoingmsg x.2 uid = None
      /\ parts_of x.2 uid = []
      /\ (forall uid', uid' <> uid ->
            get_outgoingmsg x.2 uid' = get_outgoingmsg s uid'
            /\ parts_of x.2 uid' = parts_of s uid')
      /\ with_outgoing_part (with_outgoing_msg x.2 (outgoing_msg s) (outgoing_msg_seq s))
           (outgoing_part s) = s
      /\ smsdb_outgoing_clear dst_max healthy x.2 uid = (-1, None, x.2)
  end.
Proof.
  intros x. subst x. rewrite smsdb_outgoing_clear_healthy.
  destruct (get_outgoingmsg s uid) as [m|] eqn:Hm; [|done].
  cbn [fst snd].
  pose proof (get_outgoingmsg_del s uid uid) as Hgone.
  rewrite decide_True in Hgone by done.
  split; [done|]. split; [done|].
  split; [by rewrite parts_of_del, decide_True|].
  split.
  { intros uid' Hne. by rewrite get_outgoingmsg_del, parts_of_del, !decide_False. }
  split; [by destruct s|].
  by rewrite smsdb_outgoing_clear_healthy, Hgone.
Qed.

(** X8.  On a database whose uids are as AUTOINCREMENT gives them and whose
    counter of uids is below INT_MAX, adding a message and clearing it again
    under the uid the call returned, on a healthy engine, returns the
    destination it was added with and restores every table; only the uid
    counter has advanced. *)
Theorem smsdb_outgoing_add_clear (dst_max : nat) (now : Z) (s : db)
    (id addr : string) (cnt ttl srr : Z) :
  uids_given s ->
  outgoing_msg_seq s < INT_MAX ->
  let a := smsdb_outgoing_add healthy now s id addr cnt ttl srr in
  let c := smsdb_outgoing_clear dst_max healthy a.2 a.1 in
  c.1 = (0, Some (ast_str_set dst_max addr))
  /\ c.2 = with_outgoing_msg s (outgoing_msg s) (outgoing_msg_seq s + 1).
Proof.
  intros Hok Hfit a c. subst a c.
  change (smsdb_outgoing_add healthy now s id addr cnt ttl srr)
    with (c_int (outgoing_msg_seq s + 1),
          (put_outgoingmsg s id addr cnt (now + ttl) srr).2).
  rewrite c_int_uid by done.
  rewrite smsdb_outgoing_clear_healthy.
  destruct (get_outgoingmsg_put s id addr cnt (now + ttl) srr Hok) as [Hnew _].
  cbn [put_outgoingmsg fst snd] in *. rewrite Hnew. cbn [fst snd msg_dst].
  split; [done|].
  unfold del_outgoingpart, del_outgoingmsg, with_outgoing_part, with_outgoing_msg.
  cbn. f_equal.
  - rewrite filter_app, filter_cons_False by (cbn; tauto).
    rewrite filter_nil, app_nil_r. apply filter_all.
    eapply Forall_impl; [exact (uids_given_msgs s Hok)|]. cbn. lia.
  - apply filter_all. destruct Hok as (_ & _ & Hp).
    eapply Forall_impl; [exact Hp|]. cbn. lia.
Qed.

(** A message added to the empty database and cleared. *)
Lemma smsdb_outgoing_add_clear_witness :
  (smsdb_outgoing_clear 256 healthy
     (smsdb_outgoing_add healthy 100 empty_db "dev" "dst" 2 60 1).2
     (smsdb_outgoing_add healthy 100 empty_db "dev" "dst" 2 60 1).1).1
  = (0, Some "dst").
Proof.
  exact (proj1 (smsdb_outgoing_add_clear 256 100 empty_db "dev" "dst" 2 60 1
                  uids_given_empty eq_refl)).
Defined.

(** *** Storing a part *)

(** X9.  Whatever the engine does, [smsdb_outgoing_part_put] for a uid that
    is not stored, or for a reference whose key is already in
    [outgoing_part], returns -1 or -2, writes no destination and changes
    nothing: a part is never stored twice, and never for a message that is
    not there. *)
Theorem smsdb_outgoing_part_put_refused (dst_max : nat) (flt : oracle) (s : db)
    (uid refid : Z) :
  let x := smsdb_outgoing_part_put dst_max flt s uid refid in
  (forall m, get_outgoingmsg s uid = Some m ->
             get_outgoingpart s (part_key_of (msg_dev m) (msg_dst m) refid) <> None) ->
  (x.1.1 = -1 \/ x.1.1 = -2) /\ x.1.2 = None /\ x.2 = s.
Proof.
  intros x Hrefuse. subst x. unfold smsdb_outgoing_part_put.
  destruct (flt get_outgoingmsg_stmt (Bind 1)); [cbn; auto|].
  destruct (flt get_outgoingmsg_stmt Step); [cbn; auto|].
  destruct (get_outgoingmsg s uid) as [m|] eqn:Hm; [|cbn; auto].
  specialize (Hrefuse m eq_refl). cbn -[Z.eqb].
  assert (Hput : (if flt put_outgoingpart_stmt (Bind 1) then (-1, s)
                  else if flt put_outgoingpart_stmt (Bind 2) then (-1, s)
                  else match (if flt put_outgoingpart_stmt Step then None
                              else put_outgoingpart s
                                     (part_key_of (msg_dev m) (msg_dst m) refid) uid)
                       with
                       | Some s' => (0, s')
                       | None => (-1, s)
                       end) = (-1, s)).
  { repeat (destruct (flt put_outgoingpart_stmt _); [done|]).
    unfold put_outgoingpart. unfold get_outgoingpart in Hrefuse.
    by destruct (filter _ (outgoing_part s)). }
  rewrite Hput. destruct (msg_srr m =? 0); cbn; auto.
Qed.


(** The reference of a stored part, put again. *)
Lemma smsdb_outgoing_part_put_refused_witness :
  (smsdb_outgoing_part_put 256 healthy (untracked_message "dev" "dst" 2 [7]) 1 7).2
  = untracked_message "dev" "dst" 2 [7].
Proof.
  refine (proj2 (proj2 (smsdb_outgoing_part_put_refused 256 healthy
                          (untracked_message "dev" "dst" 2 [7]) 1 7 _))).
  intros m Hm. vm_compute in Hm. injection Hm as <-. vm_compute. discriminate.
Defined.

(** X10.  On a healthy engine, [smsdb_outgoing_part_put] for a stored
    message and a reference whose key is free has one of two outcomes.
    Either it returns -2 and writes no destination: the part is then the
    last row of [outgoing_part], with the next rowid, the key of device,
    destination and reference, the uid and a NULL status, and is read back
    under its key; this is the case when the message has [srr = 0] or does
    not yet have as many parts as it declares.  Or it returns 0 with the
    destination, having deleted the message and all its parts, the new one
    included; this is the case when [srr] is set and the part is the last
    one the message declares. *)
Theorem smsdb_outgoing_part_put_stores (dst_max : nat) (s : db) (uid refid : Z)
    (m : outgoing_msg_row) :
  let key := part_key_of (msg_dev m) (msg_dst m) refid in
  let row := OutgoingPart (next_rowid (outgoing_part s)) key uid None in
  let x := smsdb_outgoing_part_put dst_max healthy s uid refid in
  get_outgoingmsg s uid = Some m ->
  get_outgoingpart s key = None ->
  (x.1 = (-2, None)
   /\ (msg_srr m = 0 \/ msg_cnt m <> Z.of_nat (length (parts_of s uid)) + 1)
   /\ x.2 = with_outgoing_part s (outgoing_part s ++ [row])
   /\ get_outgoingpart x.2 key = Some row)
  \/ (x.1 = (0, Some (ast_str_set dst_max (msg_dst m)))
      /\ msg_srr m <> 0
      /\ msg_cnt m = Z.of_nat (length (parts_of s uid)) + 1
      /\ x.2 = del_outgoingpart (del_outgoingmsg s uid) uid
      /\ get_outgoingmsg x.2 uid = None
      /\ get_outgoingpart x.2 key = None).
Proof.
  intros key row x Hm Hfree. subst x.
  rewrite smsdb_outgoing_part_put_healthy, Hm. fold key.
  pose proof (get_outgoingmsg_uid _ _ _ Hm) as Huid.
  unfold put_outgoingpart. unfold get_outgoingpart in Hfree.
  apply head_None in Hfree. rewrite Hfree. fold row.
  set (s1 := with_outgoing_part s (outgoing_part s ++ [row])).
  assert (Hget : get_outgoingpart s1 key = Some row).
  { unfold get_outgoingpart, s1. cbn.
    by rewrite filter_app, Hfree, filter_cons_True. }
  assert (Hcnt : cnt_all_outgoingpart s1 uid
                 = Some (msg_cnt m, Z.of_nat (length (parts_of s uid)) + 1)).
  { unfold cnt_all_outgoingpart.
    change (get_outgoingmsg s1 uid) with (get_outgoingmsg s uid). rewrite Hm. cbn.
    rewrite Huid. unfold parts_of, s1. cbn.
    rewrite filter_app, filter_cons_True by done.
    rewrite length_app. cbn. do 2 f_equal. lia. }
  destruct (Z.eqb_spec (msg_srr m) 0) as [Hsrr | Hsrr]; [left; by auto|].
  rewrite Hcnt.
  destruct (Z.eqb_spec (msg_cnt m) (Z.of_nat (length (parts_of s uid)) + 1))
    as [Hall | Hall]; [right|left; by auto].
  unfold get_dst. change (get_outgoingmsg s1 uid) with (get_outgoingmsg s uid).
  rewrite Hm. cbn [fmap option_fmap option_map].
  cbn [fst snd]. split; [done|]. split; [done|]. split; [done|].
  split.
  { unfold del_outgoingpart, del_outgoingmsg, s1. cbn. f_equal.
    rewrite filter_app, filter_cons_False by (cbn; tauto).
    by rewrite filter_nil, app_nil_r. }
  split.
  { pose proof (get_outgoingmsg_del s1 uid uid) as Hgone.
    by rewrite decide_True in Hgone. }
  unfold get_outgoingpart. rewrite outgoing_part_del. unfold s1. cbn.
  rewrite filter_app, filter_cons_False by (cbn; tauto).
  rewrite filter_nil, app_nil_r, list_filter_filter.
  apply head_None, filter_none. apply filter_nil_Forall in Hfree.
  eapply Forall_impl; [exact Hfree|]. cbn. tauto.
Qed.

(** The first part of a message of two. *)
Lemma smsdb_outgoing_part_put_stores_witness :
  get_outgoingpart
    (smsdb_outgoing_part_put 256 healthy
       (smsdb_outgoing_add healthy 0 empty_db "dev" "dst" 2 60 1).2 1 7).2
    (part_key_of "dev" "dst" 7)
  = Some (OutgoingPart 1 (part_key_of "dev" "dst" 7) 1 None).
Proof.
  destruct (smsdb_outgoing_part_put_stores 256
              (smsdb_outgoing_add healthy 0 empty_db "dev" "dst" 2 60 1).2 1 7
              (OutgoingMsg 1 "dev" "dst" 2 60 1) eq_refl eq_refl)
    as [(_ & _ & _ & Hget) | (Hres & _)].
  - exact Hget.
  - vm_compute in Hres. discriminate Hres.
Defined.

(** *** Recording a status *)





(** *** Terminal statuses *)

(** A check of every value below 128. *)
Lemma below_128 (P : Z -> bool) :
  forallb P (Z.of_nat <$> seq 0 128) = true ->
  forall r, 0 <= r < 128 -> P r = true.
Proof.
  intros Hall r Hr. rewrite forallb_forall in Hall. apply Hall.
  apply list_elem_of_In, list_elem_of_fmap. exists (Z.to_nat r).
  split; [lia|]. apply elem_of_seq. lia.
Qed.

(** A mask below 128 reads the low seven bits. *)
Lemma land_low7 (st mask : Z) :
  0 <= mask < 128 -> Z.land st mask = Z.land (st mod 128) mask.
Proof.
  intros Hmask. change 128 with (2 ^ 7). rewrite <- Z.land_ones by lia.
  rewrite <- Z.land_assoc. f_equal. symmetry.
  rewrite Z.land_comm, Z.land_ones by lia.
  apply Z.mod_small. change (2 ^ 7) with 128. lia.
Qed.

(** X13.  The terminal test of [cnt_outgoingpart]
    ([status & 64 != 0 OR status & 32 = 0]) is false of a NULL status, and
    false of a status exactly when its low seven bits lie in 32..63: bit 5
    set and bit 6 clear, the statuses the comment of the statement calls
    temporarily failed. *)
Theorem terminal_unless_retrying (st : Z) :
  terminal None = false
  /\ (terminal (Some st) = false <-> 32 <= st mod 128 < 64).
Proof.
  split; [done|].
  assert (Hmod : 0 <= st mod 128 < 128) by (apply Z.mod_pos_bound; lia).
  unfold terminal. rewrite (land_low7 st 64), (land_low7 st 32) by lia.
  set (r := st mod 128) in *.
  pose proof (below_128
    (fun r => Bool.eqb (negb (negb (Z.land r 64 =? 0) || (Z.land r 32 =? 0)))
                ((32 <=? r) && (r <? 64)))) as Hall.
  specialize (Hall ltac:(vm_compute; reflexivity) r Hmod). cbn beta in Hall.
  apply Bool.eqb_prop in Hall.
  destruct (negb (Z.land r 64 =? 0) || (Z.land r 32 =? 0)); cbn in Hall.
  - split; [done|]. intros [H1 H2]. symmetry in Hall.
    apply andb_false_iff in Hall as [Hall | Hall];
      [apply Z.leb_gt in Hall|apply Z.ltb_ge in Hall]; lia.
  - split; [|done]. intros _. symmetry in Hall.
    apply andb_true_iff in Hall as [H1 H2].
    apply Z.leb_le in H1. apply Z.ltb_lt in H2. lia.
Qed.

(** *** Keys *)

Lemma append_cons (c : ascii) (a b : string) :
  String c a +:+ b = String c (a +:+ b).
Proof. reflexivity. Qed.

Lemma length_append (a b : string) :
  String.length (a +:+ b) = (String.length a + String.length b)%nat.
Proof.
  induction a as [|c a IH]; [done|].
  rewrite append_cons. cbn [String.length]. by rewrite IH.
Qed.

Lemma substring_whole (n : nat) (t : string) :
  (String.length t <= n)%nat -> String.substring 0 n t = t.
Proof.
  revert n. induction t as [|c t IH]; intros n Hn; [by destruct n|].
  destruct n as [|n]; [cbn in Hn; lia|]. cbn in *. rewrite IH; [done|lia].
Qed.

Lemma ast_str_set_fits (n : nat) (t : string) :
  (String.length t < n)%nat -> ast_str_set n t = t.
Proof.
  intros Hn. destruct n as [|n]; [lia|]. cbn. apply substring_whole. lia.
Qed.

(** The first separator splits a text in one way. *)
Lemma split_at_slash (a a' r r' : string) :
  slash_free a = true -> slash_free a' = true ->
  a +:+ String "/" r = a' +:+ String "/" r' -> a = a' /\ r = r'.
Proof.
  revert a'. induction a as [|c a IH]; intros a' Ha Ha' Heq.
  - destruct a' as [|c' a']; [by injection Heq|].
    rewrite append_cons in Heq. injection Heq as <- _. by cbn in Ha'.
  - destruct a' as [|c' a'].
    + rewrite append_cons in Heq. injection Heq as -> _. by cbn in Ha.
    + rewrite !append_cons in Heq. injection Heq as -> Heq.
      cbn in Ha, Ha'. apply andb_true_iff in Ha as [_ Ha].
      apply andb_true_iff in Ha' as [_ Ha'].
      destruct (IH a' Ha Ha' Heq) as [-> ->]. done.
Qed.

Lemma slash_free_uint (d : Decimal.uint) :
  slash_free (NilEmpty.string_of_uint d) = true.
Proof. induction d; cbn; done. Qed.

Lemma slash_free_fmt_d (n : Z) : slash_free (fmt_d n) = true.
Proof.
  unfold fmt_d, NilZero.string_of_int, NilZero.string_of_uint.
  destruct (Z.to_int n) as [d|d]; destruct d; try done;
    cbn [slash_free]; try apply slash_free_uint;
    (rewrite andb_true_iff; split; [done|]); try done; apply slash_free_uint.
Qed.

Lemma fmt_d_inj (n n' : Z) : fmt_d n = fmt_d n' -> n = n'.
Proof.
  unfold fmt_d. intros Heq. apply DecimalZ.to_int_inj.
  assert (Hnn : forall z, Z.to_int z <> Decimal.Pos Decimal.Nil
                          /\ Z.to_int z <> Decimal.Neg Decimal.Nil).
  { intros [|p|p]; cbn; split; try discriminate;
      intros [= Hp]; by apply DecimalPos.Unsigned.to_uint_nonnil in Hp. }
  destruct (Hnn n) as [H1 H2], (Hnn n') as [H1' H2'].
  pose proof (NilZero.isi _ H1 H2) as Hn.
  pose proof (NilZero.isi _ H1' H2') as Hn'.
  rewrite Heq in Hn. congruence.
Qed.

(** X14.  Two incoming messages share a key only if they agree on device
    id, sender, reference and part count, provided neither id nor sender
    contains the separator and the keys are not cut at
    [DBKEY_MAX_LEN - 1] characters. *)
Theorem incoming_key_inj (id addr : string) (ref parts : Z)
    (id' addr' : string) (ref' parts' : Z) :
  slash_free id = true -> slash_free addr = true ->
  slash_free id' = true -> slash_free addr' = true ->
  (String.length id + String.length addr + String.length (fmt_d ref)
   + String.length (fmt_d parts) + 3 < DBKEY_MAX_LEN)%nat ->
  (String.length id' + String.length addr' + String.length (fmt_d ref')
   + String.length (fmt_d parts') + 3 < DBKEY_MAX_LEN)%nat ->
  incoming_key id addr ref parts = incoming_key id' addr' ref' parts' ->
  id = id' /\ addr = addr' /\ ref = ref' /\ parts = parts'.
Proof.
  intros Hid Haddr Hid' Haddr' Hlen Hlen'. unfold incoming_key.
  rewrite !ast_str_set_fits
    by (rewrite !length_append; cbn [String.length]; lia).
  intros Heq.
  apply split_at_slash in Heq as [-> Heq]; [|done|done].
  apply split_at_slash in Heq as [-> Heq]; [|done|done].
  apply split_at_slash in Heq as [Href Hparts]; [|apply slash_free_fmt_d..].
  apply fmt_d_inj in Href, Hparts. done.
Qed.

(** X15.  Two outgoing parts share a key only if they agree on device,
    destination and reference, provided neither device nor destination
    contains the separator and the keys are not cut. *)
Theorem part_key_of_inj (dev dst : string) (refid : Z) (dev' dst' : string) (refid' : Z) :
  slash_free dev = true -> slash_free dst = true ->
  slash_free dev' = true -> slash_free dst' = true ->
  (String.length dev + String.length dst + String.length (fmt_d refid) + 2
   < DBKEY_MAX_LEN)%nat ->
  (String.length dev' + String.length dst' + String.length (fmt_d refid') + 2
   < DBKEY_MAX_LEN)%nat ->
  part_key_of dev dst refid = part_key_of dev' dst' refid' ->
  dev = dev' /\ dst = dst' /\ refid = refid'.
Proof.
  intros Hdev Hdst Hdev' Hdst' Hlen Hlen'. unfold part_key_of.
  rewrite !ast_str_set_fits
    by (rewrite !length_append; cbn [String.length]; lia).
  intros Heq.
  apply split_at_slash in Heq as [-> Heq]; [|done|done].
  apply split_at_slash in Heq as [-> Href]; [|done|done].
  apply fmt_d_inj in Href. done.
Qed.

(** Two keys of one message. *)
Lemma incoming_key_inj_witness :
  "A"%string = "A"%string /\ "B"%string = "B"%string /\ 7 = 7 /\ 3 = 3.
Proof.
  apply (incoming_key_inj "A" "B" 7 3 "A" "B" 7 3);
    first [reflexivity | vm_compute; lia].
Defined.

Lemma part_key_of_inj_witness :
  "dev"%string = "dev"%string /\ "dst"%string = "dst"%string /\ 7 = 7.
Proof.
  apply (part_key_of_inj "dev" "dst" 7 "dev" "dst" 7);
    first [reflexivity | vm_compute; lia].
Defined.


(** *** References are kept per pair *)

(** Two pairs with keys of their own share a key only if they are one pair. *)
Lemma ref_key_inj (id addr id' addr' : string) :
  well_keyed id addr -> well_keyed id' addr' ->
  ref_key id addr = ref_key id' addr' -> id = id' /\ addr = addr'.
Proof.
  intros [Hid Hlen] [Hid' Hlen']. unfold ref_key.
  rewrite !ast_str_set_fits
    by (rewrite !length_append; cbn [String.length]; lia).
  intros Heq. by apply split_at_slash in Heq.
Qed.

(** Only [smsdb_get_refid] writes [outgoing_ref]. *)
Lemma serve_refs (dst_max : nat) (flt : oracle) (s : db) (r : request) :
  (forall id addr, r <> GetRefid id addr) ->
  outgoing_ref (serve dst_max flt s r) = outgoing_ref s.
Proof.
  intros Hr.
  pose (Q := fun _ : list outgoing_part_row => True).
  assert (Hf : forall (P : outgoing_part_row -> Prop) (dec : forall p, Decision (P p)) t,
             Q t -> Q (filter P t)) by done.
  assert (Hst : forall st partid t, Q t -> Q (with_status st partid <$> t)) by done.
  assert (Hput : forall s0 s' key uid,
             put_outgoingpart s0 key uid = Some s' ->
             Q (outgoing_part s0) -> Q (outgoing_part s')) by done.
  destruct r; cbn [serve].
  - pose proof (smsdb_put_outgoing flt now ttl s id addr ref parts order msg []) as Hx.
    by injection Hx as Href _ _ _.
  - by destruct (Hr id addr).
  - apply smsdb_outgoing_add_parts.
  - by apply (smsdb_outgoing_clear_parts Q Hf).
  - by apply (smsdb_outgoing_part_put_parts Q Hf Hput).
  - by apply (smsdb_outgoing_part_status_parts Q Hf Hst).
  - by apply (smsdb_outgoing_purge_one_parts Q Hf).
Qed.

(** A request that is not a call for the pair leaves the row of the pair and
    keeps the references bytes, whatever the engine does. *)
Lemma serve_other_pair (dst_max : nat) (flt : oracle) (s : db) (r : request)
    (id addr : string) :
  well_keyed id addr -> other_pair id addr r -> refs_in_range s ->
  outgoing_ref (serve dst_max flt s r) !! ref_key id addr
  = outgoing_ref s !! ref_key id addr
  /\ refs_in_range (serve dst_max flt s r).
Proof.
  intros Hwk Hr Hwf.
  assert (Hrefs : (forall id' addr', r <> GetRefid id' addr') ->
                  outgoing_ref (serve dst_max flt s r) !! ref_key id addr
                  = outgoing_ref s !! ref_key id addr
                  /\ refs_in_range (serve dst_max flt s r)).
  { intros Hne. unfold refs_in_range. by rewrite serve_refs. }
  destruct r; try (by apply Hrefs).
  cbn [serve]. destruct Hr as [Hwk' Hne].
  split; [|by apply smsdb_get_refid_in_range].
  apply smsdb_get_refid_other. intros Heq.
  destruct (ref_key_inj _ _ _ _ Hwk Hwk' Heq) as [-> ->]. by apply Hne.
Qed.

Lemma run_other_pairs (dst_max : nat) (id addr : string)
    (rs : list (oracle * request)) :
  forall s : db,
    well_keyed id addr ->
    Forall (fun fr => other_pair id addr fr.2) rs ->
    refs_in_range s ->
    prev_refid (run dst_max s rs) id addr = prev_refid s id addr
    /\ refs_in_range (run dst_max s rs).
Proof.
  induction rs as [|[flt r] rs IH]; intros s Hwk Hrs Hwf; [done|].
  apply Forall_cons in Hrs as [Hr Hrs]. cbn [fst snd] in Hr.
  change (run dst_max s ((flt, r) :: rs))
    with (run dst_max (serve dst_max flt s r) rs).
  destruct (serve_other_pair dst_max flt s r id addr Hwk Hr Hwf) as [Hk Hwf'].
  destruct (IH _ Hwk Hrs Hwf') as [Hprev Hwf'']. split; [|done].
  rewrite Hprev. unfold prev_refid. by rewrite Hk.
Qed.

(** The [i]-th call for the pair returns the stored value advanced by
    [i + 1], modulo 256, whatever requests for others come between. *)
Lemma refid_calls_among_closed (dst_max : nat) (id addr : string)
    (gaps : list (list (oracle * request))) :
  forall s : db,
    well_keyed id addr ->
    refs_in_range s ->
    Forall (Forall (fun fr => other_pair id addr fr.2)) gaps ->
    refid_calls_among dst_max s id addr gaps =
      (fun i => (prev_refid s id addr + 1 + Z.of_nat i) mod 256)
        <$> seq 0 (length gaps).
Proof.
  induction gaps as [|g gaps IH]; intros s Hwk Hwf Hall; [reflexivity|].
  apply Forall_cons in Hall as [Hg Hall].
  destruct (run_other_pairs dst_max id addr g s Hwk Hg Hwf) as [Hprev Hwf'].
  cbn [refid_calls_among length]. cbn zeta.
  rewrite IH by (done || by apply smsdb_get_refid_in_range).
  rewrite smsdb_get_refid_healthy by assumption. cbn zeta. cbn [fst snd].
  cbn [seq fmap list_fmap]. rewrite Hprev. f_equal.
  - f_equal. lia.
  - rewrite <- fmap_S_seq, <- list_fmap_compose. apply list_fmap_ext. intros _ i _.
    unfold prev_refid at 1, with_outgoing_ref. cbn. rewrite lookup_insert_eq. cbn.
    rewrite <- Z.add_assoc, Zplus_mod_idemp_l. f_equal. lia.
Qed.

(** On a table of reference bytes a call that succeeds, on whatever engine,
    returns the successor modulo 256 and has stored it. *)
Lemma smsdb_get_refid_success (flt : oracle) (s : db) (id addr : string) :
  refs_in_range s ->
  let y := smsdb_get_refid flt s id addr in
  0 <= y.1 ->
  y.1 = (prev_refid s id addr + 1) mod 256
  /\ outgoing_ref y.2 !! ref_key id addr = Some y.1.
Proof.
  intros Hwf y Hy. subst y. unfold prev_refid.
  destruct (smsdb_get_refid_cases flt s id addr)
    as [Hc|[(r & Hk & Hr & Hc)|[(r & Hk & Hr & Hc)|[Hk Hc]]]];
    cbn zeta in Hc; rewrite Hc in Hy |- *; cbn [fst snd] in Hy |- *; [lia| | |].
  - pose proof (Hwf _ r Hk) as Hb. cbn in Hb.
    rewrite c_int_small in Hr by (unfold INT_MAX; lia). lia.
  - pose proof (Hwf _ r Hk) as Hb. cbn in Hb.
    rewrite (c_int_small r), (c_int_small (r + 1)) by (unfold INT_MAX; lia).
    rewrite wrap_256 by done. rewrite Hk. split; [done|].
    unfold with_outgoing_ref. cbn [outgoing_ref].
    by rewrite lookup_alter_eq, Hk.
  - rewrite Hk. split; [done|].
    unfold with_outgoing_ref. cbn [outgoing_ref]. by rewrite lookup_insert_eq.
Qed.

(** C5, as amended.  For a pair with a key of its own (no separator in the
    id, key not cut), on a table of reference bytes: a call of
    [smsdb_get_refid] that succeeds returns the stored reference plus one
    modulo 256 (an absent row counting as 255, so that the first call
    returns 0) and has stored what it returns, and on a healthy engine every
    call succeeds.  No other pair with a key of its own has the
    key of this pair, and requests that are not calls for this pair (calls
    of the other functions, calls of [smsdb_get_refid] for other such
    pairs), on whatever engine, leave the reference of the pair and keep
    the references bytes.  So 256 calls for the pair on a healthy engine,
    back to back or with any such requests before each of them, return 256
    distinct values that cover 0..255, and the 257th returns the first
    again.  On any engine and table a non-negative return value is at most
    255. *)
Theorem smsdb_get_refid_cycle (dst_max : nat) (s : db) (id addr : string) :
  refs_in_range s ->
  well_keyed id addr ->
  let k := ref_key id addr in
  let x := smsdb_get_refid healthy s id addr in
  let rs := refid_calls 256 s id addr in
  let others := Forall (fun fr : oracle * request => other_pair id addr fr.2) in
  x.1 = (prev_refid s id addr + 1) mod 256
  /\ (outgoing_ref s !! k = None -> x.1 = 0)
  /\ outgoing_ref x.2 !! k = Some x.1
  /\ refs_in_range x.2
  /\ (forall flt,
        let y := smsdb_get_refid flt s id addr in
        0 <= y.1 ->
        y.1 = (prev_refid s id addr + 1) mod 256 /\ outgoing_ref y.2 !! k = Some y.1)
  /\ (forall id' addr',
        well_keyed id' addr' -> ref_key id' addr' = k -> id' = id /\ addr' = addr)
  /\ (forall g,
        others g ->
        prev_refid (run dst_max s g) id addr = prev_refid s id addr
        /\ refs_in_range (run dst_max s g)
        /\ (smsdb_get_refid healthy (run dst_max s g) id addr).1 = x.1)
  /\ length rs = 256%nat
  /\ NoDup rs
  /\ (forall v, 0 <= v <= 255 -> v ∈ rs)
  /\ refid_calls 257 s id addr = rs ++ [x.1]
  /\ (forall gaps g,
        length gaps = 256%nat -> Forall others gaps -> others g ->
        let rs' := refid_calls_among dst_max s id addr gaps in
        length rs' = 256%nat
        /\ NoDup rs'
        /\ (forall v, 0 <= v <= 255 -> v ∈ rs')
        /\ refid_calls_among dst_max s id addr (gaps ++ [g]) = rs' ++ [x.1])
  /\ (forall flt s0,
        0 <= (smsdb_get_refid flt s0 id addr).1 ->
        (smsdb_get_refid flt s0 id addr).1 <= 255).
Proof.
  intros Hwf Hwk k x rs others.
  assert (Hx : x = let r := (prev_refid s id addr + 1) mod 256 in
                   (r, with_outgoing_ref s (<[k := r]> (outgoing_ref s)))).
  { subst x k. by apply smsdb_get_refid_healthy. }
  cbn zeta in Hx.
  split; [by rewrite Hx|].
  split. { intros Hk. rewrite Hx. unfold prev_refid. fold k. by rewrite Hk. }
  split. { rewrite Hx. unfold with_outgoing_ref. cbn. apply lookup_insert_eq. }
  split. { subst x. by apply smsdb_get_refid_in_range. }
  split. { intros flt. by apply smsdb_get_refid_success. }
  split. { intros id' addr' Hwk' Heq. by apply ref_key_inj. }
  split.
  { intros g Hg.
    destruct (run_other_pairs dst_max id addr g s Hwk Hg Hwf) as [Hprev Hwf'].
    split; [done|]. split; [done|].
    rewrite smsdb_get_refid_healthy by done. cbn zeta. cbn [fst].
    by rewrite Hprev, Hx. }
  subst rs. rewrite !refid_calls_closed by assumption.
  split; [by rewrite length_fmap, length_seq|].
  split; [by apply cycle_nodup|].
  split; [intros v Hv; by apply cycle_covers|].
  assert (Hlast : (prev_refid s id addr + 1 + Z.of_nat 256) mod 256 = x.1).
  { rewrite Hx. cbn [fst]. change (Z.of_nat 256) with 256.
    by rewrite <- (Zplus_mod_idemp_r 256), Z_mod_same_full, Z.add_0_r. }
  split.
  { change 257%nat with (256 + 1)%nat. rewrite seq_app, fmap_app. f_equal.
    cbn [seq fmap list_fmap Nat.add]. by rewrite Hlast. }
  split; [|intros flt s0; apply smsdb_get_refid_success_range].
  intros gaps g Hlen Hgaps Hg. cbn zeta.
  rewrite !refid_calls_among_closed
    by (done || (apply Forall_app; split; [done|by apply Forall_singleton])).
  rewrite length_app, Hlen. cbn [length].
  split; [by rewrite length_fmap, length_seq|].
  split; [by apply cycle_nodup|].
  split; [intros v Hv; by apply cycle_covers|].
  rewrite seq_app, fmap_app. f_equal.
  cbn [seq fmap list_fmap Nat.add]. by rewrite Hlast.
Qed.

(** The theorem at a table whose pair ["A"], ["B"] last received 254: the
    next call returns 255, also after calls for other pairs and a call of
    another function, and the call after it returns 0. *)
Lemma smsdb_get_refid_cycle_witness :
  let s := with_outgoing_ref empty_db {[ "A/B" := 254 ]} in
  let g := [(healthy, GetRefid "C" "D");
            (failing set_outgoingref_stmt Step, GetRefid "A" "C");
            (healthy, OutgoingAdd 0 "A" "B" 1 60 0)] in
  refs_in_range s
  /\ well_keyed "A" "B"
  /\ Forall (fun fr : oracle * request => other_pair "A" "B" fr.2) g
  /\ (smsdb_get_refid healthy s "A" "B").1 = 255
  /\ (smsdb_get_refid healthy (run 256 s g) "A" "B").1 = 255
  /\ take 2 (refid_calls 256 s "A" "B") = [255; 0]
  /\ refid_calls_among 256 s "A" "B" [g; []; g] = [255; 0; 1].
Proof.
  intros s g.
  assert (Hwf : refs_in_range s).
  { apply map_Forall_singleton. lia. }
  assert (Hwk : forall id addr : string,
             slash_free id = true ->
             (String.length id + String.length addr + 1 <? DBKEY_MAX_LEN)%nat = true ->
             well_keyed id addr).
  { intros id addr Hid Hlen. split; [exact Hid|]. by apply Nat.ltb_lt. }
  assert (Hg : Forall (fun fr : oracle * request => other_pair "A" "B" fr.2) g).
  { repeat constructor; try (by apply Hwk); discriminate. }
  pose proof (smsdb_get_refid_cycle 256 s "A" "B" Hwf (Hwk "A" "B" eq_refl eq_refl))
    as (H1 & _ & _ & _ & _ & _ & Hgap & _).
  destruct (Hgap g Hg) as (_ & _ & H2).
  split; [exact Hwf|]. split; [by apply Hwk|]. split; [exact Hg|].
  split; [rewrite H1; reflexivity|].
  split; [rewrite H2, H1; reflexivity|].
  split; reflexivity.
Defined.

(** C5, as stated, fails for pairs that share a key.  The pairs
    ["a/b"], ["c"] and ["a"], ["b/c"] both have the key ["a/b/c"]: on the
    empty database, where nothing is stored for either, one call for the
    first makes the first call for the second return 1, not 0; and when the
    calls for the two alternate, the 256 calls for the second never return
    0. *)
Lemma smsdb_get_refid_shared_key :
  ref_key "a/b" "c" = ref_key "a" "b/c"
  /\ ("a/b", "c") <> ("a", "b/c")
  /\ (smsdb_get_refid healthy empty_db "a" "b/c").1 = 0
  /\ (smsdb_get_refid healthy
        (smsdb_get_refid healthy empty_db "a/b" "c").2 "a" "b/c").1 = 1
  /\ ~ (0 ∈ refid_calls_among 256 empty_db "a" "b/c"
               (replicate 256 [(healthy, GetRefid "a/b" "c")]))
  /\ ~ refid_per_pair.
Proof.
  split; [reflexivity|]. split; [discriminate|].
  split; [reflexivity|]. split; [reflexivity|].
  split.
  - apply (bool_decide_unpack _). vm_compute. exact I.
  - intros Hper.
    specialize (Hper empty_db "a" "b/c" "a/b" "c" ltac:(discriminate)).
    vm_compute in Hper. discriminate Hper.
Qed.
End SmsdbFacts.

(** ** Properties of the device monitor *)

Module MonitorFacts.

Import Monitor.

(** The drain loop only appends to the trace it is given. *)
Lemma dispatch_results_trace (rejected : task -> bool) (rs : list string) :
  forall ev : list event,
    dispatch_results rejected rs ev
    = (ev ++ (dispatch_results rejected rs []).1, (dispatch_results rejected rs []).2).
Proof.
  induction rs as [|r rs IH]; intros ev.
  - cbn. by rewrite app_nil_r.
  - cbn [dispatch_results]. destruct (Nat.eqb (String.length r) 0); [apply IH|].
    destruct (rejected (at_response_taskproc r)); [reflexivity|].
    rewrite (IH (ev ++ _)), (IH ([] ++ _)). cbn [fst snd].
    by rewrite <- !app_assoc.
Qed.

Lemma read_and_dispatch_trace (o : observation) (ev : list event) :
  read_and_dispatch o ev
  = (ev ++ (read_and_dispatch o []).1, (read_and_dispatch o []).2).
Proof.
  unfold read_and_dispatch. destruct (read_iovcnt o <? 0); [reflexivity|].
  rewrite (dispatch_results_trace _ _ (ev ++ _)),
    (dispatch_results_trace _ _ ([] ++ _)).
  cbn [fst snd]. by rewrite <- !app_assoc.
Qed.

(** C9, as amended.  In every iteration of the monitor loop in which the
    device lock is acquired, the health check passes, the terminate flag is
    not set, the head command's deadline has elapsed and the serializer
    backlog is at least 400, the monitor pushes (after the expired-reports
    task that opens every iteration) the restart-monitor task and then the
    command-timeout task, and then waits with the 500 ms timeout; when no
    data arrives within it the iteration ends there and the loop continues,
    otherwise the iteration goes on to read the data. *)
Theorem monitor_iteration_overdue (o : observation) :
  overdue_and_backlogged o ->
  check_dev_status (health o) = 0 ->
  terminate_requested o = false ->
  (monitor_iteration o).1
    = restart_then_timeout
      ++ (if fd_ready o then (read_and_dispatch o []).1 else [])
  /\ (fd_ready o = false -> monitor_iteration o = (restart_then_timeout, Continue)).
Proof.
  intros (Hlock & (t & Ht & Helapsed) & Hsize) Hhealth Hterm.
  unfold monitor_iteration, check_taskprocessor.
  rewrite Hlock, Hhealth, Hterm, Ht. cbn [Z.eqb negb].
  destruct (Z.leb_spec t 0) as [_|?]; [|lia].
  destruct (Z.leb_spec TASKPROCESSOR_HIGH_WATER (tps_size o)) as [_|?]; [|lia].
  destruct (fd_ready o); cbn [negb].
  - split; [|done]. by rewrite read_and_dispatch_trace.
  - split; [|done]. by rewrite app_nil_r.
Qed.

(** The theorem at a backlog of 401 tasks with the deadline just reached
    and no data within the 500 ms. *)
Lemma monitor_iteration_overdue_witness :
  let o := Observation false (DevHealth false TRIBOOL_TRUE false false false)
             false (Some 0) 401 false 0 [] (fun _ => false) in
  overdue_and_backlogged o
  /\ monitor_iteration o
     = ([Push handle_expired_reports_taskproc; Push restart_monitor_taskproc;
         Push cmd_timeout_taskproc; Wait 500], Continue).
Proof.
  intros o.
  assert (Ho : overdue_and_backlogged o).
  { split; [reflexivity|]. split; [exists 0; split; [reflexivity|lia]|].
    unfold TASKPROCESSOR_HIGH_WATER. cbn. lia. }
  split; [exact Ho|].
  exact (proj2 (monitor_iteration_overdue o Ho eq_refl eq_refl) eq_refl).
Defined.

(** C9, as stated, fails: with the lock acquired, the deadline elapsed and
    401 tasks queued, an iteration that finds the data connection lost, or
    the terminate flag set, pushes only the expired-reports task and leaves
    the loop. *)
Lemma monitor_iteration_overdue_guarded :
  let lost := Observation false (DevHealth true TRIBOOL_TRUE false false false)
                false (Some 0) 401 false 0 [] (fun _ => false) in
  let stopping := Observation false (DevHealth false TRIBOOL_TRUE false false false)
                    true (Some 0) 401 false 0 [] (fun _ => false) in
  overdue_and_backlogged lost
  /\ monitor_iteration lost = ([Push handle_expired_reports_taskproc], Cleanup)
  /\ overdue_and_backlogged stopping
  /\ monitor_iteration stopping = ([Push handle_expired_reports_taskproc], Restart)
  /\ ~ (forall o, overdue_and_backlogged o ->
          exists post, (monitor_iteration o).1 = restart_then_timeout ++ post).
Proof.
  intros lost stopping.
  assert (Hlost : overdue_and_backlogged lost).
  { split; [reflexivity|]. split; [exists 0; split; [reflexivity|lia]|].
    unfold TASKPROCESSOR_HIGH_WATER. cbn. lia. }
  assert (Hstop : overdue_and_backlogged stopping).
  { split; [reflexivity|]. split; [exists 0; split; [reflexivity|lia]|].
    unfold TASKPROCESSOR_HIGH_WATER. cbn. lia. }
  split; [exact Hlost|]. split; [reflexivity|].
  split; [exact Hstop|]. split; [reflexivity|].
  intros Hall. destruct (Hall lost Hlost) as [post Hpost]. discriminate Hpost.
Qed.

(** An iteration that acquires the lock of a healthy device and finds the
    terminate flag set leaves the loop through [e_restart]. *)
Lemma monitor_iteration_terminate (o : observation) :
  trylock_busy o = false ->
  check_dev_status (health o) = 0 ->
  terminate_requested o = true ->
  monitor_iteration o = ([Push handle_expired_reports_taskproc], Restart).
Proof.
  intros Hlock Hhealth Hterm. unfold monitor_iteration.
  by rewrite Hlock, Hhealth, Hterm.
Qed.

(** C10.  [cmd_timeout] leaves the device as it is when no command is at the
    head of the queue or the head command has a nonzero length.  Otherwise
    it hands the timeout to the response handler; when that succeeds and the
    head command carries the ignore flag, the device is the one the handler
    left, so the task itself does not set the terminate flag (it stays unset
    if the handler left it unset); when the handler fails or the command does
    not carry the ignore flag, the terminate flag is set. *)
Theorem cmd_timeout_cases {dev : Type} (ATQ_CMD_FLAG_IGNORE : Z)
    (at_queue_head_cmd : pvt dev -> option at_queue_cmd)
    (at_response_timeout : pvt dev -> Z * pvt dev) (p : pvt dev) :
  let r := cmd_timeout ATQ_CMD_FLAG_IGNORE at_queue_head_cmd at_response_timeout p in
  let handled := at_response_timeout p in
  (at_queue_head_cmd p = None -> r = p)
  /\ (forall ecmd,
        at_queue_head_cmd p = Some ecmd -> cmd_length ecmd <> 0 -> r = p)
  /\ (forall ecmd,
        at_queue_head_cmd p = Some ecmd -> cmd_length ecmd = 0 ->
        handled.1 = 0 -> Z.land (cmd_flags ecmd) ATQ_CMD_FLAG_IGNORE <> 0 ->
        r = handled.2
        /\ (terminate_monitor handled.2 = false -> terminate_monitor r = false))
  /\ (forall ecmd,
        at_queue_head_cmd p = Some ecmd -> cmd_length ecmd = 0 ->
        handled.1 <> 0 \/ Z.land (cmd_flags ecmd) ATQ_CMD_FLAG_IGNORE = 0 ->
        terminate_monitor r = true /\ pvt_dev r = pvt_dev handled.2).
Proof.
  intros r handled. subst r handled. unfold cmd_timeout.
  destruct (at_queue_head_cmd p) as [e|]; [|by repeat split].
  destruct (at_response_timeout p) as [rc p'] eqn:Hresp. cbn [fst snd].
  split; [done|].
  split.
  { intros ecmd [= <-] Hlen. apply Z.eqb_neq in Hlen. by rewrite Hlen. }
  split.
  - intros ecmd [= <-] Hlen Hrc Hflag. subst rc.
    apply Z.eqb_eq in Hlen. apply Z.eqb_neq in Hflag.
    by rewrite Hlen, Hflag.
  - intros ecmd [= <-] Hlen Hcase. apply Z.eqb_eq in Hlen. rewrite Hlen.
    cbn [negb]. destruct (Z.eqb_spec rc 0) as [->|Hrc]; cbn [negb]; [|done].
    destruct Hcase as [?|Hflag]; [done|].
    apply Z.eqb_eq in Hflag. by rewrite Hflag.
Qed.

(** The four cases on a device whose handler answers 0 and leaves the
    device alone, with the ignore flag at bit 0. *)
Lemma cmd_timeout_cases_witness :
  let idle : pvt unit := Pvt false tt in
  let handler (p : pvt unit) := (0, p) in
  cmd_timeout 1 (fun _ => None) handler idle = idle
  /\ cmd_timeout 1 (fun _ => Some (AtQueueCmd 5 0)) handler idle = idle
  /\ cmd_timeout 1 (fun _ => Some (AtQueueCmd 0 1)) handler idle = idle
  /\ terminate_monitor (cmd_timeout 1 (fun _ => Some (AtQueueCmd 0 0)) handler idle)
     = true
  /\ terminate_monitor
       (cmd_timeout 1 (fun _ => Some (AtQueueCmd 0 1)) (fun p => (-1, p)) idle)
     = true.
Proof.
  intros idle handler.
  pose proof (cmd_timeout_cases 1 (fun _ => None) handler idle) as (Hnone & _).
  pose proof (cmd_timeout_cases 1 (fun _ => Some (AtQueueCmd 5 0)) handler idle)
    as (_ & Hlen & _).
  pose proof (cmd_timeout_cases 1 (fun _ => Some (AtQueueCmd 0 1)) handler idle)
    as (_ & _ & Hignore & _).
  pose proof (cmd_timeout_cases 1 (fun _ => Some (AtQueueCmd 0 0)) handler idle)
    as (_ & _ & _ & Hplain).
  pose proof (cmd_timeout_cases 1 (fun _ => Some (AtQueueCmd 0 1))
                (fun p => (-1, p)) idle) as (_ & _ & _ & Hfail).
  split; [exact (Hnone eq_refl)|].
  split; [apply (Hlen (AtQueueCmd 5 0) eq_refl); discriminate|].
  split; [apply (Hignore (AtQueueCmd 0 1) eq_refl eq_refl eq_refl); discriminate|].
  split; [apply (Hplain (AtQueueCmd 0 0) eq_refl eq_refl); by right|].
  apply (Hfail (AtQueueCmd 0 1) eq_refl eq_refl). left. discriminate.
Defined.

(** *** The iteration in all its branches *)

(** The drain loop pushes response tasks and nothing else. *)
Lemma dispatch_results_events (rejected : task -> bool) (rs : list string) (e : event) :
  e ∈ (dispatch_results rejected rs []).1 ->
  exists r, e = Push (at_response_taskproc r).
Proof.
  induction rs as [|r rs IH]; [by intros ?%elem_of_nil|].
  cbn [dispatch_results]. destruct (Nat.eqb (String.length r) 0); [done|].
  destruct (rejected (at_response_taskproc r)).
  - cbn. intros ->%list_elem_of_singleton. by exists r.
  - rewrite dispatch_results_trace. cbn [fst]. rewrite elem_of_app.
    intros [->%list_elem_of_singleton | He]; [by exists r|by apply IH].
Qed.

Lemma read_and_dispatch_events (o : observation) (e : event) :
  e ∈ (read_and_dispatch o []).1 ->
  e = Read \/ exists r, e = Push (at_response_taskproc r).
Proof.
  unfold read_and_dispatch. destruct (read_iovcnt o <? 0).
  - cbn. intros ->%list_elem_of_singleton. by left.
  - rewrite dispatch_results_trace. cbn [fst]. rewrite elem_of_app.
    intros [->%list_elem_of_singleton | He]; [by left|right].
    by eapply dispatch_results_events.
Qed.

(** A housekeeping task is in the trace of an iteration that reads only if
    it was pushed before the read. *)
Lemma housekeeping_before_read (o : observation) (ev : list event) (t : task) :
  (forall r, t <> at_response_taskproc r) ->
  Push t ∈ (read_and_dispatch o ev).1 <-> Push t ∈ ev.
Proof.
  intros Ht. rewrite read_and_dispatch_trace. cbn [fst]. rewrite elem_of_app.
  split; [|by left]. intros [He | He]; [done|].
  apply read_and_dispatch_events in He as [He | [r He]]; [done|].
  injection He as ->. by destruct (Ht r).
Qed.

(** The branches of an iteration, by what it observes. *)
Ltac iteration_cases o :=
  unfold monitor_iteration, check_taskprocessor, TASKPROCESSOR_HIGH_WATER,
    proceeds_locked;
  destruct (trylock_busy o);
  [ destruct (fd_ready o)
  | destruct (Z.eqb_spec (check_dev_status (health o)) 0) as [Hdev|Hdev];
    [ destruct (terminate_requested o);
      [ | destruct (queue_timeout o) as [t|];
          [ destruct (Z.leb_spec t 0) as [Hdue|Hdue] | ];
          destruct (Z.leb_spec 400 (tps_size o)) as [Hsize|Hsize];
          destruct (fd_ready o) ]
    | ] ];
  cbn [negb app fst snd].

Ltac housekeeping :=
  rewrite ?housekeeping_before_read by done;
  rewrite ?elem_of_cons, ?elem_of_nil.

(** X22.  When the housekeeping tasks are pushed.  In every iteration: the
    ping task is pushed exactly when the wait ends without data and either
    the device lock was busy or the iteration went on under the lock with
    no command deadline in force; the command-timeout task exactly when the
    iteration went on under the lock with a deadline that had elapsed
    already or elapsed during the wait; the restart-monitor task exactly
    when the iteration went on under the lock, the serializer backlog has
    reached the high-water mark, and either the deadline had elapsed
    already, or there was none and the wait ended without data. *)
Theorem monitor_iteration_housekeeping (o : observation) :
  let ev := (monitor_iteration o).1 in
  (Push at_enqueue_ping_taskproc ∈ ev
   <-> fd_ready o = false
       /\ (trylock_busy o = true \/ (proceeds_locked o /\ queue_timeout o = None)))
  /\ (Push cmd_timeout_taskproc ∈ ev
      <-> proceeds_locked o
          /\ exists t, queue_timeout o = Some t /\ (t <= 0 \/ fd_ready o = false))
  /\ (Push restart_monitor_taskproc ∈ ev
      <-> proceeds_locked o
          /\ TASKPROCESSOR_HIGH_WATER <= tps_size o
          /\ match queue_timeout o with
             | Some t => t <= 0
             | None => fd_ready o = false
             end).
Proof.
  cbn zeta. unfold TASKPROCESSOR_HIGH_WATER.
  split; [|split]; iteration_cases o; housekeeping.
  all: try (intuition (try discriminate; try congruence; try lia); fail).
  all: split;
    [ intros He; repeat (destruct He as [He|He]; try discriminate He); try done;
      (split; [done|exists t; split; [done|first [left; lia|by right]]])
    | intros (_ & t0 & Ht & Hc);
      first [ discriminate Ht
            | injection Ht as <-;
              first [ by repeat (first [by left|right])
                    | destruct Hc; [lia|discriminate] ] ] ].
Qed.

(** How the drain loop ends: through [e_restart] exactly when one of the
    response tasks is refused. *)
Lemma dispatch_results_next (rejected : task -> bool) (rs : list string) :
  forall ev : list event,
    (dispatch_results rejected rs ev).2
    = if decide (Exists (fun t => rejected t = true) (response_tasks rs))
      then Restart else Continue.
Proof.
  unfold response_tasks.
  induction rs as [|r rs IH]; intros ev.
  - cbn. rewrite decide_False; [done|]. by intros ?%Exists_nil.
  - cbn [dispatch_results].
    destruct (Nat.eqb_spec (String.length r) 0) as [Hlen|Hlen].
    + rewrite IH, filter_cons_False by (cbn; lia). done.
    + rewrite filter_cons_True, fmap_cons by done.
      destruct (rejected (at_response_taskproc r)) eqn:Hr.
      * cbn. rewrite decide_True; [done|]. by apply Exists_cons_hd.
      * rewrite IH. apply decide_ext. rewrite Exists_cons. split; [by right|].
        intros [Hhd|Htl]; [congruence|done].
Qed.

(** X23.  How an iteration leaves the loop.  It goes to [e_cleanup]
    exactly when it holds the device lock and the device check fails; it
    breaks out exactly when it reads and [at_read] fails; it goes to
    [e_restart] exactly when it holds the lock of a device in order with
    the terminate flag set, or when it reads and the serializer refuses one
    of the response tasks.  With the lock busy neither the device check nor
    the terminate flag ends the loop. *)
Theorem monitor_iteration_leaves (o : observation) :
  let nx := (monitor_iteration o).2 in
  (nx = Cleanup <-> trylock_busy o = false /\ check_dev_status (health o) <> 0)
  /\ (nx = Break <-> reads o /\ read_iovcnt o < 0)
  /\ (nx = Restart <->
        (trylock_busy o = false /\ check_dev_status (health o) = 0
         /\ terminate_requested o = true)
        \/ (reads o /\ 0 <= read_iovcnt o
            /\ Exists (fun t => push_rejected o t = true) (response_tasks (results o)))).
Proof.
  cbn zeta. unfold reads.
  assert (Hread : forall ev,
            (read_and_dispatch o ev).2
            = if read_iovcnt o <? 0 then Break
              else if decide (Exists (fun t => push_rejected o t = true)
                                (response_tasks (results o)))
                   then Restart else Continue).
  { intros ev. unfold read_and_dispatch. destruct (read_iovcnt o <? 0); [done|].
    apply dispatch_results_next. }
  split; [|split]; iteration_cases o; rewrite ?Hread;
    try destruct (Z.ltb_spec (read_iovcnt o) 0) as [Hcnt|Hcnt];
    try destruct (decide (Exists _ _)) as [Hrej|Hrej].
  all: try (intuition (try discriminate; try congruence; try lia); fail).
Qed.

Lemma waits_app (ev ev' : list event) : waits (ev ++ ev') = waits ev ++ waits ev'.
Proof. apply omap_app. Qed.

Lemma dispatch_results_waits (rejected : task -> bool) (rs : list string) :
  waits (dispatch_results rejected rs []).1 = [].
Proof.
  induction rs as [|r rs IH]; [done|]. cbn [dispatch_results].
  destruct (Nat.eqb (String.length r) 0); [done|].
  destruct (rejected (at_response_taskproc r)); [done|].
  rewrite dispatch_results_trace. cbn [fst]. by rewrite waits_app, IH.
Qed.

Lemma read_and_dispatch_waits (o : observation) (ev : list event) :
  waits (read_and_dispatch o ev).1 = waits ev.
Proof.
  rewrite read_and_dispatch_trace. cbn [fst]. rewrite waits_app.
  unfold read_and_dispatch. destruct (read_iovcnt o <? 0); [by rewrite app_nil_r|].
  rewrite dispatch_results_trace. cbn [fst].
  by rewrite waits_app, dispatch_results_waits, app_nil_r.
Qed.

(** X24.  Every iteration begins by pushing the expired-reports task, and
    waits at most once, with a positive timeout: it waits, once and for
    [wait_timeout], exactly when the lock is busy or it goes on under the
    lock, and so in every iteration after which the loop continues. *)
Theorem monitor_iteration_waits (o : observation) :
  let ev := (monitor_iteration o).1 in
  head ev = Some (Push handle_expired_reports_taskproc)
  /\ 0 < wait_timeout o
  /\ (waits ev = [wait_timeout o] \/ waits ev = [])
  /\ (waits ev = [wait_timeout o] <-> trylock_busy o = true \/ proceeds_locked o)
  /\ ((monitor_iteration o).2 = Continue -> waits ev = [wait_timeout o]).
Proof.
  cbn zeta.
  assert (Hhead : forall ev,
            head (read_and_dispatch o (Push handle_expired_reports_taskproc :: ev)).1
            = Some (Push handle_expired_reports_taskproc)).
  { intros ev. by rewrite read_and_dispatch_trace. }
  assert (Hpos : 0 < wait_timeout o).
  { unfold wait_timeout, RESPONSE_READ_TIMEOUT, UNHANDLED_COMMAND_TIMEOUT.
    destruct (trylock_busy o); [lia|]. destruct (queue_timeout o) as [t|]; [|lia].
    destruct (Z.leb_spec t 0); lia. }
  split; [|split; [exact Hpos|]]; clear Hpos; unfold wait_timeout;
    [|split; [|split]]; iteration_cases o; rewrite ?read_and_dispatch_waits;
    rewrite ?Hhead; cbn;
    unfold RESPONSE_READ_TIMEOUT, UNHANDLED_COMMAND_TIMEOUT;
    try (destruct (Z.leb_spec t 0); try lia).
  all: try (intuition (try discriminate; try congruence; try lia); fail).
Qed.


End MonitorFacts.

(** ** Properties of opening and closing the store *)

Module LifecycleFacts.

Import Sqlite Lifecycle.

Lemma prepared_with_stmt (c : statics) (s q : sql) (set : bool) :
  prepared (with_stmt c s set) q = if decide (q = s) then set else prepared c q.
Proof. reflexivity. Qed.

Lemma bind_ret {A B : Type} (m : M A) (f : A -> B) (e : engine) (c : statics) :
  (x <- m ;; ret (f x)) e c = (f (m e c).1.1, (m e c).1.2, (m e c).2 ++ []).
Proof. reflexivity. Qed.

Lemma or_chain_cons (m : M Z) (ms : list (M Z)) (e : engine) (c : statics) :
  or_chain (m :: ms) e c
  = if (m e c).1.1 =? 0
    then ((or_chain ms e (m e c).1.2).1.1,
          (or_chain ms e (m e c).1.2).1.2,
          (m e c).2 ++ (or_chain ms e (m e c).1.2).2)
    else (1, (m e c).1.2, (m e c).2 ++ []).
Proof. cbn [or_chain]. unfold bind. by destruct (_ =? 0). Qed.

(** *** The statements *)

Lemma schema_statements_nodup : NoDup schema_statements.
Proof. apply (bool_decide_unpack _). vm_compute. exact I. Qed.

Lemma runtime_statements_nodup : NoDup runtime_statements.
Proof. apply (bool_decide_unpack _). vm_compute. exact I. Qed.

Lemma statements_covered (s : sql) :
  s ∈ schema_statements \/ s ∈ runtime_statements.
Proof.
  destruct s as [[]| | | | | | |];
    first [left; apply list_elem_of_In; cbn; tauto
          |right; apply list_elem_of_In; cbn; tauto].
Qed.

Lemma all_statements_covered (s : sql) : s ∈ all_statements.
Proof. destruct s as [[]| | | | | | |]; apply list_elem_of_In; cbn; tauto. Qed.

(** A statement of [init_statements] stands at one place of its chain. *)
Lemma runtime_statements_split (l1 : list sql) (s : sql) (l2 : list sql) :
  runtime_statements = l1 ++ s :: l2 ->
  (s ∉ l1) /\ (forall q, q ∈ l2 -> (q ∉ l1) /\ q <> s).
Proof.
  intros Hsplit. pose proof runtime_statements_nodup as Hnd. rewrite Hsplit in Hnd.
  apply NoDup_app in Hnd as (_ & Hdisj & Hnd2). apply NoDup_cons in Hnd2 as [Hs2 _].
  split.
  - intros Hin. apply (Hdisj s Hin). apply list_elem_of_here.
  - intros q Hq. split.
    + intros Hin. apply (Hdisj q Hin). by right.
    + by intros ->.
Qed.

(** *** [init_statements] *)

Lemma init_stmt_ok (e : engine) (c : statics) (s : sql) :
  sqlite3_prepare e s = true ->
  init_stmt s e c = (0, with_stmt c s true, [Prepares s]).
Proof. unfold init_stmt. by intros ->. Qed.

Lemma init_stmt_fails (e : engine) (c : statics) (s : sql) :
  sqlite3_prepare e s = false ->
  init_stmt s e c = (-1, with_stmt c s false, [Prepares s]).
Proof. unfold init_stmt. by intros ->. Qed.

(** A chain whose statements can all be prepared. *)
Lemma init_statements_all (e : engine) (l : list sql) :
  forall c : statics,
    Forall (fun q => sqlite3_prepare e q = true) l ->
    let x := or_chain (init_stmt <$> l) e c in
    x.1.1 = 0
    /\ x.2 = Prepares <$> l
    /\ smsdb x.1.2 = smsdb c
    /\ forall q, prepared x.1.2 q = if decide (q ∈ l) then true else prepared c q.
Proof.
  induction l as [|s l IH]; intros c Hall; cbn zeta.
  - cbn. by repeat split.
  - apply Forall_cons in Hall as [Hs Hall].
    rewrite fmap_cons, or_chain_cons, (init_stmt_ok _ _ _ Hs). cbn [fst snd Z.eqb app].
    destruct (IH (with_stmt c s true) Hall) as (Hres & Htr & Hdb & Hprep).
    split; [done|]. split; [by rewrite Htr|]. split; [done|].
    intros q. rewrite Hprep, prepared_with_stmt.
    destruct (decide (q ∈ l)) as [Hin|Hin].
    + rewrite decide_True; [done|]. by right.
    + destruct (decide (q = s)) as [->|Hne].
      * rewrite decide_True; [done|]. by left.
      * rewrite decide_False; [done|]. by intros [?|?]%elem_of_cons.
Qed.

(** A chain up to the first statement that cannot be prepared. *)
Lemma init_statements_first_failure (e : engine) (l1 : list sql) (s : sql)
    (l2 : list sql) :
  forall c : statics,
    Forall (fun q => sqlite3_prepare e q = true) l1 ->
    sqlite3_prepare e s = false ->
    let x := or_chain (init_stmt <$> (l1 ++ s :: l2)) e c in
    x.1.1 = 1
    /\ x.2 = Prepares <$> (l1 ++ [s])
    /\ smsdb x.1.2 = smsdb c
    /\ forall q, prepared x.1.2 q
                 = if decide (q ∈ l1) then true
                   else if decide (q = s) then false else prepared c q.
Proof.
  induction l1 as [|s1 l1 IH]; intros c Hall Hs; cbn zeta.
  - cbn [app]. rewrite fmap_cons, or_chain_cons, (init_stmt_fails _ _ _ Hs).
    cbn. by repeat split.
  - apply Forall_cons in Hall as [Hs1 Hall].
    cbn [app]. rewrite fmap_cons, or_chain_cons, (init_stmt_ok _ _ _ Hs1).
    cbn [fst snd Z.eqb app].
    destruct (IH (with_stmt c s1 true) Hall Hs) as (Hres & Htr & Hdb & Hprep).
    split; [done|]. split; [by rewrite Htr|]. split; [done|].
    intros q. rewrite Hprep, prepared_with_stmt.
    destruct (decide (q ∈ l1)) as [Hin|Hin].
    + rewrite decide_True; [done|]. by right.
    + destruct (decide (q = s1)) as [->|Hne].
      * destruct (decide (s1 = s)) as [->|?]; [congruence|].
        by rewrite (decide_True (P := s1 ∈ s1 :: l1)); [|apply list_elem_of_here].
      * rewrite (decide_False (P := q ∈ s1 :: l1)); [done|].
        by intros [?|?]%elem_of_cons.
Qed.

(** The first statement that cannot be prepared, if there is one. *)
Lemma first_failure (e : engine) (l : list sql) :
  Forall (fun q => sqlite3_prepare e q = true) l
  \/ exists l1 s l2,
       l = l1 ++ s :: l2
       /\ Forall (fun q => sqlite3_prepare e q = true) l1
       /\ sqlite3_prepare e s = false.
Proof.
  induction l as [|s l IH]; [by left|].
  destruct (sqlite3_prepare e s) eqn:Hs.
  - destruct IH as [Hall | (l1 & s' & l2 & -> & Hall & Hs')].
    + left. by constructor.
    + right. exists (s :: l1), s', l2. split; [done|]. split; [by constructor|done].
  - right. by exists [], s, l.
Qed.

(** X19.  [init_statements] stops at the first statement that cannot be
    prepared: it returns 1, the statements before it in the chain are set,
    the failing one is NULL, and the statements after it are never handed to
    [sqlite3_prepare] and stay as they were. *)
Theorem init_statements_stops (e : engine) (c : statics)
    (l1 : list sql) (s : sql) (l2 : list sql) :
  let x := init_statements e c in
  runtime_statements = l1 ++ s :: l2 ->
  Forall (fun q => sqlite3_prepare e q = true) l1 ->
  sqlite3_prepare e s = false ->
  x.1.1 = 1
  /\ x.2 = Prepares <$> (l1 ++ [s])
  /\ (forall q, q ∈ l1 -> prepared x.1.2 q = true)
  /\ prepared x.1.2 s = false
  /\ (forall q, q ∈ l2 -> prepared x.1.2 q = prepared c q)
  /\ smsdb x.1.2 = smsdb c.
Proof.
  intros x Hsplit Hall Hs. subst x. unfold init_statements.
  destruct (runtime_statements_split l1 s l2 Hsplit) as [Hs1 Hl2].
  rewrite Hsplit.
  destruct (init_statements_first_failure e l1 s l2 c Hall Hs)
    as (Hres & Htr & Hdb & Hprep).
  split; [done|]. split; [done|]. split; [|split; [|split]].
  - intros q Hq. by rewrite Hprep, decide_True.
  - by rewrite Hprep, decide_False, decide_True.
  - intros q Hq. destruct (Hl2 q Hq) as [Hq1 Hqs].
    by rewrite Hprep, decide_False, decide_False.
  - done.
Qed.

(** The chain on an engine that cannot prepare [get_cnt]. *)
Lemma init_statements_stops_witness :
  (init_statements (failing_prepare (Query get_cnt_stmt)) unloaded).2
  = [Prepares (Query get_full_message_stmt); Prepares (Query put_message_stmt);
     Prepares (Query clear_messages_stmt); Prepares purge_messages_stmt;
     Prepares (Query get_cnt_stmt)].
Proof.
  assert (Hall : Forall (fun q => sqlite3_prepare
                                    (failing_prepare (Query get_cnt_stmt)) q = true)
                   [Query get_full_message_stmt; Query put_message_stmt;
                    Query clear_messages_stmt; purge_messages_stmt])
    by by repeat constructor.
  exact (proj1 (proj2
           (init_statements_stops (failing_prepare (Query get_cnt_stmt)) unloaded
              [Query get_full_message_stmt; Query put_message_stmt;
               Query clear_messages_stmt; purge_messages_stmt]
              (Query get_cnt_stmt)
              [Query ins_outgoingref_stmt; Query set_outgoingref_stmt;
               Query get_outgoingref_stmt; Query put_outgoingmsg_stmt;
               Query put_outgoingpart_stmt; Query del_outgoingmsg_stmt;
               Query del_outgoingpart_stmt; Query get_outgoingmsg_stmt;
               Query get_outgoingpart_stmt; Query set_outgoingpart_stmt;
               Query cnt_outgoingpart_stmt; Query cnt_all_outgoingpart_stmt;
               Query get_dst_stmt; Query get_all_status_stmt;
               Query get_expired_stmt]
              eq_refl Hall eq_refl))).
Defined.

(** *** [db_create_smsdb] *)

Lemma create_step_spec (s : sql) (res : Z) (e : engine) (c : statics) :
  let x := create_step s res e c in
  x.1.1 = (if usable e c s && sqlite3_step e s then res else -1)
  /\ smsdb x.1.2 = smsdb c
  /\ (forall q, prepared x.1.2 q = if decide (q = s) then usable e c s else prepared c q)
  /\ x.2 = (if prepared c s then [] else [Prepares s])
           ++ [Steps s] ++ (if usable e c s then [Resets s] else []).
Proof.
  cbn zeta. unfold create_step, usable, init_stmt.
  destruct (prepared c s) eqn:Hset; cbn [fst snd orb].
  - rewrite Hset. repeat split. intros q.
    destruct (decide (q = s)) as [->|]; done.
  - destruct (sqlite3_prepare e s); cbn [fst snd]; rewrite prepared_with_stmt;
      rewrite decide_True by done; repeat split; intros q;
      rewrite prepared_with_stmt; by destruct (decide (q = s)).
Qed.

Lemma db_create_smsdb_steps (e : engine) (c : statics) :
  db_create_smsdb e c = create_steps schema_statements 0 e c.
Proof.
  unfold db_create_smsdb, schema_statements. cbn [create_steps]. unfold bind, ret.
  cbn [fst snd]. rewrite app_nil_r. by destruct (create_step _ _ _ _) as [[? ?] ?].
Qed.

Lemma create_steps_spec (e : engine) (l : list sql) :
  forall (res : Z) (c : statics),
    NoDup l ->
    let x := create_steps l res e c in
    x.1.1 = (if decide (Forall (fun s => usable e c s && sqlite3_step e s = true) l)
             then res else -1)
    /\ smsdb x.1.2 = smsdb c
    /\ (forall q, prepared x.1.2 q = if decide (q ∈ l) then usable e c q else prepared c q)
    /\ Forall (fun s => Steps s ∈ x.2) l.
Proof.
  induction l as [|s l IH]; intros res c Hnd; cbn zeta.
  - cbn. by repeat split.
  - apply NoDup_cons in Hnd as [Hs Hnd]. cbn [create_steps forallb]. unfold bind.
    destruct (create_step_spec s res e c) as (Hres & Hdb & Hprep & Htr).
    set (x := create_step s res e c) in *.
    destruct (IH x.1.1 x.1.2 Hnd) as (Hres' & Hdb' & Hprep' & Htr').
    cbn [fst snd].
    assert (Huse : forall q, q ∈ l -> usable e x.1.2 q = usable e c q).
    { intros q Hq. unfold usable. rewrite Hprep, decide_False; [done|].
      intros ->. done. }
    assert (Hall : Forall (fun s0 => usable e x.1.2 s0 && sqlite3_step e s0 = true) l
                   <-> Forall (fun s0 => usable e c s0 && sqlite3_step e s0 = true) l).
    { rewrite !Forall_forall. split; intros Hl q Hq; specialize (Hl q Hq);
        by rewrite Huse in *. }
    split.
    { rewrite Hres'.
      destruct (decide (Forall (fun s0 => usable e x.1.2 s0 && sqlite3_step e s0 = true) l))
        as [Hl|Hl];
        destruct (decide (Forall _ (s :: l))) as [Hsl|Hsl].
      - rewrite Hres. apply Forall_cons in Hsl as [Hhd _]. by rewrite Hhd.
      - rewrite Hres. destruct (usable e c s && sqlite3_step e s) eqn:Hok; [|done].
        destruct Hsl. apply Forall_cons. split; [done|by apply Hall].
      - apply Forall_cons in Hsl as [_ Htl]. destruct Hl. by apply Hall.
      - done. }
    split; [congruence|]. split.
    { intros q. rewrite Hprep', Hprep.
      destruct (decide (q ∈ l)) as [Hq|Hq].
      - rewrite (decide_True (P := q ∈ s :: l)) by by right. by apply Huse.
      - destruct (decide (q = s)) as [->|Hne].
        + by rewrite (decide_True (P := s ∈ s :: l)) by apply list_elem_of_here.
        + rewrite (decide_False (P := q ∈ s :: l)); [done|].
          by intros [?|?]%elem_of_cons. }
    apply Forall_cons. split.
    { rewrite Htr. apply elem_of_app. left. apply elem_of_app. right.
      apply elem_of_app. left. apply list_elem_of_here. }
    eapply Forall_impl; [exact Htr'|]. intros q Hq. cbn. apply elem_of_app. by right.
Qed.

(** [db_create_smsdb] returns 0 exactly when every block can step its
    statement. *)
Lemma db_create_smsdb_result (e : engine) (c : statics) :
  let x := db_create_smsdb e c in
  (x.1.1 = 0 \/ x.1.1 = -1)
  /\ (x.1.1 = 0
      <-> Forall (fun s => usable e c s && sqlite3_step e s = true) schema_statements)
  /\ smsdb x.1.2 = smsdb c
  /\ (forall q, prepared x.1.2 q
                = if decide (q ∈ schema_statements) then usable e c q else prepared c q).
Proof.
  cbn zeta. rewrite db_create_smsdb_steps.
  destruct (create_steps_spec e schema_statements 0 c schema_statements_nodup)
    as (Hres & Hdb & Hprep & _).
  rewrite Hres.
  destruct (decide (Forall _ schema_statements)) as [Hall|Hall];
    (split; [by auto|]); (split; [|done]); by split.
Qed.

(** X20.  [db_create_smsdb] steps the statement of every table and index
    of the schema, in whatever state it finds them and whatever fails
    before; it returns 0 when each of the six statements was set or could
    be prepared and its step ended in SQLITE_DONE, and -1 otherwise; it
    leaves the handle and the statements outside the schema alone. *)
Theorem db_create_smsdb_attempts_all (e : engine) (c : statics) :
  let x := db_create_smsdb e c in
  Forall (fun s => Steps s ∈ x.2) schema_statements
  /\ (x.1.1 = 0
      <-> Forall (fun s => (prepared c s = true \/ sqlite3_prepare e s = true)
                           /\ sqlite3_step e s = true) schema_statements)
  /\ (x.1.1 = 0 \/ x.1.1 = -1)
  /\ smsdb x.1.2 = smsdb c
  /\ (forall q, q ∉ schema_statements -> prepared x.1.2 q = prepared c q).
Proof.
  cbn zeta. destruct (db_create_smsdb_result e c) as (Hval & Hres & Hdb & Hprep).
  split; [|split; [|split; [done|split; [done|]]]].
  - rewrite db_create_smsdb_steps.
    by destruct (create_steps_spec e schema_statements 0 c schema_statements_nodup)
      as (_ & _ & _ & Htr).
  - rewrite Hres. apply Forall_iff. intros s. cbn. unfold usable.
    rewrite andb_true_iff, orb_true_iff. done.
  - intros q Hq. by rewrite Hprep, decide_False.
Qed.

(** *** [smsdb_init] *)

Section Init.
Variable STRLEN : string -> nat.
Variable sms_db : string.

(** [smsdb_init] from a NULL handle. *)
Lemma smsdb_init_unloaded (e : engine) (c : statics) :
  smsdb c = NULL ->
  smsdb_init STRLEN sms_db e c =
    match sqlite3_open e (dbname STRLEN sms_db) with
    | Refused handle_left =>
        (-1,
         Statics (if handle_left then Stale (dbname STRLEN sms_db) else NULL)
           (prepared c),
         [Opens (dbname STRLEN sms_db); Closes])
    | Opened =>
        let x := db_create_smsdb e (Statics (Live (dbname STRLEN sms_db)) (prepared c)) in
        if x.1.1 =? 0 then
          let y := init_statements e x.1.2 in
          (if y.1.1 =? 0 then 0 else -1, y.1.2,
           Opens (dbname STRLEN sms_db) :: x.2 ++ y.2)
        else (-1, x.1.2, Opens (dbname STRLEN sms_db) :: x.2)
    end.
Proof.
  intros Hnull. unfold smsdb_init. rewrite bind_ret. unfold db_init.
  rewrite Hnull, bind_ret, or_chain_cons.
  set (o := db_open STRLEN sms_db e c).
  assert (Ho : o = match sqlite3_open e (dbname STRLEN sms_db) with
                   | Opened =>
                       (0, Statics (Live (dbname STRLEN sms_db)) (prepared c),
                        [Opens (dbname STRLEN sms_db)])
                   | Refused handle_left =>
                       (-1,
                        Statics (if handle_left then Stale (dbname STRLEN sms_db)
                                 else NULL) (prepared c),
                        [Opens (dbname STRLEN sms_db); Closes])
                   end) by reflexivity.
  clearbody o.
  destruct (sqlite3_open e (dbname STRLEN sms_db)) as [|handle_left]; subst o;
    cbn [fst snd Z.eqb app]; [|done].
  rewrite or_chain_cons.
  set (x := db_create_smsdb e _).
  destruct (x.1.1 =? 0); cbn [fst snd Z.eqb]; [|by rewrite !app_nil_r].
  rewrite or_chain_cons. set (y := init_statements e _).
  destruct (y.1.1 =? 0); cbn [fst snd or_chain ret Z.eqb]; by rewrite !app_nil_r.
Qed.

(** [smsdb_init] with a handle in [smsdb]. *)
Lemma smsdb_init_loaded (e : engine) (c : statics) :
  smsdb c <> NULL -> smsdb_init STRLEN sms_db e c = (0, c, []).
Proof. intros Hc. unfold smsdb_init, bind, db_init. by destruct (smsdb c). Qed.

(** X17.  From the variables as the program starts them (NULL handle, no
    statement set), [smsdb_init] returns 0 or -1, and 0 exactly when the
    open succeeds, each statement of the schema is prepared and stepped to
    SQLITE_DONE, and each statement of [init_statements] is prepared; the
    handle is then the connection to the chosen name and all 26 statements
    are set. *)
Theorem smsdb_init_succeeds (e : engine) (c : statics) :
  let x := smsdb_init STRLEN sms_db e c in
  smsdb c = NULL ->
  (forall s, prepared c s = false) ->
  (x.1.1 = 0 \/ x.1.1 = -1)
  /\ (x.1.1 = 0
      <-> sqlite3_open e (dbname STRLEN sms_db) = Opened
          /\ Forall (fun s => sqlite3_prepare e s = true /\ sqlite3_step e s = true)
               schema_statements
          /\ Forall (fun s => sqlite3_prepare e s = true) runtime_statements)
  /\ (x.1.1 = 0 ->
      smsdb x.1.2 = Live (dbname STRLEN sms_db)
      /\ forall s, prepared x.1.2 s = true).
Proof.
  intros x Hnull Hnone. subst x. rewrite (smsdb_init_unloaded e c Hnull).
  destruct (sqlite3_open e (dbname STRLEN sms_db)) as [|handle_left];
    [|split; [by right|]; split; [split; [done|by intros [? _]]|done]].
  cbn zeta. set (c1 := Statics (Live (dbname STRLEN sms_db)) (prepared c)).
  destruct (db_create_smsdb_result e c1) as (_ & Hcreate & Hdb & Hprep).
  set (x := db_create_smsdb e c1) in *.
  assert (Hschema : x.1.1 = 0
                    <-> Forall (fun s => sqlite3_prepare e s = true
                                         /\ sqlite3_step e s = true) schema_statements).
  { rewrite Hcreate. apply Forall_iff. intros s. cbn. unfold usable. cbn.
    by rewrite Hnone, andb_true_iff. }
  destruct (Z.eqb_spec x.1.1 0) as [Hx|Hx].
  - destruct (first_failure e runtime_statements)
      as [Hall | (l1 & s & l2 & Hsplit & Hall & Hs)].
    + destruct (init_statements_all e runtime_statements x.1.2 Hall)
        as (Hres & _ & Hdb' & Hprep').
      fold init_statements in Hres, Hdb', Hprep'. rewrite Hres. cbn [fst snd Z.eqb].
      split; [by left|]. split; [split; [|done]|].
      * intros _. split; [done|]. split; [by apply Hschema|done].
      * intros _. split; [by rewrite Hdb', Hdb|]. intros s.
        rewrite Hprep'. destruct (decide (s ∈ runtime_statements)); [done|].
        rewrite Hprep. destruct (statements_covered s) as [Hs|Hs]; [|done].
        rewrite decide_True by done. unfold usable. cbn. rewrite Hnone. cbn.
        apply Hschema in Hx. rewrite Forall_forall in Hx. by apply Hx.
    + destruct (init_statements_first_failure e l1 s l2 x.1.2 Hall Hs) as (Hres & _).
      rewrite <- Hsplit in Hres. fold init_statements in Hres.
      rewrite Hres. cbn [fst snd Z.eqb].
      split; [by right|]. split; [|done]. split; [done|].
      intros (_ & _ & Hrun). rewrite Hsplit in Hrun.
      apply Forall_app in Hrun as [_ Hrun]. apply Forall_cons in Hrun as [Hrun _].
      congruence.
  - cbn [fst snd]. split; [by right|]. split; [|done]. split; [done|].
    intros (_ & Hsch & _). by apply Hschema in Hsch.
Qed.

(** X18.  When [smsdb_init] fails from the variables as the program starts
    them, and the failed call left a handle in [smsdb] (the open succeeded,
    or was refused with a handle), a second call returns 0 without a call
    to the engine and without a change to the variables, whatever the
    engine would do now; [get_expired], the last statement of
    [init_statements], is still NULL. *)
Theorem smsdb_init_retry (e e' : engine) (c : statics) :
  let x := smsdb_init STRLEN sms_db e c in
  smsdb c = NULL ->
  (forall s, prepared c s = false) ->
  x.1.1 <> 0 ->
  sqlite3_open e (dbname STRLEN sms_db) <> Refused false ->
  smsdb_init STRLEN sms_db e' x.1.2 = (0, x.1.2, [])
  /\ prepared x.1.2 (Query get_expired_stmt) = false.
Proof.
  intros x Hnull Hnone. subst x. rewrite (smsdb_init_unloaded e c Hnull).
  destruct (sqlite3_open e (dbname STRLEN sms_db)) as [|[|]];
    [|intros _ _; split; [by apply smsdb_init_loaded|apply Hnone]
     |intros _ Hne; by destruct Hne].
  cbn zeta. set (c1 := Statics (Live (dbname STRLEN sms_db)) (prepared c)).
  intros Hfail _.
  destruct (db_create_smsdb_result e c1) as (_ & _ & Hdb & Hprep).
  set (x := db_create_smsdb e c1) in *.
  assert (Hlast : prepared x.1.2 (Query get_expired_stmt) = false).
  { rewrite Hprep, decide_False; [apply Hnone|].
    apply (bool_decide_unpack _). vm_compute. exact I. }
  destruct (Z.eqb_spec x.1.1 0) as [Hx|Hx].
  - destruct (first_failure e runtime_statements)
      as [Hall | (l1 & s & l2 & Hsplit & Hall & Hs)].
    + destruct (init_statements_all e runtime_statements x.1.2 Hall) as (Hres & _).
      fold init_statements in Hres. rewrite Hres in Hfail. by destruct Hfail.
    + destruct (init_statements_first_failure e l1 s l2 x.1.2 Hall Hs)
        as (Hres & _ & Hdb' & Hprep').
      destruct (runtime_statements_split l1 s l2 Hsplit) as [Hs1 Hl2].
      rewrite <- Hsplit in Hres, Hdb', Hprep'.
      fold init_statements in Hres, Hdb', Hprep'.
      rewrite Hres. cbn [fst snd Z.eqb].
      split; [apply smsdb_init_loaded; by rewrite Hdb', Hdb|].
      assert (Hin : Query get_expired_stmt ∈ s :: l2).
      { assert (Hlast' : last runtime_statements = Some (Query get_expired_stmt))
          by reflexivity.
        rewrite Hsplit, last_app_cons in Hlast'. by apply last_Some_elem_of. }
      rewrite Hprep'. apply elem_of_cons in Hin as [->|Hin].
      * by rewrite decide_False, decide_True.
      * destruct (Hl2 _ Hin) as [Hq1 Hqs]. by rewrite decide_False, decide_False.
  - cbn [fst snd]. split; [apply smsdb_init_loaded; by rewrite Hdb|done].
Qed.

End Init.

(** The store opened on an engine on which every call succeeds. *)
Lemma smsdb_init_succeeds_witness :
  smsdb (smsdb_init String.length "smsdb" sound unloaded).1.2 = Live "smsdb.sqlite3".
Proof.
  destruct (smsdb_init_succeeds String.length "smsdb" sound unloaded eq_refl
              (fun _ => eq_refl)) as (_ & Hiff & Hok).
  apply Hok, Hiff. split; [reflexivity|]. split; by repeat constructor.
Defined.

(** A second call after the table [incoming] could not be created. *)
Lemma smsdb_init_retry_witness :
  smsdb_init String.length "smsdb" sound
    (smsdb_init String.length "smsdb" (failing_step create_incoming_stmt) unloaded).1.2
  = (0,
     (smsdb_init String.length "smsdb" (failing_step create_incoming_stmt) unloaded).1.2,
     []).
Proof.
  refine (proj1 (smsdb_init_retry String.length "smsdb"
                   (failing_step create_incoming_stmt) sound unloaded
                   eq_refl (fun _ => eq_refl) _ _)).
  - vm_compute. discriminate.
  - discriminate.
Defined.

(** *** [smsdb_atexit] *)

Lemma clean_statements_spec (e : engine) (l : list sql) :
  forall c : statics,
    let x := for_each clean_stmt l e c in
    smsdb x.1.2 = smsdb c
    /\ (forall q, prepared x.1.2 q = if decide (q ∈ l) then false else prepared c q)
    /\ x.2 = Finalizes <$> l.
Proof.
  induction l as [|s l IH]; intros c; cbn zeta; [by repeat split|].
  change (for_each clean_stmt (s :: l) e c)
    with ((for_each clean_stmt l e (with_stmt c s false)).1.1,
          (for_each clean_stmt l e (with_stmt c s false)).1.2,
          [Finalizes s] ++ (for_each clean_stmt l e (with_stmt c s false)).2).
  cbn [fst snd].
  destruct (IH (with_stmt c s false)) as (Hdb & Hprep & Htr).
  split; [done|]. split; [|by rewrite Htr].
  intros q. rewrite Hprep, prepared_with_stmt.
  destruct (decide (q ∈ l)) as [Hq|Hq].
  - by rewrite (decide_True (P := q ∈ s :: l)) by by right.
  - destruct (decide (q = s)) as [->|Hne].
    + by rewrite (decide_True (P := s ∈ s :: l)) by apply list_elem_of_here.
    + rewrite (decide_False (P := q ∈ s :: l)); [done|].
      by intros [?|?]%elem_of_cons.
Qed.

(** X21.  [smsdb_atexit] hands each of the 26 statements to
    [sqlite3_finalize], in the order of [clean_statements], and then closes
    the handle; afterwards every statement is NULL, whatever the engine
    answered, and the handle is NULL when the close succeeded (or there was
    none) and kept otherwise.  After a close that succeeded the next
    [smsdb_init] opens the database again. *)
Theorem smsdb_atexit_releases (e : engine) (c : statics) :
  let x := smsdb_atexit e c in
  (forall s, prepared x.1.2 s = false)
  /\ smsdb x.1.2
     = (if match smsdb c with NULL => true | _ => sqlite3_close e end
        then NULL else smsdb c)
  /\ x.2 = (Finalizes <$> all_statements) ++ [Closes]
  /\ (sqlite3_close e = true ->
      forall STRLEN sms_db e',
        head (smsdb_init STRLEN sms_db e' x.1.2).2
        = Some (Opens (dbname STRLEN sms_db))).
Proof.
  cbn zeta.
  change (smsdb_atexit e c)
    with (let x := for_each clean_stmt all_statements e c in
          (tt,
           if match smsdb x.1.2 with NULL => true | _ => sqlite3_close e end
           then Statics NULL (prepared x.1.2) else x.1.2,
           x.2 ++ [Closes])).
  destruct (clean_statements_spec e all_statements c) as (Hdb & Hprep & Htr).
  set (x := for_each clean_stmt all_statements e c) in *.
  cbn zeta. cbn [fst snd]. rewrite Hdb, Htr.
  assert (Hnone : forall s, prepared x.1.2 s = false).
  { intros s. rewrite Hprep, decide_True; [done|]. apply all_statements_covered. }
  set (closed := match smsdb c with NULL => true | _ => sqlite3_close e end).
  split; [intros s; destruct closed; apply Hnone|].
  split; [by destruct closed|].
  split; [done|].
  intros Hclose STRLEN sms_db e'.
  assert (Hclosed : closed = true) by (subst closed; by destruct (smsdb c)).
  rewrite Hclosed, smsdb_init_unloaded by done. cbn [prepared].
  destruct (sqlite3_open e' _); [|done].
  cbn zeta. by destruct (_ =? 0).
Qed.

End LifecycleFacts.
